(** * Alert pipeline core of the predictive-maintenance backend

    A shallow embedding of the Python modules [config], [evaluation_window],
    [rul_predictor], [ml_stabilizer], [metrics_tracker], [database] and
    [alert_manager], followed by the properties established about them.

    Conventions of the embedding:
    - a [datetime] is an integer number of microseconds ([Z]); a [timedelta]
      is a difference of two of them, and [total_seconds] is that difference
      divided by 10^6;
    - a Python [float] is an exact rational ([Q]) and its operations are the
      exact ones; [round(x, n)] is rounding to the nearest multiple of 10^-n,
      ties to even.  The rounding error of binary64 arithmetic is not part of
      the embedding.  Properties of float computations are therefore stated
      as orders and ranges, which every float operation preserves; as
      agreement up to [Num.float_error] where a computed float is set against
      an exact quantity; and, where a decision is taken on a computed float,
      in terms of the value the function reports;
    - a [str] is a [string] holding its UTF-8 encoding; [len] counts
      characters ([Num.len]), not bytes;
    - a [dict] is a [gmap]; a list is a [list]; a SQL table is the list of its
      rows in insertion order;
    - [datetime.now()] is an argument [now] of a function or, for the alert
      manager, the [clock] component of its state; one call of the API reads
      one instant;
    - a raised exception is a result of its own ([Raise], [Exc]); a database
      method is one transaction, rolled back when it raises. *)

From Stdlib Require Import ZArith QArith Qround Qabs Qminmax Lia Lqa Bool List String.
From stdpp Require Import gmap strings list fin_maps.

Local Open Scope Z_scope.

(** ** Numbers *)

Module Num.

(** Boolean comparisons on rationals, as Python evaluates them. *)
Definition Qltb (a b : Q) : bool := negb (Qle_bool b a).
Definition Qleb (a b : Q) : bool := Qle_bool a b.

(** Builtin [min] and [max] on two arguments: [min(a, b)] is [b] when
    [b < a] and [a] otherwise; [max(a, b)] is [b] when [b > a]. *)
Definition pymin (a b : Q) : Q := if Qltb b a then b else a.
Definition pymax (a b : Q) : Q := if Qltb a b then b else a.

(** Nearest integer, ties to even. *)
Definition round_half_even (x : Q) : Z :=
  let f := Qfloor x in
  let r := (x - inject_Z f)%Q in
  if Qltb r (1 # 2) then f
  else if Qltb (1 # 2) r then f + 1
  else if Z.even f then f else f + 1.

(** [round(x, ndigits)]. *)
Definition round (x : Q) (ndigits : nat) : Q :=
  let scale := Z.pow 10 (Z.of_nat ndigits) in
  (inject_Z (round_half_even (x * inject_Z scale)) / inject_Z scale)%Q.

Definition Qsum (l : list Q) : Q := fold_right Qplus 0%Q l.

(** A bound on the rounding error that binary64 arithmetic accumulates in
    the quantities between 0 and 1 computed here (a weighted sum of three
    terms, a mean, a ratio of two counts): each operation is off by at most
    2^-53 of its result. *)
Definition float_error : Q := 1 # 1000000000.

(** [len(s)] for a [str]: the number of its characters.  In the UTF-8
    encoding a character is one leading byte followed by continuation bytes,
    the bytes 10xxxxxx (128 to 191); [len] counts the leading bytes. *)
Definition is_continuation (c : Ascii.ascii) : bool :=
  let n := Ascii.nat_of_ascii c in (128 <=? n)%nat && (n <? 192)%nat.

Fixpoint len (s : string) : nat :=
  match s with
  | EmptyString => 0%nat
  | String c s' => ((if is_continuation c then 0 else 1) + len s')%nat
  end.

(** [timedelta(seconds=n)] and [total_seconds()]. *)
Definition seconds (n : Z) : Z := n * 1000000.
Definition total_seconds (d : Z) : Q := (inject_Z d / inject_Z 1000000)%Q.

(** [str(n)] for a natural number: its decimal digits. *)
Definition digit (n : nat) : string :=
  String (Ascii.ascii_of_nat (48 + n mod 10)) EmptyString.

Fixpoint decimal_aux (fuel n : nat) (acc : string) : string :=
  match fuel with
  | O => acc
  | S fuel' =>
      let acc' := (digit n ++ acc)%string in
      if (n <? 10)%nat then acc' else decimal_aux fuel' (n / 10) acc'
  end.

Definition str (n : nat) : string := decimal_aux (S n) n EmptyString.

End Num.

(** ** config.py *)

Module Config.

Definition RUL_CRITICAL_TRIGGER : Q := 24%Q.
Definition RUL_CRITICAL_CLEAR : Q := 28%Q.
Definition RUL_WARNING_TRIGGER : Q := 48%Q.
Definition RUL_WARNING_CLEAR : Q := 52%Q.

Definition HEALTH_CRITICAL_TRIGGER : Q := 30%Q.
Definition HEALTH_CRITICAL_CLEAR : Q := 35%Q.
Definition HEALTH_WARNING_TRIGGER : Q := 50%Q.
Definition HEALTH_WARNING_CLEAR : Q := 55%Q.

Definition PERSISTENCE_WINDOWS : gmap string Z :=
  list_to_map
    [ ("critical_rul", 30); ("warning_rul", 60);
      ("low_health_critical", 30); ("low_health_warning", 60);
      ("anomaly_detected", 45) ]%string.

Definition MAX_ALERTS_PER_MACHINE_PER_MINUTE : nat := 3.
Definition MAX_TOTAL_ALERTS_PER_MINUTE : nat := 10.

Definition MULTI_SENSOR_REQUIRED_FOR_CRITICAL : bool := true.
Definition MIN_DEGRADED_SENSORS_FOR_CRITICAL : nat := 2.

Definition SENSOR_DEGRADATION_THRESHOLDS : gmap string Q :=
  list_to_map
    [ ("vibration_x", 15 # 10); ("vibration_y", 15 # 10);
      ("temperature", 85 # 1); ("pressure_low", 90 # 1);
      ("rpm_low", 1350 # 1) ]%string.

(** One entry of [EVALUATION_WINDOWS]. *)
Record window_config := {
  duration_seconds : Z;
  required_pct_above : Q;
  require_worsening_trend : bool;
  risk_threshold : Q
}.

Definition EVALUATION_WINDOWS : gmap string window_config :=
  list_to_map
    [ ("warning_rul",         Build_window_config 60 (55 # 100) true  (4 # 10));
      ("critical_rul",        Build_window_config 45 (65 # 100) true  (6 # 10));
      ("low_health_warning",  Build_window_config 60 (55 # 100) true  (4 # 10));
      ("low_health_critical", Build_window_config 45 (65 # 100) true  (6 # 10));
      ("anomaly_detected",    Build_window_config 90 (50 # 100) false (3 # 10)) ]%string.

Definition ANOMALY_CRITICAL_SCORE : Q := 5%Q.

Definition EMA_ALPHA : Q := 1 # 10.
Definition MIN_PREDICTION_INTERVAL_SECONDS : Z := 300.
Definition MAX_RUL_HOURS : Q := 144%Q.
Definition MIN_RUL_HOURS : Q := 0%Q.

Definition ALERT_RETENTION_DAYS : Z := 90.
Definition LOG_RETENTION_DAYS : Z := 730.

Definition MIN_RESOLUTION_NOTES_LENGTH : nat := 10.
Definition MIN_ROOT_CAUSE_LENGTH : nat := 5.

End Config.

(** ** evaluation_window.py: the risk score *)

(** The weighted sum is computed exactly here and in binary64 by the code,
    where it carries an error of some 10^-16.  The two agree on the third
    decimal except when the exact sum is within that error of a tie: for
    [rul = 0], [health = 9] the exact sum is 0.8185, rounded to 0.818 here,
    and the double sum is just above it, rounded to 0.819. *)
Definition calculate_risk_score (rul_hours health_score anomaly_score : Q) : Q :=
  let rul_risk :=
    Num.pymax 0 (Num.pymin 1 (1 - rul_hours / Config.MAX_RUL_HOURS))%Q in
  let health_risk :=
    Num.pymax 0 (Num.pymin 1 (1 - health_score / 100))%Q in
  let anomaly_risk := Num.pymin 1 (anomaly_score / 10)%Q in
  let combined :=
    (rul_risk * (5 # 10) + health_risk * (35 # 100) + anomaly_risk * (15 # 100))%Q in
  Num.round (Num.pymin 1 (Num.pymax 0 combined)) 3.

(** ** evaluation_window.py: sliding windows *)

Module EvaluationWindow.

Record WindowSample := {
  timestamp : Z;
  risk_score : Q;
  health_score : Q;
  rul_hours : Q;
  sensors : gmap string Q
}.

(** The three predicates [evaluate] combines, and the [reason] field, kept
    as the list of failing predicates instead of the formatted text. *)
Inductive condition := condition_mean | condition_trend | condition_pct.

Inductive reason_t :=
| Insufficient_samples
| No_window_exists
| PROCEED
| Failing (failed : list condition).

Record WindowEvaluation := {
  may_proceed : bool;
  mean_risk : Q;
  risk_trend : Q;
  pct_above_threshold : Q;
  sample_count : nat;
  window_duration_actual : Q;
  reason : reason_t
}.

Record t := {
  machine_id : string;
  alert_type : string;
  duration_seconds : Z;
  required_pct_above : Q;
  require_worsening_trend : bool;
  risk_threshold : Q;
  samples : list WindowSample
}.

Definition __init__ (machine_id alert_type : string) (config : Config.window_config) : t :=
  {| machine_id := machine_id;
     alert_type := alert_type;
     duration_seconds := Config.duration_seconds config;
     required_pct_above := Config.required_pct_above config;
     require_worsening_trend := Config.require_worsening_trend config;
     risk_threshold := Config.risk_threshold config;
     samples := [] |}.

Definition with_samples (w : t) (l : list WindowSample) : t :=
  {| machine_id := machine_id w;
     alert_type := alert_type w;
     duration_seconds := duration_seconds w;
     required_pct_above := required_pct_above w;
     require_worsening_trend := require_worsening_trend w;
     risk_threshold := risk_threshold w;
     samples := l |}.

Definition _prune_old_samples (now : Z) (w : t) : t :=
  let cutoff := now - Num.seconds (duration_seconds w) in
  with_samples w (List.filter (fun s => cutoff <=? timestamp s) (samples w)).

Definition add_sample (now : Z) (risk health rul : Q) (sensors : gmap string Q)
    (w : t) : t :=
  let sample :=
    {| timestamp := now; risk_score := risk; health_score := health;
       rul_hours := rul; sensors := sensors |} in
  _prune_old_samples now (with_samples w (samples w ++ [sample])).

Definition _calculate_trend (timestamps : list Z) (values : list Q) : Q :=
  if (length values <? 2)%nat then 0%Q
  else
    match timestamps with
    | [] => 0%Q
    | t0 :: _ =>
        let x := List.map (fun t => Num.total_seconds (t - t0)) timestamps in
        let y := values in
        if Num.Qltb (List.last x 0 - List.hd 0 x)%Q 1 then 0%Q
        else
          let n := inject_Z (Z.of_nat (length x)) in
          let sxy := Num.Qsum (zip_with Qmult x y) in
          let sx := Num.Qsum x in
          let sy := Num.Qsum y in
          let sxx := Num.Qsum (List.map (fun a => a * a) x)%Q in
          let slope :=
            ((n * sxy - sx * sy) / (n * sxx - sx * sx + (1 # 10000000000)))%Q in
          (slope * 60)%Q
    end.

(** Number of elements a generator [sum(1 for r in risks if ...)] counts. *)
Definition count_above (threshold : Q) (risks : list Q) : nat :=
  length (List.filter (fun r => Num.Qleb threshold r) risks).

(** [np.mean], [_calculate_trend] and the ratio [pct_above] are computed
    exactly here and in binary64 by the code; the three conditions compare
    the computed values, which are also the values reported. *)
Definition evaluate (now : Z) (w0 : t) : t * WindowEvaluation :=
  let w := _prune_old_samples now w0 in
  if (length (samples w) <? 3)%nat then
    (w, {| may_proceed := false; mean_risk := 0; risk_trend := 0;
           pct_above_threshold := 0; sample_count := length (samples w);
           window_duration_actual := 0; reason := Insufficient_samples |})
  else
    let risks := List.map risk_score (samples w) in
    let timestamps := List.map timestamp (samples w) in
    let len := inject_Z (Z.of_nat (length risks)) in
    let mean := (Num.Qsum risks / len)%Q in
    let trend := _calculate_trend timestamps risks in
    let pct_above :=
      (inject_Z (Z.of_nat (count_above (risk_threshold w) risks)) / len)%Q in
    let duration_actual :=
      Num.total_seconds (List.last timestamps 0 - List.hd 0 timestamps) in
    let c_mean := Num.Qleb (risk_threshold w) mean in
    let c_trend := negb (require_worsening_trend w) || Num.Qltb 0 trend in
    let c_pct := Num.Qleb (required_pct_above w) pct_above in
    let proceed := c_mean && c_trend && c_pct in
    let reasons :=
      (if c_mean then [] else [condition_mean]) ++
      (if c_trend then [] else [condition_trend]) ++
      (if c_pct then [] else [condition_pct]) in
    (w, {| may_proceed := proceed; mean_risk := mean; risk_trend := trend;
           pct_above_threshold := pct_above;
           sample_count := length (samples w);
           window_duration_actual := duration_actual;
           reason := if proceed then PROCEED else Failing reasons |}).

(** [self.samples.clear()] *)
Definition clear (w : t) : t := with_samples w [].

End EvaluationWindow.

(** The windows of all [(machine_id, alert_type)] pairs. *)
Module EvaluationWindowManager.

Definition _get_window_config (alert_type : string) : Config.window_config :=
  default (Config.Build_window_config 60 (6 # 10) true (5 # 10))
          (Config.EVALUATION_WINDOWS !! alert_type).

Definition add_sample (now : Z) (machine_id alert_type : string)
    (risk health rul : Q) (sensors : gmap string Q)
    (windows : gmap (string * string) EvaluationWindow.t)
    : gmap (string * string) EvaluationWindow.t :=
  let key := (machine_id, alert_type) in
  let w :=
    match windows !! key with
    | Some w => w
    | None => EvaluationWindow.__init__ machine_id alert_type
                (_get_window_config alert_type)
    end in
  <[key := EvaluationWindow.add_sample now risk health rul sensors w]> windows.

Definition evaluate (now : Z) (machine_id alert_type : string)
    (windows : gmap (string * string) EvaluationWindow.t)
    : gmap (string * string) EvaluationWindow.t * EvaluationWindow.WindowEvaluation :=
  let key := (machine_id, alert_type) in
  match windows !! key with
  | None =>
      (windows,
       {| EvaluationWindow.may_proceed := false;
          EvaluationWindow.mean_risk := 0;
          EvaluationWindow.risk_trend := 0;
          EvaluationWindow.pct_above_threshold := 0;
          EvaluationWindow.sample_count := 0;
          EvaluationWindow.window_duration_actual := 0;
          EvaluationWindow.reason := EvaluationWindow.No_window_exists |})
  | Some w =>
      let '(w', ev) := EvaluationWindow.evaluate now w in
      (<[key := w']> windows, ev)
  end.

(** [for key in keys_to_clear: self.windows[key].clear()], the keys being
    those whose first component is [machine_id]. *)
Definition clear_machine (machine_id : string)
    (windows : gmap (string * string) EvaluationWindow.t)
    : gmap (string * string) EvaluationWindow.t :=
  map_imap
    (fun k w => Some (if String.eqb (fst k) machine_id
                      then EvaluationWindow.clear w else w))
    windows.

End EvaluationWindowManager.

(** ** rul_predictor.py *)

Module RULPredictor.

(** [sensor_data.get(key, dflt)] *)
Definition get (sensor_data : gmap string Q) (key : string) (dflt : Q) : Q :=
  default dflt (sensor_data !! key).

Definition _heuristic_rul (sensor_data : gmap string Q) : Q * Q :=
  let vib_x := get sensor_data "vibration_x" (5 # 10) in
  let vib_y := get sensor_data "vibration_y" (5 # 10) in
  let temp := get sensor_data "temperature" 70 in
  let avg_vib := ((vib_x + vib_y) / 2)%Q in
  let vib_score :=
    if Num.Qleb avg_vib (65 # 100) then 100%Q
    else if Num.Qleb avg_vib (12 # 10) then
      (100 - ((avg_vib - (65 # 100)) / (55 # 100)) * 20)%Q
    else if Num.Qleb avg_vib (25 # 10) then
      (80 - ((avg_vib - (12 # 10)) / (13 # 10)) * 50)%Q
    else Num.pymax 0 (30 - ((avg_vib - (25 # 10)) / 1) * 30)%Q in
  let temp_score :=
    if Num.Qltb temp 20 then
      if Num.Qleb temp (75 # 10) then 100%Q
      else if Num.Qleb temp 10 then (100 - ((temp - (75 # 10)) / (25 # 10)) * 30)%Q
      else if Num.Qleb temp 15 then (70 - ((temp - 10) / 5) * 50)%Q
      else Num.pymax 0 (20 - ((temp - 15) / 5) * 20)%Q
    else if Num.Qltb 60 temp then
      if Num.Qleb temp 72 then 100%Q
      else if Num.Qleb temp 85 then (100 - ((temp - 72) / 13) * 25)%Q
      else if Num.Qleb temp 95 then (75 - ((temp - 85) / 10) * 45)%Q
      else Num.pymax 0 (30 - ((temp - 95) / 10) * 30)%Q
    else
      if Num.Qleb temp 52 then 100%Q
      else if Num.Qleb temp 70 then (100 - ((temp - 52) / 18) * 25)%Q
      else if Num.Qleb temp 85 then (75 - ((temp - 70) / 15) * 45)%Q
      else Num.pymax 0 (30 - ((temp - 85) / 15) * 30)%Q in
  let health_score0 := (vib_score * (6 # 10) + temp_score * (4 # 10))%Q in
  let health_score := Num.pymin 100 (Num.pymax 0 health_score0) in
  let rul_hours :=
    if Num.Qleb 70 health_score then (72 + ((health_score - 70) / 30) * 72)%Q
    else if Num.Qleb 40 health_score then (24 + ((health_score - 40) / 30) * 48)%Q
    else ((health_score / 40) * 24)%Q in
  (Num.round rul_hours 1, Num.round health_score 2).

Definition predict_rul (sensor_data : gmap string Q) (machine_id : string) : Q * Q :=
  _heuristic_rul sensor_data.

End RULPredictor.

(** ** ml_stabilizer.py *)

Module StabilizedRULPredictor.

Record t := {
  prediction_history : gmap string (list (Z * Q * Q));
  last_prediction_time : gmap string Z;
  stable_predictions : gmap string (Q * Q)
}.

Definition __init__ : t :=
  {| prediction_history := ∅; last_prediction_time := ∅; stable_predictions := ∅ |}.

Definition ema_alpha : Q := Config.EMA_ALPHA.
Definition min_interval : Z := Num.seconds Config.MIN_PREDICTION_INTERVAL_SECONDS.

Definition set_history (self : t) (machine_id : string) (h : list (Z * Q * Q)) : t :=
  {| prediction_history := <[machine_id := h]> (prediction_history self);
     last_prediction_time := last_prediction_time self;
     stable_predictions := stable_predictions self |}.

Definition _stabilize_prediction (machine_id : string) (raw_rul raw_health : Q)
    (timestamp : Z) (self : t) : t * (Q * Q) :=
  let history := default [] (prediction_history self !! machine_id) in
  if (length history =? 0)%nat then
    (set_history self machine_id (history ++ [(timestamp, raw_rul, raw_health)]),
     (raw_rul, raw_health))
  else
    let '(_, prev_rul, prev_health) := List.last history (0, 0%Q, 0%Q) in
    let ema_rul := (ema_alpha * raw_rul + (1 - ema_alpha) * prev_rul)%Q in
    let ema_health := (ema_alpha * raw_health + (1 - ema_alpha) * prev_health)%Q in
    let stable_rul0 := Num.pymin ema_rul prev_rul in
    let stable_health0 :=
      if Num.Qltb (prev_health * (105 # 100))%Q ema_health then prev_health
      else ema_health in
    let stable_rul :=
      Num.pymax Config.MIN_RUL_HOURS (Num.pymin stable_rul0 Config.MAX_RUL_HOURS) in
    let stable_health := Num.pymax 0 (Num.pymin 100 stable_health0) in
    let appended := history ++ [(timestamp, stable_rul, stable_health)] in
    let capped := if (50 <? length appended)%nat then List.tl appended else appended in
    (set_history self machine_id capped,
     (Num.round stable_rul 1, Num.round stable_health 2)).

Definition predict_rul (now : Z) (sensor_data : gmap string Q) (machine_id : string)
    (bypass_smoothing : bool) (self : t) : t * (Q * Q) :=
  if bypass_smoothing then
    ({| prediction_history := delete machine_id (prediction_history self);
        last_prediction_time := delete machine_id (last_prediction_time self);
        stable_predictions := delete machine_id (stable_predictions self) |},
     RULPredictor.predict_rul sensor_data machine_id)
  else
    let current_time := now in
    let cached :=
      match last_prediction_time self !! machine_id with
      | Some t_last =>
          if current_time - t_last <? min_interval
          then stable_predictions self !! machine_id
          else None
      | None => None
      end in
    match cached with
    | Some pred => (self, pred)
    | None =>
        let '(raw_rul, raw_health) := RULPredictor.predict_rul sensor_data machine_id in
        let '(self1, (stable_rul, stable_health)) :=
          _stabilize_prediction machine_id raw_rul raw_health current_time self in
        ({| prediction_history := prediction_history self1;
            last_prediction_time :=
              <[machine_id := current_time]> (last_prediction_time self1);
            stable_predictions :=
              <[machine_id := (stable_rul, stable_health)]> (stable_predictions self1) |},
         (stable_rul, stable_health))
    end.

Definition reset_machine (machine_id : string) (self : t) : t :=
  {| prediction_history :=
       match prediction_history self !! machine_id with
       | Some _ => <[machine_id := []]> (prediction_history self)
       | None => prediction_history self
       end;
     last_prediction_time := delete machine_id (last_prediction_time self);
     stable_predictions := delete machine_id (stable_predictions self) |}.

(** The calls a client can make, and a run of them from a given state,
    collecting what each one returns. *)
Inductive call :=
| Predict (now : Z) (sensor_data : gmap string Q) (machine_id : string)
          (bypass_smoothing : bool)
| Reset (machine_id : string).

Definition step (c : call) (self : t) : t * option (string * (Q * Q)) :=
  match c with
  | Predict now sd m b =>
      let '(self', r) := predict_rul now sd m b self in (self', Some (m, r))
  | Reset m => (reset_machine m self, None)
  end.

Fixpoint run (cs : list call) (self : t) : t * list (string * (Q * Q)) :=
  match cs with
  | [] => (self, [])
  | c :: cs' =>
      let '(self1, r) := step c self in
      let '(self2, rs) := run cs' self1 in
      (self2, match r with Some x => x :: rs | None => rs end)
  end.

(** The [rul_hours] returned for one machine, in call order. *)
Definition returned_rul (machine_id : string) (rs : list (string * (Q * Q))) : list Q :=
  List.map (fun r => fst (snd r))
           (List.filter (fun r => bool_decide (fst r = machine_id)) rs).

(** A call that clears the smoothing state of [machine_id]: a prediction for
    it with [bypass_smoothing], or its reset. *)
Definition clears (machine_id : string) (c : call) : bool :=
  match c with
  | Predict _ _ m b => b && bool_decide (m = machine_id)
  | Reset m => bool_decide (m = machine_id)
  end.

Inductive reachable : t -> Prop :=
| reachable_init : reachable __init__
| reachable_step c self : reachable self -> reachable (fst (step c self)).

(** A list of rationals in which no element exceeds its predecessor. *)
Fixpoint non_increasing (l : list Q) : Prop :=
  match l with
  | [] => True
  | a :: l' =>
      match l' with
      | [] => True
      | b :: _ => (b <= a)%Q
      end /\ non_increasing l'
  end.

(** The dictionary [get_prediction_trend] returns, by its [status]. *)
Inductive trend_result :=
| No_data
| No_recent_data
| Success (data_points : nat) (rul_change health_change : Q) (trend : string)
          (history : list (Z * Q * Q)).

Definition get_prediction_trend (now : Z) (machine_id : string) (hours : Z)
    (self : t) : trend_result :=
  match prediction_history self !! machine_id with
  | None => No_data
  | Some history =>
      let cutoff := now - Num.seconds (hours * 3600) in
      let recent_history :=
        List.filter (fun e => cutoff <=? fst (fst e)) history in
      match recent_history with
      | [] => No_recent_data
      | first :: _ =>
          let last := List.last recent_history first in
          let rul_change :=
            if (2 <=? length recent_history)%nat
            then (snd (fst last) - snd (fst first))%Q else 0%Q in
          let health_change :=
            if (2 <=? length recent_history)%nat
            then (snd last - snd first)%Q else 0%Q in
          Success (length recent_history) (Num.round rul_change 1)
            (Num.round health_change 2)
            (if Num.Qltb rul_change (-5) then "degrading" else "stable")
            recent_history
      end
  end.

End StabilizedRULPredictor.

(** ** metrics_tracker.py *)

Module MetricsTracker.

Inductive PredictionOutcome :=
| TRUE_POSITIVE | FALSE_POSITIVE | TRUE_NEGATIVE | FALSE_NEGATIVE | PENDING.

Definition outcome_eqb (a b : PredictionOutcome) : bool :=
  match a, b with
  | TRUE_POSITIVE, TRUE_POSITIVE | FALSE_POSITIVE, FALSE_POSITIVE
  | TRUE_NEGATIVE, TRUE_NEGATIVE | FALSE_NEGATIVE, FALSE_NEGATIVE
  | PENDING, PENDING => true
  | _, _ => false
  end.

Record PredictionRecord := {
  prediction_id : string;
  machine_id : string;
  predicted_at : Z;
  predicted_failure_time : Z;
  predicted_ttf_hours : Q;
  health_score_at_prediction : Q;
  anomaly_score_at_prediction : Q;
  confidence : Q;
  outcome : PredictionOutcome;
  actual_failure_time : option Z;
  lead_time_hours : option Q;
  resolution_notes : string
}.

Record FailureEvent := {
  event_id : string;
  f_machine_id : string;
  occurred_at : Z;
  was_predicted : bool;
  f_prediction_id : option string;
  f_lead_time_hours : option Q;
  event_type : string
}.

(** The two dictionaries keep insertion order, which the matching loop of
    [record_failure] depends on: they are association lists. *)
Record t := {
  predictions : list (string * PredictionRecord);
  failures : list (string * FailureEvent);
  _prediction_counter : nat;
  _failure_counter : nat;
  prediction_window_hours : Q
}.

Definition __init__ : t :=
  {| predictions := []; failures := [];
     _prediction_counter := 0; _failure_counter := 0;
     prediction_window_hours := 48 |}.

(** [d[k] = v] on an insertion-ordered dictionary. *)
Fixpoint dict_set {V} (k : string) (v : V) (d : list (string * V)) : list (string * V) :=
  match d with
  | [] => [(k, v)]
  | (k', v') :: d' =>
      if String.eqb k' k then (k, v) :: d' else (k', v') :: dict_set k v d'
  end.

(** ["{n:04d}"] *)
Definition fmt_04d (n : nat) : string :=
  let s := Num.str n in
  (String.concat "" (List.repeat "0"%string (4 - String.length s)) ++ s)%string.

(** [timedelta(hours=h)] in microseconds, rounded to the nearest one. *)
Definition hours (h : Q) : Z := Num.round_half_even (h * 3600000000)%Q.

Definition record_prediction (now : Z) (machine_id : string)
    (ttf_hours health_score anomaly_score confidence : Q) (self : t) : t * string :=
  let counter := S (_prediction_counter self) in
  let prediction_id := ("PRED-" ++ fmt_04d counter)%string in
  let record :=
    {| prediction_id := prediction_id; machine_id := machine_id;
       predicted_at := now; predicted_failure_time := now + hours ttf_hours;
       predicted_ttf_hours := ttf_hours;
       health_score_at_prediction := health_score;
       anomaly_score_at_prediction := anomaly_score;
       confidence := confidence; outcome := PENDING;
       actual_failure_time := None; lead_time_hours := None;
       resolution_notes := "" |} in
  ({| predictions := dict_set prediction_id record (predictions self);
      failures := failures self;
      _prediction_counter := counter;
      _failure_counter := _failure_counter self;
      prediction_window_hours := prediction_window_hours self |},
   prediction_id).

(** [(now - pred.predicted_at).total_seconds() / 3600] *)
Definition time_diff (now : Z) (pred : PredictionRecord) : Q :=
  (Num.total_seconds (now - predicted_at pred) / 3600)%Q.

(** One iteration of the matching loop; the accumulator is the pair
    [(matching_prediction, best_lead_time)], [None] while both are [None]. *)
Definition match_step (now : Z) (machine : string) (window : Q)
    (acc : option (string * PredictionRecord * Q))
    (item : string * PredictionRecord) : option (string * PredictionRecord * Q) :=
  let '(pred_id, pred) := item in
  if negb (String.eqb (machine_id pred) machine) then acc
  else if negb (outcome_eqb (outcome pred) PENDING) then acc
  else
    let td := time_diff now pred in
    if Num.Qltb 0 td && Num.Qleb td window then
      match acc with
      | None => Some (pred_id, pred, td)
      | Some (_, _, best_lead_time) =>
          if Num.Qltb td best_lead_time then Some (pred_id, pred, td) else acc
      end
    else acc.

Definition find_match (now : Z) (machine : string) (self : t)
    : option (string * PredictionRecord * Q) :=
  fold_left (match_step now machine (prediction_window_hours self))
            (predictions self) None.

Definition mark_true_positive (now : Z) (lead : Q) (p : PredictionRecord)
    : PredictionRecord :=
  {| prediction_id := prediction_id p; machine_id := machine_id p;
     predicted_at := predicted_at p;
     predicted_failure_time := predicted_failure_time p;
     predicted_ttf_hours := predicted_ttf_hours p;
     health_score_at_prediction := health_score_at_prediction p;
     anomaly_score_at_prediction := anomaly_score_at_prediction p;
     confidence := confidence p; outcome := TRUE_POSITIVE;
     actual_failure_time := Some now; lead_time_hours := Some lead;
     resolution_notes := resolution_notes p |}.

Definition record_failure (now : Z) (machine : string) (event_type : string)
    (self : t) : t * string :=
  let counter := S (_failure_counter self) in
  let failure_id := ("FAIL-" ++ fmt_04d counter)%string in
  let matching := find_match now machine self in
  let failure :=
    {| event_id := failure_id; f_machine_id := machine; occurred_at := now;
       was_predicted := match matching with Some _ => true | None => false end;
       f_prediction_id :=
         match matching with Some (_, p, _) => Some (prediction_id p) | None => None end;
       f_lead_time_hours :=
         match matching with Some (_, _, lead) => Some lead | None => None end;
       event_type := event_type |} in
  ({| predictions :=
        match matching with
        | Some (pred_id, p, lead) =>
            dict_set pred_id (mark_true_positive now lead p) (predictions self)
        | None => predictions self
        end;
      failures := dict_set failure_id failure (failures self);
      _prediction_counter := _prediction_counter self;
      _failure_counter := counter;
      prediction_window_hours := prediction_window_hours self |},
   failure_id).

(** The [fn] count of [calculate_metrics]. *)
Definition false_negatives (self : t) : nat :=
  length (List.filter (fun f => negb (was_predicted (snd f))) (failures self)).

(** [pred.outcome = o; pred.resolution_notes = notes] *)
Definition set_outcome (o : PredictionOutcome) (notes : string)
    (p : PredictionRecord) : PredictionRecord :=
  {| prediction_id := prediction_id p; machine_id := machine_id p;
     predicted_at := predicted_at p;
     predicted_failure_time := predicted_failure_time p;
     predicted_ttf_hours := predicted_ttf_hours p;
     health_score_at_prediction := health_score_at_prediction p;
     anomaly_score_at_prediction := anomaly_score_at_prediction p;
     confidence := confidence p; outcome := o;
     actual_failure_time := actual_failure_time p;
     lead_time_hours := lead_time_hours p;
     resolution_notes := notes |}.

Definition with_predictions (self : t) (l : list (string * PredictionRecord)) : t :=
  {| predictions := l; failures := failures self;
     _prediction_counter := _prediction_counter self;
     _failure_counter := _failure_counter self;
     prediction_window_hours := prediction_window_hours self |}.

Definition mark_false_positive (the_id notes : string) (self : t) : t :=
  with_predictions self
    (List.map
       (fun kv => if String.eqb (fst kv) the_id
                  then (fst kv, set_outcome FALSE_POSITIVE notes (snd kv))
                  else kv)
       (predictions self)).

(** One iteration of the loop of [expire_pending_predictions]. *)
Definition expire_step (now : Z) (max_age_hours : Q) (pred : PredictionRecord)
    : PredictionRecord :=
  if negb (outcome_eqb (outcome pred) PENDING) then pred
  else
    let age_hours := (Num.total_seconds (now - predicted_at pred) / 3600)%Q in
    if Num.Qltb max_age_hours age_hours then
      set_outcome FALSE_POSITIVE "Expired - failure did not occur within window" pred
    else pred.

Definition expire_pending_predictions (now : Z) (max_age_hours : Q) (self : t) : t :=
  with_predictions self
    (List.map (fun kv => (fst kv, expire_step now max_age_hours (snd kv)))
              (predictions self)).

(** [sum(1 for p in self.predictions.values() if p.outcome == o)] *)
Definition count_outcome (o : PredictionOutcome) (self : t) : Z :=
  Z.of_nat (length (List.filter (fun kv => outcome_eqb (outcome (snd kv)) o)
                                (predictions self))).

(** [sum(l)], [max(l)] and [min(l)] of a list of floats. *)
Definition pysum (l : list Q) : Q := fold_left Qplus l 0%Q.

Definition pymax_list (l : list Q) : Q :=
  match l with
  | [] => 0%Q
  | x :: l' => fold_left Num.pymax l' x
  end.

Definition pymin_list (l : list Q) : Q :=
  match l with
  | [] => 0%Q
  | x :: l' => fold_left Num.pymin l' x
  end.

Definition _get_accuracy_rating (precision recall : Q) : string :=
  let avg := ((precision + recall) / 2)%Q in
  if Num.Qleb (95 # 100) avg then "EXCELLENT"
  else if Num.Qleb (85 # 100) avg then "GOOD"
  else if Num.Qleb (70 # 100) avg then "FAIR"
  else "NEEDS_IMPROVEMENT".

Definition _get_lead_time_rating (avg_hours : Q) : string :=
  if Num.Qleb 24 avg_hours then "EXCELLENT - 24+ hours advance warning"
  else if Num.Qleb 12 avg_hours then "GOOD - 12+ hours advance warning"
  else if Num.Qleb 6 avg_hours then "FAIR - 6+ hours advance warning"
  else if Num.Qleb 2 avg_hours then "MINIMUM - 2+ hours advance warning"
  else "INSUFFICIENT - Less than 2 hours warning".

(** The dictionary [calculate_metrics] returns. *)
Record Metrics := {
  timestamp : Z;
  true_positives : Z;
  false_positives : Z;
  true_negatives : Z;
  m_false_negatives : Z;
  pending : Z;
  precision : Q;
  recall : Q;
  f1_score : Q;
  false_alarm_rate : Q;
  average_hours : Q;
  max_hours : Q;
  min_hours : Q;
  predictions_with_lead_time : nat;
  total_predictions : nat;
  total_failures : nat;
  accuracy_rating : string;
  lead_time_rating : string
}.

(** The lead times of the predictions that came true. *)
Definition lead_times_of (self : t) : list Q :=
  omap (fun kv =>
          if outcome_eqb (outcome (snd kv)) TRUE_POSITIVE
          then lead_time_hours (snd kv) else None)
       (predictions self).

Definition calculate_metrics (now : Z) (self0 : t) : t * Metrics :=
  let self := expire_pending_predictions now 48 self0 in
  let tp := count_outcome TRUE_POSITIVE self in
  let fp := count_outcome FALSE_POSITIVE self in
  let fn := Z.of_nat (false_negatives self) in
  let tn := Z.max 0 (Z.of_nat (length (predictions self)) - tp - fp) in
  let pending := count_outcome PENDING self in
  let precision :=
    if 0 <? tp + fp then (inject_Z tp / inject_Z (tp + fp))%Q else 1%Q in
  let recall :=
    if 0 <? tp + fn then (inject_Z tp / inject_Z (tp + fn))%Q else 1%Q in
  let f1_score :=
    if Num.Qltb 0 (precision + recall)
    then (2 * (precision * recall) / (precision + recall))%Q else 0%Q in
  let false_alarm_rate :=
    if 0 <? fp + tn then (inject_Z fp / inject_Z (fp + tn))%Q else 0%Q in
  let lead_times := lead_times_of self in
  let avg_lead_time :=
    match lead_times with
    | [] => 0%Q
    | _ => (pysum lead_times / inject_Z (Z.of_nat (length lead_times)))%Q
    end in
  let max_lead_time := pymax_list lead_times in
  let min_lead_time := pymin_list lead_times in
  (self,
   {| timestamp := now;
      true_positives := tp; false_positives := fp; true_negatives := tn;
      m_false_negatives := fn; pending := pending;
      precision := Num.round (precision * 100) 2;
      recall := Num.round (recall * 100) 2;
      f1_score := Num.round (f1_score * 100) 2;
      false_alarm_rate := Num.round (false_alarm_rate * 100) 2;
      average_hours := Num.round avg_lead_time 2;
      max_hours := Num.round max_lead_time 2;
      min_hours := Num.round min_lead_time 2;
      predictions_with_lead_time := length lead_times;
      total_predictions := length (predictions self);
      total_failures := length (failures self);
      accuracy_rating := _get_accuracy_rating precision recall;
      lead_time_rating := _get_lead_time_rating avg_lead_time |}).

(** [l[:limit]], also for a negative [limit]. *)
Definition slice_to {A} (limit : Z) (l : list A) : list A :=
  if limit <? 0 then List.firstn (Z.to_nat (Z.of_nat (length l) + limit)) l
  else List.firstn (Z.to_nat limit) l.

(** [l.sort(key=key, reverse=True)]: the sort is stable, so the result is
    the one of any stable sort; here, insertion from the right. *)
Fixpoint insert_newest {A} (key : A -> Z) (x : A) (l : list A) : list A :=
  match l with
  | [] => [x]
  | y :: l' => if key x <? key y then y :: insert_newest key x l' else x :: l
  end.

Definition sort_newest_first {A} (key : A -> Z) (l : list A) : list A :=
  fold_right (insert_newest key) [] l.

(** [if machine_id: l = [x for x in l if x.machine_id == machine_id]]; an
    empty string is no filter. *)
Definition for_machine {A} (machine_of : A -> string) (machine_id : option string)
    (l : list A) : list A :=
  match machine_id with
  | Some m => if String.eqb m "" then l
              else List.filter (fun x => String.eqb (machine_of x) m) l
  | None => l
  end.

(** The dictionaries of [get_prediction_history] and [get_failure_history]. *)
Record prediction_view := {
  v_prediction_id : string;
  v_machine_id : string;
  v_predicted_at : Z;
  v_predicted_failure_time : Z;
  v_ttf_hours : Q;
  v_health_score : Q;
  v_confidence : Q;
  v_outcome : PredictionOutcome;
  v_lead_time_hours : option Q;
  v_actual_failure_time : option Z
}.

Definition view_prediction (p : PredictionRecord) : prediction_view :=
  {| v_prediction_id := prediction_id p; v_machine_id := machine_id p;
     v_predicted_at := predicted_at p;
     v_predicted_failure_time := predicted_failure_time p;
     v_ttf_hours := predicted_ttf_hours p;
     v_health_score := health_score_at_prediction p;
     v_confidence := confidence p; v_outcome := outcome p;
     v_lead_time_hours := lead_time_hours p;
     v_actual_failure_time := actual_failure_time p |}.

Definition get_prediction_history (machine : option string) (limit : Z)
    (self : t) : list prediction_view :=
  let predictions := List.map snd (predictions self) in
  let predictions := for_machine machine_id machine predictions in
  let predictions := sort_newest_first predicted_at predictions in
  List.map view_prediction (slice_to limit predictions).

(** The dictionary of a failure has the fields of [FailureEvent], all of
    them. *)
Definition get_failure_history (machine : option string) (limit : Z)
    (self : t) : list FailureEvent :=
  let failures := List.map snd (failures self) in
  let failures := for_machine f_machine_id machine failures in
  let failures := sort_newest_first occurred_at failures in
  slice_to limit failures.

End MetricsTracker.

(** ** database.py

    The tables [alerts] and [maintenance_logs] with their primary keys; every
    method is one transaction, so a raised error leaves the store as it was.
    The table [sensor_history] takes no part in what follows and is left out. *)

Module Database.

Inductive alert_state := ACTIVE | ACKNOWLEDGED | IN_PROGRESS | RESOLVED | LOGGED.

Definition state_name (s : alert_state) : string :=
  match s with
  | ACTIVE => "ACTIVE" | ACKNOWLEDGED => "ACKNOWLEDGED"
  | IN_PROGRESS => "IN_PROGRESS" | RESOLVED => "RESOLVED" | LOGGED => "LOGGED"
  end.

(** [state IN ('ACTIVE', 'ACKNOWLEDGED', 'IN_PROGRESS')] *)
Definition is_open (s : alert_state) : bool :=
  match s with
  | ACTIVE | ACKNOWLEDGED | IN_PROGRESS => true
  | RESOLVED | LOGGED => false
  end.

(** [state IN ('ACKNOWLEDGED', 'IN_PROGRESS')] *)
Definition is_resolvable (s : alert_state) : bool :=
  match s with
  | ACKNOWLEDGED | IN_PROGRESS => true
  | ACTIVE | RESOLVED | LOGGED => false
  end.

(** The text of an alert, by template and the number formatted into it. *)
Inductive message_t :=
| Msg_critical_rul (rul_hours : Q)
| Msg_warning_rul (rul_hours : Q)
| Msg_critical_health (health_score : Q)
| Msg_warning_health (health_score : Q)
| Msg_anomaly (anomaly_score : Q)
| Msg_text (text : string).

(** The JSON object stored in the [metadata] column. *)
Inductive meta_value :=
| MNum (q : Q)
| MSensors (sensors : gmap string Q)
| MDict (d : list (string * Q)).

Definition metadata_t := list (string * meta_value).

Record alert_row := {
  id : string;
  machine_id : string;
  alert_type : string;
  severity : string;
  message : message_t;
  created_at : Z;
  state : alert_state;
  acknowledged_by : option string;
  acknowledged_at : option Z;
  resolved_by : option string;
  resolved_at : option Z;
  resolution_notes : option string;
  root_cause : option string;
  downtime_minutes : option Z;
  metadata : metadata_t
}.

Record log_row := {
  log_id : string;
  log_machine_id : string;
  log_alert_id : option string;
  log_created_at : Z;
  log_resolved_at : Z;
  log_operator : string;
  log_root_cause : string;
  log_resolution_notes : string;
  log_downtime_minutes : Z;
  log_severity : string;
  log_alert_type : string;
  log_metadata : metadata_t
}.

Record t := {
  alerts : list alert_row;
  maintenance_logs : list log_row
}.

Definition empty : t := {| alerts := []; maintenance_logs := [] |}.

Inductive exn := IntegrityError | OverflowError.

(** What a transaction yields: a value, or an error after rollback. *)
Inductive outcome (A : Type) :=
| Return (a : A)
| Raise (e : exn).
Arguments Return {A} a.
Arguments Raise {A} e.

(** The argument of [create_alert]. *)
Record alert_data := {
  d_id : string;
  d_machine_id : string;
  d_alert_type : string;
  d_severity : string;
  d_message : message_t;
  d_created_at : Z;
  d_metadata : metadata_t
}.

Definition create_alert (data : alert_data) (db : t) : t * outcome string :=
  let alert_id := d_id data in
  if existsb (fun r => String.eqb (id r) alert_id) (alerts db) then
    (db, Raise IntegrityError)
  else
    let row :=
      {| id := alert_id; machine_id := d_machine_id data;
         alert_type := d_alert_type data; severity := d_severity data;
         message := d_message data; created_at := d_created_at data;
         state := ACTIVE;
         acknowledged_by := None; acknowledged_at := None;
         resolved_by := None; resolved_at := None;
         resolution_notes := None; root_cause := None;
         downtime_minutes := None; metadata := d_metadata data |} in
    ({| alerts := alerts db ++ [row]; maintenance_logs := maintenance_logs db |},
     Return alert_id).

Definition get_alert (alert_id : string) (db : t) : option alert_row :=
  List.find (fun r => String.eqb (id r) alert_id) (alerts db).

(** [UPDATE alerts SET ... WHERE cond]: the new table and [rowcount]. *)
Definition update_where (cond : alert_row -> bool) (f : alert_row -> alert_row)
    (rows : list alert_row) : list alert_row * nat :=
  (List.map (fun r => if cond r then f r else r) rows,
   length (List.filter cond rows)).

Definition set_acknowledged (operator_id : string) (now : Z) (r : alert_row) : alert_row :=
  {| id := id r; machine_id := machine_id r; alert_type := alert_type r;
     severity := severity r; message := message r; created_at := created_at r;
     state := ACKNOWLEDGED;
     acknowledged_by := Some operator_id; acknowledged_at := Some now;
     resolved_by := resolved_by r; resolved_at := resolved_at r;
     resolution_notes := resolution_notes r; root_cause := root_cause r;
     downtime_minutes := downtime_minutes r; metadata := metadata r |}.

Definition acknowledge_alert (now : Z) (alert_id operator_id : string) (db : t)
    : t * bool :=
  let '(rows, rowcount) :=
    update_where
      (fun r => String.eqb (id r) alert_id &&
                match state r with ACTIVE => true | _ => false end)
      (set_acknowledged operator_id now) (alerts db) in
  ({| alerts := rows; maintenance_logs := maintenance_logs db |},
   (0 <? rowcount)%nat).

Definition set_resolved (operator_id : string) (now : Z)
    (notes cause : string) (downtime : Z) (r : alert_row) : alert_row :=
  {| id := id r; machine_id := machine_id r; alert_type := alert_type r;
     severity := severity r; message := message r; created_at := created_at r;
     state := RESOLVED;
     acknowledged_by := acknowledged_by r; acknowledged_at := acknowledged_at r;
     resolved_by := Some operator_id; resolved_at := Some now;
     resolution_notes := Some notes; root_cause := Some cause;
     downtime_minutes := Some downtime; metadata := metadata r |}.

(** An [int] bound to a statement must fit SQLite's INTEGER, a signed
    64-bit value; [execute] raises [OverflowError] for any other. *)
Definition fits_integer (n : Z) : bool := (- 2 ^ 63 <=? n) && (n <? 2 ^ 63).

Definition resolve_alert (now : Z) (alert_id operator_id root_cause
    resolution_notes : string) (downtime_minutes : Z) (db : t) : t * outcome bool :=
  match get_alert alert_id db with
  | None => (db, Return false)
  | Some alert =>
      let resolved_at := now in
      if negb (fits_integer downtime_minutes) then (db, Raise OverflowError) else
      let '(rows, rowcount) :=
        update_where
          (fun r => String.eqb (id r) alert_id && is_resolvable (state r))
          (set_resolved operator_id resolved_at resolution_notes root_cause
                        downtime_minutes)
          (alerts db) in
      if (rowcount =? 0)%nat then
        ({| alerts := rows; maintenance_logs := maintenance_logs db |}, Return false)
      else
        let new_log_id := ("LOG-" ++ alert_id)%string in
        if existsb (fun l => String.eqb (log_id l) new_log_id) (maintenance_logs db)
        then (db, Raise IntegrityError)
        else
          let log :=
            {| log_id := new_log_id; log_machine_id := machine_id alert;
               log_alert_id := Some alert_id;
               log_created_at := created_at alert;
               log_resolved_at := resolved_at;
               log_operator := operator_id; log_root_cause := root_cause;
               log_resolution_notes := resolution_notes;
               log_downtime_minutes := downtime_minutes;
               log_severity := severity alert;
               log_alert_type := alert_type alert;
               log_metadata := metadata alert |} in
          ({| alerts := rows; maintenance_logs := maintenance_logs db ++ [log] |},
           Return true)
  end.

Definition check_duplicate_alert (machine alert_ty : string) (db : t) : bool :=
  let count :=
    length (List.filter
              (fun r => String.eqb (machine_id r) machine &&
                        String.eqb (alert_type r) alert_ty &&
                        is_open (state r))
              (alerts db)) in
  (0 <? count)%nat.





Definition days (n : Z) : Z := Num.seconds (n * 86400).

Definition set_logged (r : alert_row) : alert_row :=
  {| id := id r; machine_id := machine_id r; alert_type := alert_type r;
     severity := severity r; message := message r; created_at := created_at r;
     state := LOGGED;
     acknowledged_by := acknowledged_by r; acknowledged_at := acknowledged_at r;
     resolved_by := resolved_by r; resolved_at := resolved_at r;
     resolution_notes := resolution_notes r; root_cause := root_cause r;
     downtime_minutes := downtime_minutes r; metadata := metadata r |}.

Definition cleanup_old_data (now : Z) (db : t) : t * (nat * nat) :=
  let alert_cutoff := now - days Config.ALERT_RETENTION_DAYS in
  let '(rows, archived_count) :=
    update_where
      (fun r => match state r, resolved_at r with
                | RESOLVED, Some at_ => at_ <? alert_cutoff
                | _, _ => false
                end)
      set_logged (alerts db) in
  let log_cutoff := now - days Config.LOG_RETENTION_DAYS in
  let old := fun l => log_resolved_at l <? log_cutoff in
  ({| alerts := rows;
      maintenance_logs := List.filter (fun l => negb (old l)) (maintenance_logs db) |},
   (archived_count, length (List.filter old (maintenance_logs db)))).

(** Number of rows of one [(machine_id, alert_type)] in an open state. *)
Definition open_count (machine alert_ty : string) (db : t) : nat :=
  length (List.filter
            (fun r => String.eqb (machine_id r) machine &&
                      String.eqb (alert_type r) alert_ty &&
                      is_open (state r))
            (alerts db)).

(** The dictionaries of [get_statistics]; [sensor_history_count] is the
    size of the table [sensor_history], which the caller reads. *)
Record statistics := {
  alerts_by_state : gmap string nat;
  total_logs : nat;
  sensor_history_count : nat
}.

Definition count_state (st : alert_state) (db : t) : nat :=
  length (List.filter (fun r => String.eqb (state_name (state r)) (state_name st))
                      (alerts db)).

(** [SELECT state, COUNT( * ) FROM alerts GROUP BY state]: one entry for each
    state that some row is in. *)
Definition get_statistics (sensor_history_rows : nat) (db : t) : statistics :=
  {| alerts_by_state :=
       list_to_map
         (List.filter (fun kv => (0 <? snd kv)%nat)
            (List.map (fun st => (state_name st, count_state st db))
               [ACTIVE; ACKNOWLEDGED; IN_PROGRESS; RESOLVED; LOGGED]));
     total_logs := length (maintenance_logs db);
     sensor_history_count := sensor_history_rows |}.

End Database.

(** ** alert_manager.py *)

Module PendingAlert.

Record t := {
  alert_type : string;
  severity : string;
  first_triggered : Z;
  last_triggered : Z;
  trigger_count : nat
}.

Definition __init__ (alert_type severity : string) (first_triggered : Z) : t :=
  {| alert_type := alert_type; severity := severity;
     first_triggered := first_triggered; last_triggered := first_triggered;
     trigger_count := 1 |}.

Definition update (now : Z) (p : t) : t :=
  {| alert_type := alert_type p; severity := severity p;
     first_triggered := first_triggered p; last_triggered := now;
     trigger_count := trigger_count p + 1 |}.

Definition is_persistent (p : t) (required_seconds : Z) : bool :=
  let duration := Num.total_seconds (last_triggered p - first_triggered p) in
  Num.Qleb (inject_Z required_seconds) duration.

End PendingAlert.

Module AlertManager.

(** The attributes of the manager, together with what its methods read from
    outside: the clock behind [datetime.now()] and the successive values of
    [uuid.uuid4().hex[:8].upper()]. *)
Record t := {
  db : Database.t;
  window_manager : gmap (string * string) EvaluationWindow.t;
  pending_alerts : gmap (string * string) PendingAlert.t;
  recent_alerts : gmap string (list Z);
  clock : Z;
  uuid4_hex8 : nat -> string;
  uuid4_calls : nat
}.

Definition __init__ (clock : Z) (uuid4_hex8 : nat -> string) : t :=
  {| db := Database.empty; window_manager := ∅; pending_alerts := ∅;
     recent_alerts := ∅; clock := clock; uuid4_hex8 := uuid4_hex8;
     uuid4_calls := 0 |}.

Definition set_db (d : Database.t) (s : t) : t :=
  {| db := d; window_manager := window_manager s;
     pending_alerts := pending_alerts s; recent_alerts := recent_alerts s;
     clock := clock s; uuid4_hex8 := uuid4_hex8 s; uuid4_calls := uuid4_calls s |}.

Definition set_window_manager (w : gmap (string * string) EvaluationWindow.t)
    (s : t) : t :=
  {| db := db s; window_manager := w;
     pending_alerts := pending_alerts s; recent_alerts := recent_alerts s;
     clock := clock s; uuid4_hex8 := uuid4_hex8 s; uuid4_calls := uuid4_calls s |}.

Definition set_pending_alerts (p : gmap (string * string) PendingAlert.t)
    (s : t) : t :=
  {| db := db s; window_manager := window_manager s;
     pending_alerts := p; recent_alerts := recent_alerts s;
     clock := clock s; uuid4_hex8 := uuid4_hex8 s; uuid4_calls := uuid4_calls s |}.

Definition set_recent_alerts (r : gmap string (list Z)) (s : t) : t :=
  {| db := db s; window_manager := window_manager s;
     pending_alerts := pending_alerts s; recent_alerts := r;
     clock := clock s; uuid4_hex8 := uuid4_hex8 s; uuid4_calls := uuid4_calls s |}.

Definition set_clock (c : Z) (s : t) : t :=
  {| db := db s; window_manager := window_manager s;
     pending_alerts := pending_alerts s; recent_alerts := recent_alerts s;
     clock := c; uuid4_hex8 := uuid4_hex8 s; uuid4_calls := uuid4_calls s |}.

Definition set_uuid4_calls (n : nat) (s : t) : t :=
  {| db := db s; window_manager := window_manager s;
     pending_alerts := pending_alerts s; recent_alerts := recent_alerts s;
     clock := clock s; uuid4_hex8 := uuid4_hex8 s; uuid4_calls := n |}.

(** *** The monad of the methods: state, and errors that keep the state *)

Inductive res (A : Type) :=
| Val (a : A) (s : t)
| Exc (e : Database.exn) (s : t).
Arguments Val {A} a s.
Arguments Exc {A} e s.

Definition M (A : Type) : Type := t -> res A.

Definition ret {A} (a : A) : M A := fun s => Val a s.

Definition bind {A B} (m : M A) (k : A -> M B) : M B :=
  fun s => match m s with
           | Val a s' => k a s'
           | Exc e s' => Exc e s'
           end.

Notation "x <- m ;; k" := (bind m (fun x => k))
  (at level 62, m at level 61, k at level 200, right associativity, only parsing).
Notation "m ;;; k" := (bind m (fun _ => k))
  (at level 62, k at level 200, right associativity, only parsing).

Definition gets {A} (f : t -> A) : M A := fun s => Val (f s) s.
Definition modify (f : t -> t) : M unit := fun s => Val tt (f s).

Definition state_of {A} (r : res A) : t :=
  match r with Val _ s => s | Exc _ s => s end.

Definition value_of {A} (r : res A) : option A :=
  match r with Val a _ => Some a | Exc _ _ => None end.

(** [datetime.now()] *)
Definition now : M Z := gets clock.

(** [uuid.uuid4().hex[:8].upper()] *)
Definition uuid4 : M string :=
  fun s => Val (uuid4_hex8 s (uuid4_calls s)) (set_uuid4_calls (S (uuid4_calls s)) s).

(** A read-only query, a write and a fallible transaction on [self.db]. *)
Definition db_query {A} (q : Database.t -> A) : M A := gets (fun s => q (db s)).

Definition db_write {A} (w : Database.t -> Database.t * A) : M A :=
  fun s => let '(d, a) := w (db s) in Val a (set_db d s).

Definition db_transaction {A} (w : Database.t -> Database.t * Database.outcome A)
    : M A :=
  fun s => match w (db s) with
           | (d, Database.Return a) => Val a (set_db d s)
           | (d, Database.Raise e) => Exc e (set_db d s)
           end.

(** *** Methods *)

Definition _create_alert_if_new (machine_id alert_type severity : string)
    (message : Database.message_t) (metadata : Database.metadata_t)
    : M (option string) :=
  dup <- db_query (Database.check_duplicate_alert machine_id alert_type) ;;
  if dup then ret None
  else
    hex <- uuid4 ;;
    let alert_id := ("ALERT-" ++ hex)%string in
    created_at <- now ;;
    db_transaction
      (Database.create_alert
         {| Database.d_id := alert_id; Database.d_machine_id := machine_id;
            Database.d_alert_type := alert_type; Database.d_severity := severity;
            Database.d_message := message; Database.d_created_at := created_at;
            Database.d_metadata := metadata |}) ;;;
    t_now <- now ;;
    modify (fun s =>
      set_recent_alerts
        (<[machine_id := default [] (recent_alerts s !! machine_id) ++ [t_now]]>
           (recent_alerts s)) s) ;;;
    ret (Some alert_id).

Definition _process_alert_with_persistence (machine_id alert_type severity : string)
    (message : Database.message_t) (metadata : Database.metadata_t)
    : M (option string) :=
  let key := (machine_id, alert_type) in
  let required_seconds := default 30 (Config.PERSISTENCE_WINDOWS !! alert_type) in
  found <- gets (fun s => pending_alerts s !! key) ;;
  match found with
  | Some pending0 =>
      t_now <- now ;;
      let pending := PendingAlert.update t_now pending0 in
      modify (fun s => set_pending_alerts (<[key := pending]> (pending_alerts s)) s) ;;;
      if PendingAlert.is_persistent pending required_seconds then
        modify (fun s => set_pending_alerts (delete key (pending_alerts s)) s) ;;;
        _create_alert_if_new machine_id alert_type severity message metadata
      else ret None
  | None =>
      t_now <- now ;;
      modify (fun s =>
        set_pending_alerts
          (<[key := PendingAlert.__init__ alert_type severity t_now]>
             (pending_alerts s)) s) ;;;
      ret None
  end.

Definition _clear_pending_alert (machine_id alert_type : string) : M unit :=
  let key := (machine_id, alert_type) in
  modify (fun s => set_pending_alerts (delete key (pending_alerts s)) s).

(** [sensor_data.get(key, dflt)] and [thresholds.get(key, dflt)] *)
Definition get (d : gmap string Q) (key : string) (dflt : Q) : Q :=
  default dflt (d !! key).

Definition _check_multi_sensor_confirmation (sensor_data : gmap string Q)
    (severity : string) : bool :=
  if negb (String.eqb severity "critical") ||
     negb Config.MULTI_SENSOR_REQUIRED_FOR_CRITICAL then true
  else
    let thresholds := Config.SENSOR_DEGRADATION_THRESHOLDS in
    let b2n := fun b : bool => if b then 1%nat else 0%nat in
    let degraded_count :=
      (b2n (Num.Qltb (get thresholds "vibration_x" (15 # 10))
                     (get sensor_data "vibration_x" 0)) +
       b2n (Num.Qltb (get thresholds "vibration_y" (15 # 10))
                     (get sensor_data "vibration_y" 0)) +
       b2n (Num.Qltb (get thresholds "temperature" 85)
                     (get sensor_data "temperature" 0)) +
       b2n (Num.Qltb (get sensor_data "pressure" 200)
                     (get thresholds "pressure_low" 90)) +
       b2n (Num.Qltb (get sensor_data "rpm" 1500)
                     (get thresholds "rpm_low" 1350)))%nat in
    (Config.MIN_DEGRADED_SENSORS_FOR_CRITICAL <=? degraded_count)%nat.

Definition _check_rate_limit (machine_id : string) : M bool :=
  current_time <- now ;;
  let one_minute_ago := current_time - Num.seconds 60 in
  recent0 <- gets (fun s => default [] (recent_alerts s !! machine_id)) ;;
  let recent := List.filter (fun t => one_minute_ago <? t) recent0 in
  modify (fun s => set_recent_alerts (<[machine_id := recent]> (recent_alerts s)) s) ;;;
  ret (length recent <? Config.MAX_ALERTS_PER_MACHINE_PER_MINUTE)%nat.

Definition _cleanup_old_pending_alerts : M unit :=
  t_now <- now ;;
  let stale_threshold := t_now - Num.seconds 120 in
  modify (fun s =>
    set_pending_alerts
      (filter (fun kv => ¬ (PendingAlert.last_triggered (snd kv) < stale_threshold))
              (pending_alerts s)) s).

Definition _cleanup_old_rate_limit_data : M unit :=
  t_now <- now ;;
  let one_minute_ago := t_now - Num.seconds 60 in
  modify (fun s =>
    set_recent_alerts
      (omap (fun l => match List.filter (fun t => one_minute_ago <? t) l with
                      | [] => None
                      | l' => Some l'
                      end)
            (recent_alerts s)) s).

Definition wm_add_sample (machine_id alert_type : string) (risk health rul : Q)
    (sensors : gmap string Q) : M unit :=
  t_now <- now ;;
  modify (fun s =>
    set_window_manager
      (EvaluationWindowManager.add_sample t_now machine_id alert_type
         risk health rul sensors (window_manager s)) s).

Definition wm_evaluate (machine_id alert_type : string)
    : M EvaluationWindow.WindowEvaluation :=
  t_now <- now ;;
  fun s =>
    let '(w, ev) :=
      EvaluationWindowManager.evaluate t_now machine_id alert_type (window_manager s) in
    Val ev (set_window_manager w s).

(** [for alert_type in alert_types: self.window_manager.add_sample(...)] *)
Fixpoint feed_windows (alert_types : list string) (machine_id : string)
    (risk health rul : Q) (sensors : gmap string Q) : M unit :=
  match alert_types with
  | [] => ret tt
  | alert_type :: rest =>
      wm_add_sample machine_id alert_type risk health rul sensors ;;;
      feed_windows rest machine_id risk health rul sensors
  end.

(** [if alert_id: created_alerts.append(alert_id)] *)
Definition append_if (created : list string) (alert_id : option string) : list string :=
  match alert_id with
  | Some i => created ++ [i]
  | None => created
  end.

(** The body of [check_and_create_alerts] below the comments
    [--- CRITICAL RUL ---] and [--- WARNING RUL ---]. *)
Definition rul_section (machine_id : string) (sensor_data : gmap string Q)
    (rul_hours : Q) (created_alerts : list string) : M (list string) :=
  if Num.Qltb rul_hours Config.RUL_CRITICAL_TRIGGER then
    window_eval <- wm_evaluate machine_id "critical_rul" ;;
    if EvaluationWindow.may_proceed window_eval then
      if _check_multi_sensor_confirmation sensor_data "critical" then
        alert_id <-
          _process_alert_with_persistence machine_id "critical_rul" "critical"
            (Database.Msg_critical_rul rul_hours)
            [ ("rul_hours", Database.MNum rul_hours);
              ("sensors", Database.MSensors sensor_data);
              ("window_eval", Database.MDict
                 [ ("mean_risk", EvaluationWindow.mean_risk window_eval);
                   ("trend", EvaluationWindow.risk_trend window_eval);
                   ("pct_above",
                    EvaluationWindow.pct_above_threshold window_eval) ]) ]%string ;;
        ret (append_if created_alerts alert_id)
      else ret created_alerts
    else ret created_alerts
  else if Num.Qltb rul_hours Config.RUL_WARNING_TRIGGER then
    window_eval <- wm_evaluate machine_id "warning_rul" ;;
    if EvaluationWindow.may_proceed window_eval then
      alert_id <-
        _process_alert_with_persistence machine_id "warning_rul" "warning"
          (Database.Msg_warning_rul rul_hours)
          [ ("rul_hours", Database.MNum rul_hours);
            ("window_eval", Database.MDict
               [ ("mean_risk", EvaluationWindow.mean_risk window_eval);
                 ("trend", EvaluationWindow.risk_trend window_eval) ]) ]%string ;;
      ret (append_if created_alerts alert_id)
    else ret created_alerts
  else
    (if Num.Qltb Config.RUL_WARNING_CLEAR rul_hours
     then _clear_pending_alert machine_id "warning_rul" else ret tt) ;;;
    (if Num.Qltb Config.RUL_CRITICAL_CLEAR rul_hours
     then _clear_pending_alert machine_id "critical_rul" else ret tt) ;;;
    ret created_alerts.

(** ... below [--- CRITICAL HEALTH ---] and [--- WARNING HEALTH ---]. *)
Definition health_section (machine_id : string) (sensor_data : gmap string Q)
    (health_score : Q) (created_alerts : list string) : M (list string) :=
  if Num.Qltb health_score Config.HEALTH_CRITICAL_TRIGGER then
    window_eval <- wm_evaluate machine_id "low_health_critical" ;;
    if EvaluationWindow.may_proceed window_eval then
      if _check_multi_sensor_confirmation sensor_data "critical" then
        alert_id <-
          _process_alert_with_persistence machine_id "low_health_critical"
            "critical"
            (Database.Msg_critical_health health_score)
            [ ("health_score", Database.MNum health_score);
              ("sensors", Database.MSensors sensor_data);
              ("window_eval", Database.MDict
                 [ ("mean_risk", EvaluationWindow.mean_risk window_eval);
                   ("trend", EvaluationWindow.risk_trend window_eval) ]) ]%string ;;
        ret (append_if created_alerts alert_id)
      else ret created_alerts
    else ret created_alerts
  else if Num.Qltb health_score Config.HEALTH_WARNING_TRIGGER then
    window_eval <- wm_evaluate machine_id "low_health_warning" ;;
    if EvaluationWindow.may_proceed window_eval then
      alert_id <-
        _process_alert_with_persistence machine_id "low_health_warning" "warning"
          (Database.Msg_warning_health health_score)
          [ ("health_score", Database.MNum health_score) ]%string ;;
      ret (append_if created_alerts alert_id)
    else ret created_alerts
  else
    (if Num.Qltb Config.HEALTH_WARNING_CLEAR health_score
     then _clear_pending_alert machine_id "low_health_warning" else ret tt) ;;;
    (if Num.Qltb Config.HEALTH_CRITICAL_CLEAR health_score
     then _clear_pending_alert machine_id "low_health_critical" else ret tt) ;;;
    ret created_alerts.

(** ... below [--- ANOMALY ---]. *)
Definition anomaly_section (machine_id : string) (sensor_data : gmap string Q)
    (is_anomaly : bool) (anomaly_score : Q) (created_alerts : list string)
    : M (list string) :=
  if is_anomaly then
    window_eval <- wm_evaluate machine_id "anomaly_detected" ;;
    let severity :=
      if Num.Qltb Config.ANOMALY_CRITICAL_SCORE anomaly_score
      then "critical"%string else "warning"%string in
    if EvaluationWindow.may_proceed window_eval then
      alert_id <-
        _process_alert_with_persistence machine_id "anomaly_detected" severity
          (Database.Msg_anomaly anomaly_score)
          [ ("anomaly_score", Database.MNum anomaly_score);
            ("sensors", Database.MSensors sensor_data) ]%string ;;
      ret (append_if created_alerts alert_id)
    else ret created_alerts
  else
    _clear_pending_alert machine_id "anomaly_detected" ;;;
    ret created_alerts.

Definition check_and_create_alerts (machine_id : string) (sensor_data : gmap string Q)
    (rul_hours health_score : Q) (is_anomaly : bool) (anomaly_score : Q)
    : M (list string) :=
  let created_alerts : list string := [] in
  _cleanup_old_pending_alerts ;;;
  _cleanup_old_rate_limit_data ;;;
  allowed <- _check_rate_limit machine_id ;;
  if negb allowed then ret []
  else
    let risk_score := calculate_risk_score rul_hours health_score anomaly_score in
    let alert_types :=
      [ "warning_rul"; "critical_rul"; "low_health_warning";
        "low_health_critical"; "anomaly_detected" ]%string in
    feed_windows alert_types machine_id risk_score health_score rul_hours sensor_data ;;;
    created_alerts <- rul_section machine_id sensor_data rul_hours created_alerts ;;
    created_alerts <- health_section machine_id sensor_data health_score created_alerts ;;
    anomaly_section machine_id sensor_data is_anomaly anomaly_score created_alerts.

(** The dictionaries the lifecycle methods return. *)
Inductive response :=
| Acknowledged (alert_id operator_id : string) (acknowledged_at : Z)
| Resolved (alert_id operator_id : string) (resolved_at : Z) (log_id : string)
| Failure (error : string).

Definition success (r : response) : bool :=
  match r with
  | Acknowledged _ _ _ | Resolved _ _ _ _ => true
  | Failure _ => false
  end.

(** [not s or len(s) < n] *)
Definition too_short (s : string) (n : nat) : bool :=
  String.eqb s "" || (Num.len s <? n)%nat.

Definition acknowledge_alert (alert_id operator_id : string) : M response :=
  if too_short operator_id 3 then ret (Failure "Invalid operator ID")
  else
    alert <- db_query (Database.get_alert alert_id) ;;
    match alert with
    | None => ret (Failure "Alert not found")
    | Some a =>
        match Database.state a with
        | Database.ACTIVE =>
            t_now <- now ;;
            ok <- db_write (Database.acknowledge_alert t_now alert_id operator_id) ;;
            if ok : bool then
              t_ack <- now ;;
              ret (Acknowledged alert_id operator_id t_ack)
            else ret (Failure "Failed to acknowledge alert")
        | st =>
            ret (Failure ("Alert is " ++ Database.state_name st ++
                          ", can only acknowledge ACTIVE alerts"))
        end
    end.

Definition resolve_alert (alert_id operator_id root_cause resolution_notes : string)
    (downtime_minutes : Z) : M response :=
  if too_short operator_id 3 then ret (Failure "Invalid operator ID")
  else if too_short root_cause Config.MIN_ROOT_CAUSE_LENGTH then
    ret (Failure ("Root cause must be at least " ++
                  Num.str Config.MIN_ROOT_CAUSE_LENGTH ++
                  " characters"))
  else if too_short resolution_notes Config.MIN_RESOLUTION_NOTES_LENGTH then
    ret (Failure ("Resolution notes must be at least " ++
                  Num.str Config.MIN_RESOLUTION_NOTES_LENGTH ++
                  " characters"))
  else if downtime_minutes <? 0 then ret (Failure "Downtime cannot be negative")
  else
    alert <- db_query (Database.get_alert alert_id) ;;
    match alert with
    | None => ret (Failure "Alert not found")
    | Some a =>
        if negb (Database.is_resolvable (Database.state a)) then
          ret (Failure ("Alert is " ++ Database.state_name (Database.state a) ++
                        ", can only resolve ACKNOWLEDGED or IN_PROGRESS alerts"))
        else
          t_now <- now ;;
          ok <- db_transaction
                  (Database.resolve_alert t_now alert_id operator_id root_cause
                     resolution_notes downtime_minutes) ;;
          if ok : bool then
            t_res <- now ;;
            ret (Resolved alert_id operator_id t_res ("LOG-" ++ alert_id))
          else ret (Failure "Failed to resolve alert")
    end.

(** The dictionary [get_alert_statistics] returns. *)
Record alert_statistics := {
  active_alerts : nat;
  acknowledged_alerts : nat;
  resolved_alerts : nat;
  st_total_logs : nat;
  st_alerts_by_state : gmap string nat;
  requires_attention : nat
}.

Definition get_alert_statistics (sensor_history_rows : nat) : M alert_statistics :=
  stats <- db_query (Database.get_statistics sensor_history_rows) ;;
  let active_count := default 0%nat (Database.alerts_by_state stats !! "ACTIVE") in
  let acknowledged_count :=
    default 0%nat (Database.alerts_by_state stats !! "ACKNOWLEDGED") in
  let resolved_count := default 0%nat (Database.alerts_by_state stats !! "RESOLVED") in
  ret {| active_alerts := active_count;
         acknowledged_alerts := acknowledged_count;
         resolved_alerts := resolved_count;
         st_total_logs := Database.total_logs stats;
         st_alerts_by_state := Database.alerts_by_state stats;
         requires_attention := (active_count + acknowledged_count)%nat |}.

End AlertManager.

(** ** Driving the manager: a machine's samples submitted at given instants *)

Module Scenario.

Record sample := {
  at_second : Z;
  sensors : gmap string Q;
  rul_hours : Q;
  health_score : Q;
  is_anomaly : bool;
  anomaly_score : Q
}.

(** One call of [check_and_create_alerts] with the clock at [at_second]. *)
Definition submit (machine_id : string) (x : sample) (s : AlertManager.t)
    : AlertManager.res (list string) :=
  AlertManager.check_and_create_alerts machine_id (sensors x) (rul_hours x)
    (health_score x) (is_anomaly x) (anomaly_score x)
    (AlertManager.set_clock (Num.seconds (at_second x)) s).

(** The calls in order; the ids each one returned ([None] if it raised). *)
Fixpoint submit_all (machine_id : string) (xs : list sample) (s : AlertManager.t)
    : AlertManager.t * list (option (list string)) :=
  match xs with
  | [] => (s, [])
  | x :: xs' =>
      let r := submit machine_id x s in
      let '(s', rs) := submit_all machine_id xs' (AlertManager.state_of r) in
      (s', AlertManager.value_of r :: rs)
  end.

Definition uuid_stream (n : nat) : string :=
  ("0000" ++ MetricsTracker.fmt_04d n)%string.

Definition initial : AlertManager.t := AlertManager.__init__ 0 uuid_stream.

Definition healthy_sensors : gmap string Q :=
  list_to_map [ ("vibration_x", 8 # 10); ("vibration_y", 7 # 10);
                ("temperature", 75 # 1); ("pressure", 98 # 1);
                ("rpm", 1480 # 1) ]%string.

Definition degraded_sensors : gmap string Q :=
  list_to_map [ ("vibration_x", 26 # 10); ("vibration_y", 255 # 100);
                ("temperature", 92 # 1); ("pressure", 95 # 1);
                ("rpm", 1420 # 1) ]%string.

(** Seven samples in the warning bands, 16 s apart, then three in the
    critical bands; the anomaly flag is raised from second 96 on. *)
Definition burst_trace : list sample :=
  [ Build_sample 0   healthy_sensors 28 36 false 0;
    Build_sample 16  healthy_sensors (275 # 10) (355 # 10) false 0;
    Build_sample 32  healthy_sensors 27 35 false 0;
    Build_sample 48  healthy_sensors (265 # 10) (345 # 10) false 0;
    Build_sample 64  healthy_sensors 26 34 false 0;
    Build_sample 80  healthy_sensors (255 # 10) (335 # 10) false 0;
    Build_sample 96  healthy_sensors 25 33 true 3;
    Build_sample 112 degraded_sensors 20 25 true 3;
    Build_sample 128 degraded_sensors 19 24 true 3;
    Build_sample 144 degraded_sensors 18 23 true 3 ].

(** Three samples in the critical bands, then one whose RUL and health are
    above the critical clear thresholds but inside the warning bands. *)
Definition hysteresis_trace : list sample :=
  [ Build_sample 0  degraded_sensors 20 25 false 0;
    Build_sample 16 degraded_sensors 19 24 false 0;
    Build_sample 32 degraded_sensors 18 23 false 0 ].

Definition recovering_sample : sample :=
  Build_sample 48 degraded_sensors 30 40 false 0.

(** A sample above every clear threshold, for second 96. *)
Definition healthy_sample : sample :=
  Build_sample 96 healthy_sensors 60 60 false 0.

(** Rows of [machine_id] created in the closed interval [[from, to]]. *)
Definition created_between (machine_id : string) (from to : Z) (s : AlertManager.t)
    : list Database.alert_row :=
  List.filter
    (fun r => String.eqb (Database.machine_id r) machine_id &&
              (from <=? Database.created_at r) && (Database.created_at r <=? to))
    (Database.alerts (AlertManager.db s)).

End Scenario.

(** ** Quantities named by the specification *)

Module Spec.

(** The weighted sum of the three risk components, before any rounding. *)
Definition weighted_risk (rul_hours health_score anomaly_score : Q) : Q :=
  ((5 # 10) * (1 - rul_hours / Config.MAX_RUL_HOURS) +
   (35 # 100) * (1 - health_score / 100) +
   (15 # 100) * Qmin 1 (anomaly_score / 10))%Q.

(** Arithmetic mean of the risks of a list of samples. *)
Definition mean_risk (l : list EvaluationWindow.WindowSample) : Q :=
  (Num.Qsum (List.map EvaluationWindow.risk_score l) /
   inject_Z (Z.of_nat (length l)))%Q.


(** [PERSISTENCE_SECONDS[alert_type]], 30 for a type outside the table. *)
Definition persistence_seconds (alert_type : string) : Z :=
  default 30 (Config.PERSISTENCE_WINDOWS !! alert_type).

End Spec.

(** ** Concrete evaluation windows *)

Module WindowExamples.

Definition warning_window : EvaluationWindow.t :=
  EvaluationWindow.__init__ "M-A" "warning_rul"
    (EvaluationWindowManager._get_window_config "warning_rul").

Definition one_sample_window : EvaluationWindow.t :=
  EvaluationWindow.add_sample (Num.seconds 0) (55 # 100) 36 28 ∅ warning_window.

Definition three_samples_window : EvaluationWindow.t :=
  EvaluationWindow.add_sample (Num.seconds 32) (65 # 100) 35 27 ∅
    (EvaluationWindow.add_sample (Num.seconds 16) (60 # 100) (355 # 10) (275 # 10) ∅
       one_sample_window).

End WindowExamples.

(** ** Vocabulary for the matching rule of [record_failure] *)

Module Matching.

Import MetricsTracker.

(** [d.get(k)] on an insertion-ordered dictionary. *)
Definition dict_get {V} (k : string) (d : list (string * V)) : option V :=
  option_map snd (List.find (fun kv => String.eqb (fst kv) k) d).

(** A prediction the loop of [record_failure] considers: same machine, still
    [PENDING], made strictly before [now] and at most [window] hours ago. *)
Definition eligible (now : Z) (machine : string) (window : Q)
    (p : PredictionRecord) : bool :=
  String.eqb (machine_id p) machine &&
  outcome_eqb (outcome p) PENDING &&
  (Num.Qltb 0 (time_diff now p) && Num.Qleb (time_diff now p) window).

(** What the accumulator of the loop knows after the items [seen]. *)
Definition best_of (now : Z) (machine : string) (window : Q)
    (seen : list (string * PredictionRecord))
    (acc : option (string * PredictionRecord * Q)) : Prop :=
  match acc with
  | None => forall q, In q seen -> eligible now machine window (snd q) = false
  | Some (pid, p, lead) =>
      In (pid, p) seen /\ eligible now machine window p = true /\
      lead = time_diff now p /\
      forall q, In q seen -> eligible now machine window (snd q) = true ->
                (time_diff now p <= time_diff now (snd q))%Q
  end.

(** Two predictions for machine M-1, made at hour 0 and at hour 10. *)
Definition two_predictions : t :=
  fst (record_prediction (hours 10) "M-1" 24 40 2 (8 # 10)
         (fst (record_prediction (hours 0) "M-1" 24 45 1 (8 # 10) __init__))).

(** The same tracker after a failure of M-1 at hour 20. *)
Definition after_failure : t :=
  fst (record_failure (hours 20) "M-1" "failure" two_predictions).

End Matching.

(** ** Vocabulary for the stabilizer's history *)

Module History.

Import StabilizedRULPredictor.

Definition history_of (self : t) (machine_id : string) : list (Z * Q * Q) :=
  default [] (prediction_history self !! machine_id).

(** The RUL of the latest entry, what [history[-1]] gives the next call. *)
Definition last_rul (h : list (Z * Q * Q)) : Q :=
  snd (fst (List.last h (0, 0%Q, 0%Q))).

(** What every state the stabilizer can be in satisfies, machine by machine:
    the latest stored RUL is not negative, and a cached prediction is the
    latest stored RUL rounded to one decimal. *)
Definition consistent (self : t) : Prop :=
  forall m,
    (history_of self m <> [] -> (0 <= last_rul (history_of self m))%Q) /\
    (forall c h, stable_predictions self !! m = Some (c, h) ->
       history_of self m <> [] /\
       (c == Num.round (last_rul (history_of self m)) 1)%Q).

(** The first element of a list, if any, is at most [u]. *)
Definition head_at_most (u : Q) (l : list Q) : Prop :=
  match l with
  | [] => True
  | a :: _ => (a <= u)%Q
  end.

End History.

(** ** Concrete calls of the stabilizer *)

Module StabilizerExamples.

Import StabilizedRULPredictor.

(** Four smoothed calls for M-1, the raw prediction falling and then
    recovering, the last one within five minutes of the one before; in
    between, M-2 is predicted and reset. *)
Definition recovering_calls : list call :=
  [ Predict (Num.seconds 0) Scenario.healthy_sensors "M-1" false;
    Predict (Num.seconds 400) Scenario.degraded_sensors "M-1" false;
    Predict (Num.seconds 500) Scenario.degraded_sensors "M-2" true;
    Reset "M-2";
    Predict (Num.seconds 800) Scenario.healthy_sensors "M-1" false;
    Predict (Num.seconds 900) Scenario.healthy_sensors "M-1" false ].

End StabilizerExamples.

(** ** States of the manager that the API can produce *)

Module Reach.

Import AlertManager.

(** At most one row per [(machine_id, alert_type)] in an open state. *)
Definition unique_open (d : Database.t) : Prop :=
  forall machine alert_ty, (Database.open_count machine alert_ty d <= 1)%nat.

(** The store holds an open row for [(machine, alert_ty)]. *)
Definition holds_open (machine alert_ty : string) (d : Database.t) : Prop :=
  exists r, In r (Database.alerts d) /\
            Database.machine_id r = machine /\
            Database.alert_type r = alert_ty /\
            Database.is_open (Database.state r) = true.

(** The manager starts on an empty store; time passes; samples are
    submitted; operators acknowledge and resolve; the retention sweep runs;
    and the log endpoints rewrite the [maintenance_logs] table, which is
    covered here by letting that table become any table. *)
Inductive reachable : t -> Prop :=
| reach_init c u : reachable (__init__ c u)
| reach_tick c s : reachable s -> reachable (set_clock c s)
| reach_check machine_id sensor_data rul health is_anomaly score s :
    reachable s ->
    reachable (state_of (check_and_create_alerts machine_id sensor_data rul
                           health is_anomaly score s))
| reach_acknowledge alert_id operator_id s :
    reachable s -> reachable (state_of (acknowledge_alert alert_id operator_id s))
| reach_resolve alert_id operator_id cause notes downtime s :
    reachable s ->
    reachable (state_of (resolve_alert alert_id operator_id cause notes downtime s))
| reach_cleanup s :
    reachable s ->
    reachable (state_of (db_write (Database.cleanup_old_data (clock s)) s))
| reach_logs logs s :
    reachable s ->
    reachable (set_db {| Database.alerts := Database.alerts (db s);
                         Database.maintenance_logs := logs |} s).

(** A monadic computation keeps a property of the store. *)
Definition keeps (P : Database.t -> Prop) {A} (m : M A) : Prop :=
  forall s, P (db s) -> P (db (state_of (m s))).

(** A monadic computation leaves the store as it is. *)
Definition store_untouched {A} (m : M A) : Prop :=
  forall s, db (state_of (m s)) = db s.

End Reach.

(** ** Concrete states of the manager *)

Module ManagerExamples.

Import AlertManager.

(** After the first six samples of the burst trace: warnings pending since
    second 32, nothing emitted yet. *)
Definition before_warning : t :=
  fst (Scenario.submit_all "M-C" (List.firstn 6 Scenario.burst_trace) Scenario.initial).

(** After the seventh: both warning alerts exist and are [ACTIVE]. *)
Definition after_warning : t :=
  fst (Scenario.submit_all "M-C" (List.firstn 7 Scenario.burst_trace) Scenario.initial).

Definition after_burst : t :=
  fst (Scenario.submit_all "M-C" Scenario.burst_trace Scenario.initial).

(** The warning-RUL alert acknowledged by an operator at second 100. *)
Definition acknowledged : t :=
  state_of (acknowledge_alert "ALERT-00000000" "OP-001"
              (set_clock (Num.seconds 100) after_warning)).



(** The pending critical alerts of the hysteresis trace, before and after
    the sample that is above both critical clear thresholds. *)
Definition critical_pending : t :=
  fst (Scenario.submit_all "M-D" Scenario.hysteresis_trace Scenario.initial).

Definition after_recovering : t :=
  state_of (Scenario.submit "M-D" Scenario.recovering_sample critical_pending).

End ManagerExamples.

(** ** A state in which the timer is met while the alert already exists *)

Module DuplicateExample.

Import AlertManager.

(** The first seven samples of the burst trace, then four more in the
    warning bands: the warning alerts exist from second 96, and new pending
    entries run from second 112. *)
Definition trace : list Scenario.sample :=
  List.firstn 7 Scenario.burst_trace ++
  [ Scenario.Build_sample 112 Scenario.healthy_sensors (248 # 10) (328 # 10) false 0;
    Scenario.Build_sample 128 Scenario.healthy_sensors (246 # 10) (326 # 10) false 0;
    Scenario.Build_sample 144 Scenario.healthy_sensors (244 # 10) (324 # 10) false 0;
    Scenario.Build_sample 160 Scenario.healthy_sensors (242 # 10) (322 # 10) false 0 ].

Definition before_duplicate : t :=
  set_clock (Num.seconds 176)
    (fst (Scenario.submit_all "M-C" trace Scenario.initial)).

End DuplicateExample.

(** ** Vocabulary for what a call does to one pending entry *)

Module Hysteresis.

Import AlertManager.

(** The rate check of [check_and_create_alerts] lets the call through:
    fewer than the maximum of emissions for the machine in the last 60 s. *)
Definition admitted (machine_id : string) (s : t) : bool :=
  let recent :=
    List.filter (fun t => clock s - Num.seconds 60 <? t)
                (default [] (recent_alerts s !! machine_id)) in
  (length recent <? Config.MAX_ALERTS_PER_MACHINE_PER_MINUTE)%nat.

(** A computation that, when it returns, has left the entry of [key] as it
    found it; and one that has left no entry for [key]. *)
Definition frames (key : string * string) {A} (m : M A) : Prop :=
  forall s a s', m s = Val a s' -> pending_alerts s' !! key = pending_alerts s !! key.

Definition clears (key : string * string) {A} (m : M A) : Prop :=
  forall s a s', m s = Val a s' -> pending_alerts s' !! key = None.

End Hysteresis.

(** ** The life of an alert row *)

Module Lifecycle.

Import AlertManager.

(** The place of a state in the order ACTIVE, ACKNOWLEDGED, IN_PROGRESS,
    RESOLVED, LOGGED. *)
Definition rank (s : Database.alert_state) : nat :=
  match s with
  | Database.ACTIVE => 0
  | Database.ACKNOWLEDGED => 1
  | Database.IN_PROGRESS => 2
  | Database.RESOLVED => 3
  | Database.LOGGED => 4
  end%nat.

(** [r'] is the row [r] later in its life: the columns written by
    [create_alert] are the same, and the state has not gone back. *)
Definition advances (r r' : Database.alert_row) : Prop :=
  Database.id r' = Database.id r /\
  Database.machine_id r' = Database.machine_id r /\
  Database.alert_type r' = Database.alert_type r /\
  Database.severity r' = Database.severity r /\
  Database.message r' = Database.message r /\
  Database.created_at r' = Database.created_at r /\
  Database.metadata r' = Database.metadata r /\
  (rank (Database.state r) <= rank (Database.state r'))%nat.

(** The table [alerts] of [d'] is that of [d], row by row and in the same
    order, each row later in its life, followed by new rows. *)
Definition extends (d d' : Database.t) : Prop :=
  exists rows new,
    Database.alerts d' = rows ++ new /\
    Forall2 advances (Database.alerts d) rows.

(** The calls that reach the manager and its store: the clock moving, a
    sample for [check_and_create_alerts], the two operator actions, the
    retention sweep, and the log endpoints, which rewrite the table
    [maintenance_logs]. *)
Inductive call :=
| Tick (c : Z)
| Check (machine_id : string) (sensor_data : gmap string Q)
        (rul_hours health_score : Q) (is_anomaly : bool) (anomaly_score : Q)
| Acknowledge (alert_id operator_id : string)
| Resolve (alert_id operator_id root_cause resolution_notes : string)
          (downtime_minutes : Z)
| Cleanup
| Logs (logs : list Database.log_row).

Definition perform (c : call) (s : t) : t :=
  match c with
  | Tick c => set_clock c s
  | Check m sd rul health ia score =>
      state_of (check_and_create_alerts m sd rul health ia score s)
  | Acknowledge a o => state_of (acknowledge_alert a o s)
  | Resolve a o cause notes downtime =>
      state_of (resolve_alert a o cause notes downtime s)
  | Cleanup => state_of (db_write (Database.cleanup_old_data (clock s)) s)
  | Logs logs =>
      set_db {| Database.alerts := Database.alerts (db s);
                Database.maintenance_logs := logs |} s
  end.

Definition run (cs : list call) (s : t) : t :=
  fold_left (fun s c => perform c s) cs s.

(** The state of the alert with a given id, if the store has it. *)
Definition state_in (alert_id : string) (s : t) : option Database.alert_state :=
  option_map Database.state (Database.get_alert alert_id (db s)).

(** What the columns of a row record about its acknowledgement and its
    resolution. *)
Definition acknowledgement_blank (r : Database.alert_row) : Prop :=
  Database.acknowledged_by r = None /\ Database.acknowledged_at r = None.

Definition resolution_blank (r : Database.alert_row) : Prop :=
  Database.resolved_by r = None /\ Database.resolved_at r = None /\
  Database.resolution_notes r = None /\ Database.root_cause r = None /\
  Database.downtime_minutes r = None.

Definition acknowledgement_recorded (r : Database.alert_row) : Prop :=
  exists operator_id at_,
    Database.acknowledged_by r = Some operator_id /\
    Database.acknowledged_at r = Some at_ /\
    (3 <= Num.len operator_id)%nat.

Definition resolution_recorded (r : Database.alert_row) : Prop :=
  exists operator_id at_ notes cause downtime,
    Database.resolved_by r = Some operator_id /\
    Database.resolved_at r = Some at_ /\
    Database.resolution_notes r = Some notes /\
    Database.root_cause r = Some cause /\
    Database.downtime_minutes r = Some downtime /\
    (3 <= Num.len operator_id)%nat /\
    (Config.MIN_RESOLUTION_NOTES_LENGTH <= Num.len notes)%nat /\
    (Config.MIN_ROOT_CAUSE_LENGTH <= Num.len cause)%nat /\
    0 <= downtime.

(** The audit trail a row carries in each state; no row is IN_PROGRESS. *)
Definition audited (r : Database.alert_row) : Prop :=
  match Database.state r with
  | Database.ACTIVE => acknowledgement_blank r /\ resolution_blank r
  | Database.ACKNOWLEDGED => acknowledgement_recorded r /\ resolution_blank r
  | Database.IN_PROGRESS => False
  | Database.RESOLVED | Database.LOGGED =>
      acknowledgement_recorded r /\ resolution_recorded r
  end.

Definition all_audited (d : Database.t) : Prop :=
  Forall audited (Database.alerts d).

(** The ids of the rows, in table order. *)
Definition ids (d : Database.t) : list string :=
  List.map Database.id (Database.alerts d).

End Lifecycle.

(** ** An alert taken through its whole life *)

Module LifecycleExamples.

Import AlertManager.

(** The acknowledged warning-RUL alert of machine M-C, resolved at second
    200, and the store after the retention sweep 91 days later. *)
Definition resolved : t :=
  state_of (resolve_alert "ALERT-00000000" "OP-001" "Bearing wear"
              "Replaced bearing, tested operation." 120
              (set_clock (Num.seconds 200) ManagerExamples.acknowledged)).

Definition archived : t :=
  Lifecycle.run [Lifecycle.Tick (Num.seconds 200 + Database.days 91);
                 Lifecycle.Cleanup] resolved.

End LifecycleExamples.

(** ** What one call of [check_and_create_alerts] may insert *)

Module Emission.

Import AlertManager.

(** The row is one [create_alert] has just written for [machine] at [now]. *)
Definition inserted_by (machine : string) (now : Z) (r : Database.alert_row)
    : Prop :=
  Database.machine_id r = machine /\
  Database.created_at r = now /\
  Database.state r = Database.ACTIVE.

(** The branch of [check_and_create_alerts] that creates an alert of the
    row's type and severity is the one the sample takes. *)
Definition justified (sensor_data : gmap string Q) (rul_hours health_score : Q)
    (is_anomaly : bool) (anomaly_score : Q) (r : Database.alert_row) : Prop :=
  (Database.alert_type r = "critical_rul"%string /\
   Database.severity r = "critical"%string /\
   (rul_hours < Config.RUL_CRITICAL_TRIGGER)%Q /\
   _check_multi_sensor_confirmation sensor_data "critical" = true) \/
  (Database.alert_type r = "warning_rul"%string /\
   Database.severity r = "warning"%string /\
   (Config.RUL_CRITICAL_TRIGGER <= rul_hours)%Q /\
   (rul_hours < Config.RUL_WARNING_TRIGGER)%Q) \/
  (Database.alert_type r = "low_health_critical"%string /\
   Database.severity r = "critical"%string /\
   (health_score < Config.HEALTH_CRITICAL_TRIGGER)%Q /\
   _check_multi_sensor_confirmation sensor_data "critical" = true) \/
  (Database.alert_type r = "low_health_warning"%string /\
   Database.severity r = "warning"%string /\
   (Config.HEALTH_CRITICAL_TRIGGER <= health_score)%Q /\
   (health_score < Config.HEALTH_WARNING_TRIGGER)%Q) \/
  (Database.alert_type r = "anomaly_detected"%string /\
   is_anomaly = true /\
   Database.severity r =
     if Num.Qltb Config.ANOMALY_CRITICAL_SCORE anomaly_score
     then "critical"%string else "warning"%string).

(** The pending table [pending] holds a timer for the row's machine and
    type that has run for the persistence window of the type at [now]. *)
Definition timed (pending : gmap (string * string) PendingAlert.t) (now : Z)
    (r : Database.alert_row) : Prop :=
  exists p,
    pending !! (Database.machine_id r, Database.alert_type r) = Some p /\
    (inject_Z (Spec.persistence_seconds (Database.alert_type r)) <=
     Num.total_seconds (now - PendingAlert.first_triggered p))%Q.

Definition emitted (machine : string) (sensor_data : gmap string Q)
    (rul_hours health_score : Q) (is_anomaly : bool) (anomaly_score : Q)
    (pending : gmap (string * string) PendingAlert.t) (now : Z)
    (r : Database.alert_row) : Prop :=
  inserted_by machine now r /\
  justified sensor_data rul_hours health_score is_anomaly anomaly_score r /\
  timed pending now r.

(** ... against the timers and the clock of a state of the manager. *)
Definition emitted_in (machine : string) (sensor_data : gmap string Q)
    (rul_hours health_score : Q) (is_anomaly : bool) (anomaly_score : Q)
    (s : t) : Database.alert_row -> Prop :=
  emitted machine sensor_data rul_hours health_score is_anomaly anomaly_score
    (pending_alerts s) (clock s).

(** A step of the call that, when it returns, has appended to [alerts] at
    most one row, of one of the types [tys], and has appended its id to
    [created]; the clock, the logs and the rate check's view are as before. *)
Definition emits (Q : t -> Database.alert_row -> Prop) (tys : list string)
    (created : list string) (m : M (list string)) : Prop :=
  forall s a s', m s = Val a s' ->
    clock s' = clock s /\
    Database.maintenance_logs (db s') = Database.maintenance_logs (db s) /\
    exists new,
      Database.alerts (db s') = Database.alerts (db s) ++ new /\
      a = created ++ List.map Database.id new /\
      (length new <= 1)%nat /\
      Forall (fun r => Q s r /\ In (Database.alert_type r) tys) new.

End Emission.

(** ** States of the burst trace just before a call *)

Module EmissionExamples.

Import AlertManager.

(** Second 96: the two warning timers of M-C have run for 64 s. *)
Definition warnings_due : t :=
  set_clock (Num.seconds 96) ManagerExamples.before_warning.

(** Second 144: the two critical timers and the anomaly timer are due. *)
Definition criticals_due : t :=
  set_clock (Num.seconds 144)
    (fst (Scenario.submit_all "M-C" (List.firstn 9 Scenario.burst_trace)
            Scenario.initial)).

(** Second 160: five emissions of M-C are on record in the last minute. *)
Definition over_limit : t :=
  set_clock (Num.seconds 160) ManagerExamples.after_burst.

End EmissionExamples.

(** ** Samples added to one window, one after the other *)

Module WindowRuns.

(** The arguments of one [add_sample], and the instant of the call. *)
Record reading := {
  at_ : Z;
  risk_score : Q;
  health_score : Q;
  rul_hours : Q;
  sensors : gmap string Q
}.

Definition add_samples (machine_id alert_type : string) (readings : list reading)
    (windows : gmap (string * string) EvaluationWindow.t)
    : gmap (string * string) EvaluationWindow.t :=
  fold_left
    (fun ws r =>
       EvaluationWindowManager.add_sample (at_ r) machine_id alert_type
         (risk_score r) (health_score r) (rul_hours r) (sensors r) ws)
    readings windows.

(** Two readings of machine M-C after the burst trace. *)
Definition two_readings : list reading :=
  [ {| at_ := Num.seconds 176; risk_score := 7 # 10; health_score := 22;
       rul_hours := 17; sensors := Scenario.degraded_sensors |};
    {| at_ := Num.seconds 192; risk_score := 72 # 100; health_score := 21;
       rul_hours := 16; sensors := Scenario.degraded_sensors |} ].

End WindowRuns.

(** ** The parts of the health heuristic *)

Module Heuristic.

(** The three stages of [_heuristic_rul], as functions of what each one
    reads: the vibration score of the mean vibration, the temperature score,
    and the RUL of the clamped health score. *)
Definition vib_score (avg_vib : Q) : Q :=
  if Num.Qleb avg_vib (65 # 100) then 100%Q
  else if Num.Qleb avg_vib (12 # 10) then
    (100 - ((avg_vib - (65 # 100)) / (55 # 100)) * 20)%Q
  else if Num.Qleb avg_vib (25 # 10) then
    (80 - ((avg_vib - (12 # 10)) / (13 # 10)) * 50)%Q
  else Num.pymax 0 (30 - ((avg_vib - (25 # 10)) / 1) * 30)%Q.

Definition temp_score (temp : Q) : Q :=
  if Num.Qltb temp 20 then
    if Num.Qleb temp (75 # 10) then 100%Q
    else if Num.Qleb temp 10 then (100 - ((temp - (75 # 10)) / (25 # 10)) * 30)%Q
    else if Num.Qleb temp 15 then (70 - ((temp - 10) / 5) * 50)%Q
    else Num.pymax 0 (20 - ((temp - 15) / 5) * 20)%Q
  else if Num.Qltb 60 temp then
    if Num.Qleb temp 72 then 100%Q
    else if Num.Qleb temp 85 then (100 - ((temp - 72) / 13) * 25)%Q
    else if Num.Qleb temp 95 then (75 - ((temp - 85) / 10) * 45)%Q
    else Num.pymax 0 (30 - ((temp - 95) / 10) * 30)%Q
  else
    if Num.Qleb temp 52 then 100%Q
    else if Num.Qleb temp 70 then (100 - ((temp - 52) / 18) * 25)%Q
    else if Num.Qleb temp 85 then (75 - ((temp - 70) / 15) * 45)%Q
    else Num.pymax 0 (30 - ((temp - 85) / 15) * 30)%Q.

Definition health_of (vib_score temp_score : Q) : Q :=
  Num.pymin 100 (Num.pymax 0 (vib_score * (6 # 10) + temp_score * (4 # 10)))%Q.

Definition rul_of (health_score : Q) : Q :=
  if Num.Qleb 70 health_score then (72 + ((health_score - 70) / 30) * 72)%Q
  else if Num.Qleb 40 health_score then (24 + ((health_score - 40) / 30) * 48)%Q
  else ((health_score / 40) * 24)%Q.

(** What the heuristic reads from the sensors. *)
Definition avg_vib (sensor_data : gmap string Q) : Q :=
  ((RULPredictor.get sensor_data "vibration_x" (5 # 10) +
    RULPredictor.get sensor_data "vibration_y" (5 # 10)) / 2)%Q.

Definition temperature (sensor_data : gmap string Q) : Q :=
  RULPredictor.get sensor_data "temperature" 70.

(** A prediction within the ranges of the two scales. *)
Definition in_range (p : Q * Q) : Prop :=
  (0 <= fst p <= Config.MAX_RUL_HOURS)%Q /\ (0 <= snd p <= 100)%Q.

End Heuristic.

(** ** What the stabilizer keeps in range *)

Module Range.

Import StabilizedRULPredictor.

(** An entry [(timestamp, rul, health)] of a history is in range. *)
Definition entry_in_range (e : Z * Q * Q) : Prop :=
  Heuristic.in_range (snd (fst e), snd e).

(** Every cached prediction is in range; every history has at most 50
    entries, all in range. *)
Definition kept (self : t) : Prop :=
  (forall m p, stable_predictions self !! m = Some p -> Heuristic.in_range p) /\
  (forall m, (length (History.history_of self m) <= 50)%nat /\
             Forall entry_in_range (History.history_of self m)).

End Range.

(** ** Runs of the metrics tracker *)

Module Tracking.

Import MetricsTracker.

(** The calls that change a tracker. *)
Inductive call :=
| Record_prediction (now : Z) (machine_id : string)
    (ttf_hours health_score anomaly_score confidence : Q)
| Record_failure (now : Z) (machine_id event_type : string)
| Mark_false_positive (prediction_id notes : string)
| Expire_pending_predictions (now : Z) (max_age_hours : Q)
| Calculate_metrics (now : Z).

Definition perform (c : call) (self : t) : t :=
  match c with
  | Record_prediction now m ttf health anomaly conf =>
      fst (record_prediction now m ttf health anomaly conf self)
  | Record_failure now m kind => fst (record_failure now m kind self)
  | Mark_false_positive i notes => MetricsTracker.mark_false_positive i notes self
  | Expire_pending_predictions now age => MetricsTracker.expire_pending_predictions now age self
  | Calculate_metrics now => fst (MetricsTracker.calculate_metrics now self)
  end.

Definition run (cs : list call) (self : t) : t :=
  fold_left (fun s c => perform c s) cs self.

(** What a prediction of a tracker records: it is pending, or it is a false
    positive, or it came true, with the time of the failure and a lead time
    inside the matching window. *)
Definition settled (window : Q) (p : PredictionRecord) : Prop :=
  match outcome p with
  | PENDING | FALSE_POSITIVE => True
  | TRUE_POSITIVE =>
      exists lead at_,
        lead_time_hours p = Some lead /\ actual_failure_time p = Some at_ /\
        (0 < lead <= window)%Q
  | TRUE_NEGATIVE | FALSE_NEGATIVE => False
  end.

Definition well_formed (self : t) : Prop :=
  Forall (fun kv => settled (prediction_window_hours self) (snd kv))
         (predictions self).

(** Three predictions and two failures, one of them not predicted. *)
Definition example_calls : list call :=
  [ Record_prediction (hours 0) "M-1" 24 45 1 (8 # 10);
    Record_prediction (hours 10) "M-1" 24 40 2 (8 # 10);
    Record_prediction (hours 12) "M-2" 30 42 1 (8 # 10);
    Record_failure (hours 20) "M-1" "failure";
    Record_failure (hours 30) "M-3" "failure" ].

End Tracking.

(** ** The retention sweep, seen from the open alerts *)

Module Retention.

Import Database.

(** The rows in an open state, in table order. *)
Definition open_rows (db : t) : list alert_row :=
  List.filter (fun r => is_open (state r)) (alerts db).

(** What [cleanup_old_data] archives at [now]: a RESOLVED row whose
    [resolved_at] is more than [ALERT_RETENTION_DAYS] before [now]. *)
Definition due (now : Z) (r : alert_row) : bool :=
  match state r, resolved_at r with
  | RESOLVED, Some at_ => at_ <? now - days Config.ALERT_RETENTION_DAYS
  | _, _ => false
  end.

End Retention.

(** ** Histories of the stabilizer *)

Module Histories.

Import StabilizedRULPredictor.

(** The RUL of an entry [(timestamp, rul, health)]. *)
Definition rul_of_entry (e : Z * Q * Q) : Q := snd (fst e).

(** No entry of the history has a larger RUL than an earlier one. *)
Fixpoint falling (h : list (Z * Q * Q)) : Prop :=
  match h with
  | [] => True
  | a :: l =>
      Forall (fun b => (rul_of_entry b <= rul_of_entry a)%Q) l /\ falling l
  end.

(** Every history is in range, capped, and falling. *)
Definition kept (self : t) : Prop :=
  Range.kept self /\ forall m, falling (History.history_of self m).

End Histories.

(** ** Lists ordered by time *)

Module Ordered.

(** No element of the list is newer than an earlier one. *)
Fixpoint newest_first {A} (key : A -> Z) (l : list A) : Prop :=
  match l with
  | [] => True
  | a :: l' => Forall (fun b => key b <= key a) l' /\ newest_first key l'
  end.

End Ordered.

(** * Properties *)

(** ** Rational arithmetic *)

Section Numbers.

Local Open Scope Q_scope.

Lemma Qltb_true a b : Num.Qltb a b = true <-> a < b.
Proof.
  unfold Num.Qltb. rewrite negb_true_iff, <- not_true_iff_false, Qle_bool_iff.
  split; [apply Qnot_le_lt | apply Qlt_not_le].
Qed.

Lemma Qltb_false a b : Num.Qltb a b = false <-> b <= a.
Proof.
  unfold Num.Qltb. rewrite negb_false_iff. apply Qle_bool_iff.
Qed.

Lemma Qleb_true a b : Num.Qleb a b = true <-> a <= b.
Proof. apply Qle_bool_iff. Qed.

Lemma Qleb_false a b : Num.Qleb a b = false <-> b < a.
Proof.
  unfold Num.Qleb. rewrite <- not_true_iff_false, Qle_bool_iff.
  split; [apply Qnot_le_lt | apply Qlt_not_le].
Qed.

Lemma pymin_le_l a b : Num.pymin a b <= a.
Proof.
  unfold Num.pymin. destruct (Num.Qltb b a) eqn:E.
  - apply Qltb_true in E. lra.
  - lra.
Qed.

Lemma pymin_le_r a b : Num.pymin a b <= b.
Proof.
  unfold Num.pymin. destruct (Num.Qltb b a) eqn:E.
  - lra.
  - apply Qltb_false in E. lra.
Qed.

Lemma pymin_glb a b c : c <= a -> c <= b -> c <= Num.pymin a b.
Proof. unfold Num.pymin. destruct (Num.Qltb b a); trivial. Qed.

Lemma pymax_ge_l a b : a <= Num.pymax a b.
Proof.
  unfold Num.pymax. destruct (Num.Qltb a b) eqn:E.
  - apply Qltb_true in E. lra.
  - lra.
Qed.

Lemma pymax_ge_r a b : b <= Num.pymax a b.
Proof.
  unfold Num.pymax. destruct (Num.Qltb a b) eqn:E.
  - lra.
  - apply Qltb_false in E. lra.
Qed.

Lemma pymax_lub a b c : a <= c -> b <= c -> Num.pymax a b <= c.
Proof. unfold Num.pymax. destruct (Num.Qltb a b); trivial. Qed.

(** Clamping a value that is already inside the interval changes nothing. *)
Lemma pymin_absorb_r a b : b <= a -> Num.pymin a b == b.
Proof.
  intros H. unfold Num.pymin. destruct (Num.Qltb b a) eqn:E.
  - reflexivity.
  - apply Qltb_false in E. lra.
Qed.

Lemma pymax_absorb_r a b : a <= b -> Num.pymax a b == b.
Proof.
  intros H. unfold Num.pymax. destruct (Num.Qltb a b) eqn:E.
  - reflexivity.
  - apply Qltb_false in E. lra.
Qed.

(** *** Rounding to the nearest integer *)

Lemma floor_bounds x : inject_Z (Qfloor x) <= x /\ x < inject_Z (Qfloor x) + 1.
Proof.
  split; [apply Qfloor_le |].
  pose proof (Qlt_floor x) as H. rewrite inject_Z_plus in H. exact H.
Qed.

Lemma round_half_even_cases x :
  Num.round_half_even x = Qfloor x \/ Num.round_half_even x = (Qfloor x + 1)%Z.
Proof.
  unfold Num.round_half_even.
  destruct (Num.Qltb _ _); [now left |].
  destruct (Num.Qltb _ _); [now right |].
  destruct (Z.even _); [now left | now right].
Qed.

Lemma round_half_even_near x :
  x - (1 # 2) <= inject_Z (Num.round_half_even x) <= x + (1 # 2).
Proof.
  destruct (floor_bounds x) as [Hl Hu].
  unfold Num.round_half_even.
  destruct (Num.Qltb (x - inject_Z (Qfloor x)) (1 # 2)) eqn:E1.
  - apply Qltb_true in E1. lra.
  - apply Qltb_false in E1.
    destruct (Num.Qltb (1 # 2) (x - inject_Z (Qfloor x))) eqn:E2.
    + rewrite inject_Z_plus. change (inject_Z 1) with 1. lra.
    + apply Qltb_false in E2.
      destruct (Z.even (Qfloor x));
        [| rewrite inject_Z_plus; change (inject_Z 1) with 1]; lra.
Qed.

Lemma round_half_even_comp x y : x == y -> Num.round_half_even x = Num.round_half_even y.
Proof.
  intros H. unfold Num.round_half_even.
  rewrite (Qfloor_comp _ _ H).
  assert (Hr : x - inject_Z (Qfloor y) == y - inject_Z (Qfloor y)) by lra.
  assert (E1 : Num.Qltb (x - inject_Z (Qfloor y)) (1 # 2) =
               Num.Qltb (y - inject_Z (Qfloor y)) (1 # 2)).
  { destruct (Num.Qltb (y - inject_Z (Qfloor y)) (1 # 2)) eqn:E.
    - apply Qltb_true in E. apply Qltb_true. lra.
    - apply Qltb_false in E. apply Qltb_false. lra. }
  assert (E2 : Num.Qltb (1 # 2) (x - inject_Z (Qfloor y)) =
               Num.Qltb (1 # 2) (y - inject_Z (Qfloor y))).
  { destruct (Num.Qltb (1 # 2) (y - inject_Z (Qfloor y))) eqn:E.
    - apply Qltb_true in E. apply Qltb_true. lra.
    - apply Qltb_false in E. apply Qltb_false. lra. }
  now rewrite E1, E2.
Qed.

Lemma round_half_even_Z k : Num.round_half_even (inject_Z k) = k.
Proof.
  unfold Num.round_half_even. rewrite Qfloor_Z.
  assert (E : Num.Qltb (inject_Z k - inject_Z k) (1 # 2) = true)
    by (apply Qltb_true; lra).
  now rewrite E.
Qed.

Lemma round_half_even_mono x y :
  x <= y -> (Num.round_half_even x <= Num.round_half_even y)%Z.
Proof.
  intros Hxy.
  pose proof (Qfloor_resp_le _ _ Hxy) as Hf.
  destruct (Z.eq_dec (Qfloor x) (Qfloor y)) as [Heq | Hne].
  - unfold Num.round_half_even. rewrite Heq.
    destruct (Num.Qltb (x - inject_Z (Qfloor y)) (1 # 2)) eqn:X1.
    + destruct (Num.Qltb (y - inject_Z (Qfloor y)) (1 # 2)); [lia |].
      destruct (Num.Qltb (1 # 2) (y - inject_Z (Qfloor y))); [lia |].
      destruct (Z.even (Qfloor y)); lia.
    + apply Qltb_false in X1.
      assert (Y1 : Num.Qltb (y - inject_Z (Qfloor y)) (1 # 2) = false)
        by (apply Qltb_false; lra).
      rewrite Y1.
      destruct (Num.Qltb (1 # 2) (x - inject_Z (Qfloor y))) eqn:X2.
      * apply Qltb_true in X2.
        assert (Y2 : Num.Qltb (1 # 2) (y - inject_Z (Qfloor y)) = true)
          by (apply Qltb_true; lra).
        rewrite Y2. lia.
      * destruct (Num.Qltb (1 # 2) (y - inject_Z (Qfloor y))).
        -- destruct (Z.even (Qfloor y)); lia.
        -- lia.
  - assert (Hlt : (Qfloor x + 1 <= Qfloor y)%Z) by lia.
    destruct (round_half_even_cases x) as [-> | ->];
      destruct (round_half_even_cases y) as [-> | ->]; lia.
Qed.

(** *** [round(x, n)] *)

Lemma scale_pos n : 0 < inject_Z (10 ^ Z.of_nat n).
Proof.
  replace 0 with (inject_Z 0) by reflexivity. rewrite <- Zlt_Qlt.
  apply Z.pow_pos_nonneg; lia.
Qed.

Lemma round_comp x y n : x == y -> Num.round x n == Num.round y n.
Proof.
  intros H. unfold Num.round.
  rewrite (round_half_even_comp (x * inject_Z (10 ^ Z.of_nat n))
                                (y * inject_Z (10 ^ Z.of_nat n))).
  - reflexivity.
  - rewrite H. reflexivity.
Qed.

Lemma round_mono x y n : x <= y -> Num.round x n <= Num.round y n.
Proof.
  intros H. unfold Num.round.
  pose proof (scale_pos n) as Hs.
  apply Qmult_le_compat_r.
  - rewrite <- Zle_Qle. apply round_half_even_mono.
    apply Qmult_le_compat_r; [exact H | lra].
  - apply Qlt_le_weak, Qinv_lt_0_compat, Hs.
Qed.

(** A multiple of 10^-n is its own rounding. *)
Lemma round_of_multiple k n :
  Num.round (inject_Z k / inject_Z (10 ^ Z.of_nat n)) n ==
  inject_Z k / inject_Z (10 ^ Z.of_nat n).
Proof.
  pose proof (scale_pos n) as Hs.
  unfold Num.round at 1.
  rewrite (round_half_even_comp _ (inject_Z k)).
  - rewrite round_half_even_Z. reflexivity.
  - field. lra.
Qed.

Lemma round_idempotent x n : Num.round (Num.round x n) n == Num.round x n.
Proof. unfold Num.round at 2 3. apply round_of_multiple. Qed.

Lemma round_near x n :
  Qabs (Num.round x n - x) <= (1 # 2) / inject_Z (10 ^ Z.of_nat n).
Proof.
  pose proof (scale_pos n) as Hs.
  pose proof (round_half_even_near (x * inject_Z (10 ^ Z.of_nat n))) as [Hl Hu].
  unfold Num.round.
  set (s := inject_Z (10 ^ Z.of_nat n)) in *.
  set (r := inject_Z (Num.round_half_even (x * s))) in *.
  assert (Hd : r / s - x == (r - x * s) / s) by (field; lra).
  rewrite Hd. apply Qabs_Qle_condition. split.
  - apply Qle_shift_div_l; [exact Hs |].
    assert (E : - ((1 # 2) / s) * s == - (1 # 2)) by (field; lra).
    rewrite E. lra.
  - apply Qle_shift_div_r; [exact Hs |].
    assert (E : (1 # 2) / s * s == 1 # 2) by (field; lra).
    rewrite E. lra.
Qed.

Lemma round_unit_interval x n : 0 <= x <= 1 -> 0 <= Num.round x n <= 1.
Proof.
  intros [H0 H1]. pose proof (scale_pos n) as Hs. split.
  - assert (E : 0 == Num.round (inject_Z 0 / inject_Z (10 ^ Z.of_nat n)) n).
    { rewrite round_of_multiple. field. lra. }
    rewrite E. apply round_mono.
    assert (E0 : inject_Z 0 / inject_Z (10 ^ Z.of_nat n) == 0) by (field; lra).
    rewrite E0. exact H0.
  - assert (E : 1 == Num.round (inject_Z (10 ^ Z.of_nat n) / inject_Z (10 ^ Z.of_nat n)) n).
    { rewrite round_of_multiple. field. lra. }
    rewrite E. apply round_mono.
    assert (E1 : inject_Z (10 ^ Z.of_nat n) / inject_Z (10 ^ Z.of_nat n) == 1)
      by (field; lra).
    rewrite E1. exact H1.
Qed.

Lemma round_nonneg x n : 0 <= x -> 0 <= Num.round x n.
Proof.
  intros H0. pose proof (scale_pos n) as Hs.
  assert (E : 0 == Num.round (inject_Z 0 / inject_Z (10 ^ Z.of_nat n)) n).
  { rewrite round_of_multiple. field. lra. }
  rewrite E. apply round_mono.
  assert (E0 : inject_Z 0 / inject_Z (10 ^ Z.of_nat n) == 0) by (field; lra).
  rewrite E0. exact H0.
Qed.

End Numbers.

(** ** The risk score *)

Section RiskScore.

Local Open Scope Q_scope.

Lemma clamp_unit_interval v : 0 <= Num.pymin 1 (Num.pymax 0 v) <= 1.
Proof.
  split.
  - apply pymin_glb; [lra | apply pymax_ge_l].
  - apply pymin_le_l.
Qed.

Lemma clamp_inner_id v : 0 <= v <= 1 -> Num.pymax 0 (Num.pymin 1 v) == v.
Proof.
  intros [H0 H1].
  assert (E : Num.pymin 1 v == v) by (apply pymin_absorb_r; exact H1).
  unfold Num.pymax. destruct (Num.Qltb 0 (Num.pymin 1 v)) eqn:T.
  - exact E.
  - apply Qltb_false in T. lra.
Qed.

Lemma clamp_outer_id v : 0 <= v <= 1 -> Num.pymin 1 (Num.pymax 0 v) == v.
Proof.
  intros [H0 H1].
  assert (E : Num.pymax 0 v == v) by (apply pymax_absorb_r; exact H0).
  unfold Num.pymin. destruct (Num.Qltb (Num.pymax 0 v) 1) eqn:T.
  - exact E.
  - apply Qltb_false in T. lra.
Qed.

Lemma pymin_Qmin a b : Num.pymin a b == Qmin a b.
Proof.
  unfold Num.pymin. destruct (Num.Qltb b a) eqn:T.
  - apply Qltb_true in T. symmetry. apply Q.min_r. lra.
  - apply Qltb_false in T. symmetry. apply Q.min_l. exact T.
Qed.

Lemma risk_score_bounded rul health anomaly :
  0 <= calculate_risk_score rul health anomaly <= 1.
Proof.
  unfold calculate_risk_score. apply round_unit_interval, clamp_unit_interval.
Qed.

(** For inputs in range the two clamps are idle and what is rounded is the
    weighted sum. *)
Lemma risk_score_nominal rul health anomaly :
  0 <= rul <= Config.MAX_RUL_HOURS -> 0 <= health <= 100 -> 0 <= anomaly ->
  0 <= Spec.weighted_risk rul health anomaly <= 1 /\
  calculate_risk_score rul health anomaly ==
  Num.round (Spec.weighted_risk rul health anomaly) 3.
Proof.
  unfold Config.MAX_RUL_HOURS. intros [Hr0 Hr1] [Hh0 Hh1] Ha.
  assert (Br : 0 <= 1 - rul / 144 <= 1).
  { assert (E : rul / 144 == rul * (1 # 144)) by (field; lra). rewrite E. lra. }
  assert (Bh : 0 <= 1 - health / 100 <= 1).
  { assert (E : health / 100 == health * (1 # 100)) by (field; lra). rewrite E. lra. }
  assert (Ba : 0 <= Qmin 1 (anomaly / 10) <= 1).
  { assert (E : anomaly / 10 == anomaly * (1 # 10)) by (field; lra).
    split.
    - apply Q.min_glb; [lra | rewrite E; lra].
    - apply Q.le_min_l. }
  pose proof (clamp_inner_id _ Br) as Er.
  pose proof (clamp_inner_id _ Bh) as Eh.
  pose proof (pymin_Qmin 1 (anomaly / 10)) as Ea.
  unfold Spec.weighted_risk, calculate_risk_score, Config.MAX_RUL_HOURS.
  set (xr := Num.pymax 0 (Num.pymin 1 (1 - rul / 144))) in *.
  set (xh := Num.pymax 0 (Num.pymin 1 (1 - health / 100))) in *.
  set (xa := Num.pymin 1 (anomaly / 10)) in *.
  set (yr := 1 - rul / 144) in *.
  set (yh := 1 - health / 100) in *.
  set (ya := Qmin 1 (anomaly / 10)) in *.
  split; [lra |].
  apply round_comp.
  rewrite clamp_outer_id by lra. lra.
Qed.

End RiskScore.

(** C9, as stated, fails: for the nominal inputs [rul = 100], [health = 50],
    [anomaly = 0] the weighted sum is 59/180 = 0.32777..., while
    [calculate_risk_score] returns 0.328. *)
Lemma risk_score_differs_from_weighted_sum :
  (0 <= 100 <= Config.MAX_RUL_HOURS)%Q /\ (0 <= 50 <= 100)%Q /\
  ~ (calculate_risk_score 100 50 0 == Spec.weighted_risk 100 50 0)%Q.
Proof.
  split; [| split].
  - split; discriminate.
  - split; discriminate.
  - intros H. vm_compute in H. discriminate H.
Qed.

(** C9 (amended): [calculate_risk_score] is defined on every triple of
    numbers and its value lies in [0,1].  For [rul] in [0, MAX_RUL_HOURS],
    [health] in [0,100] and [anomaly >= 0] it is the weighted sum
    0.5(1 - rul/MAX_RUL_HOURS) + 0.35(1 - health/100) + 0.15 min(1, anomaly/10)
    rounded to three decimals: up to the rounding error of float arithmetic,
    it is one of the multiples k/1000 with k from 0 to 1000, and that
    multiple is within 0.0005 of the sum.  Which of two multiples is taken
    when the sum is halfway between them is left open. *)
Theorem risk_score_bounded_and_rounded_sum (rul health anomaly : Q) :
  (0 <= calculate_risk_score rul health anomaly <= 1)%Q /\
  ((0 <= rul <= Config.MAX_RUL_HOURS)%Q -> (0 <= health <= 100)%Q ->
   (0 <= anomaly)%Q ->
   exists k : Z,
     0 <= k <= 1000 /\
     (Qabs (calculate_risk_score rul health anomaly - inject_Z k / 1000) <=
      Num.float_error)%Q /\
     (Qabs (inject_Z k / 1000 - Spec.weighted_risk rul health anomaly) <=
      (1 # 2000) + Num.float_error)%Q).
Proof.
  split; [apply risk_score_bounded |].
  intros Hr Hh Ha.
  destruct (risk_score_nominal rul health anomaly Hr Hh Ha) as [_ E].
  pose proof (risk_score_bounded rul health anomaly) as [B0 B1].
  pose proof (round_near (Spec.weighted_risk rul health anomaly) 3) as Hn.
  rewrite E in B0, B1. unfold Num.round in E, B0, B1, Hn.
  change (inject_Z (10 ^ Z.of_nat 3)) with (1000%Q) in *.
  set (k := Num.round_half_even (Spec.weighted_risk rul health anomaly * 1000)) in *.
  assert (C : ((1 # 2) / 1000 == 1 # 2000)%Q) by reflexivity.
  rewrite C in Hn.
  exists k. split; [| split].
  - assert (Ek : (inject_Z k == inject_Z k / 1000 * 1000)%Q) by (field; discriminate).
    assert (H0 : (inject_Z 0 <= inject_Z k)%Q).
    { rewrite Ek. change (inject_Z 0) with 0%Q.
      set (q := (inject_Z k / 1000)%Q) in *. lra. }
    assert (H1 : (inject_Z k <= inject_Z 1000)%Q).
    { rewrite Ek. change (inject_Z 1000) with 1000%Q.
      set (q := (inject_Z k / 1000)%Q) in *. lra. }
    rewrite <- Zle_Qle in H0, H1. lia.
  - rewrite E.
    assert (Z0 : (inject_Z k / 1000 - inject_Z k / 1000 == 0)%Q) by ring.
    rewrite Z0. discriminate.
  - unfold Num.float_error.
    eapply Qle_trans; [exact Hn |]. discriminate.
Qed.

(** At the tie [rul = 0], [health = 9], where the sum is 0.8185. *)
Lemma risk_score_bounded_and_rounded_sum_witness :
  (Spec.weighted_risk 0 9 0 == 8185 # 10000)%Q /\
  exists k : Z,
    0 <= k <= 1000 /\
    (Qabs (calculate_risk_score 0 9 0 - inject_Z k / 1000) <= Num.float_error)%Q /\
    (Qabs (inject_Z k / 1000 - Spec.weighted_risk 0 9 0) <=
     (1 # 2000) + Num.float_error)%Q.
Proof.
  split; [reflexivity |].
  apply (proj2 (risk_score_bounded_and_rounded_sum 0 9 0)).
  - split; discriminate.
  - split; discriminate.
  - discriminate.
Defined.

(** ** The evaluation window *)

Section Evaluation.

Import EvaluationWindow.


Lemma prune_samples now w :
  samples (_prune_old_samples now w) =
  List.filter (fun s => now - Num.seconds (duration_seconds w) <=? timestamp s)
              (samples w).
Proof. reflexivity. Qed.

Lemma evaluate_few now w :
  (length (samples (_prune_old_samples now w)) < 3)%nat ->
  may_proceed (snd (evaluate now w)) = false.
Proof.
  intros H. unfold evaluate.
  apply Nat.ltb_lt in H. rewrite H. reflexivity.
Qed.


End Evaluation.



(** ** Matching a failure with a prediction *)

Section FailureMatching.

Import MetricsTracker Matching.

Variables (now : Z) (machine : string) (window : Q).

Lemma match_step_skip acc item :
  eligible now machine window (snd item) = false ->
  match_step now machine window acc item = acc.
Proof.
  destruct item as [pid p]. unfold eligible, match_step. simpl.
  destruct (String.eqb (machine_id p) machine); simpl; [| reflexivity].
  destruct (outcome_eqb (outcome p) PENDING); simpl; [| reflexivity].
  intros ->. reflexivity.
Qed.

Lemma match_step_take acc pid p :
  eligible now machine window p = true ->
  match_step now machine window acc (pid, p) =
  match acc with
  | None => Some (pid, p, time_diff now p)
  | Some (_, _, best) =>
      if Num.Qltb (time_diff now p) best then Some (pid, p, time_diff now p) else acc
  end.
Proof.
  unfold eligible, match_step. rewrite !andb_true_iff.
  intros [[E1 E2] E3]. rewrite E1, E2. simpl.
  destruct E3 as [E3 E4]. now rewrite E3, E4.
Qed.

Lemma best_of_step seen acc item :
  best_of now machine window seen acc ->
  best_of now machine window (seen ++ [item]) (match_step now machine window acc item).
Proof.
  intros H. destruct (eligible now machine window (snd item)) eqn:E.
  - destruct item as [pid p]. simpl in E. rewrite (match_step_take _ _ _ E).
    destruct acc as [[[bid bp] best] |].
    + destruct H as (Hin & Hel & Hlead & Hmin).
      destruct (Num.Qltb (time_diff now p) best) eqn:T.
      * apply Qltb_true in T. subst best.
        repeat split; [apply in_or_app; right; now left | exact E |].
        intros q Hq Eq. apply in_app_or in Hq as [Hq | [<- | []]].
        -- specialize (Hmin q Hq Eq). lra.
        -- simpl. lra.
      * apply Qltb_false in T. subst best.
        repeat split; [apply in_or_app; now left | exact Hel |].
        intros q Hq Eq. apply in_app_or in Hq as [Hq | [<- | []]].
        -- exact (Hmin q Hq Eq).
        -- exact T.
    + simpl in H.
      repeat split; [apply in_or_app; right; now left | exact E |].
      intros q Hq Eq. apply in_app_or in Hq as [Hq | [<- | []]].
      * rewrite (H q Hq) in Eq. discriminate.
      * simpl. lra.
  - rewrite (match_step_skip _ _ E).
    destruct acc as [[[bid bp] best] |].
    + destruct H as (Hin & Hel & Hlead & Hmin).
      repeat split; [apply in_or_app; now left | exact Hel | exact Hlead |].
      intros q Hq Eq. apply in_app_or in Hq as [Hq | [<- | []]].
      * exact (Hmin q Hq Eq).
      * rewrite E in Eq. discriminate.
    + simpl in *. intros q Hq. apply in_app_or in Hq as [Hq | [<- | []]].
      * exact (H q Hq).
      * exact E.
Qed.

Lemma best_of_fold rest : forall seen acc,
  best_of now machine window seen acc ->
  best_of now machine window (seen ++ rest)
          (fold_left (match_step now machine window) rest acc).
Proof.
  induction rest as [| item rest IH]; intros seen acc H; simpl.
  - now rewrite app_nil_r.
  - replace (seen ++ item :: rest) with ((seen ++ [item]) ++ rest)
      by (now rewrite <- app_assoc).
    apply IH, best_of_step, H.
Qed.

End FailureMatching.

Section FailureRecording.

Import MetricsTracker Matching.

Lemma find_match_best now machine self :
  best_of now machine (prediction_window_hours self) (predictions self)
          (find_match now machine self).
Proof.
  unfold find_match.
  apply (best_of_fold now machine (prediction_window_hours self)
                      (predictions self) [] None).
  intros q [].
Qed.

(** A larger elapsed time is an earlier prediction. *)
Lemma time_diff_le now p q :
  (time_diff now p <= time_diff now q)%Q <-> predicted_at q <= predicted_at p.
Proof.
  unfold time_diff, Num.total_seconds.
  assert (E : forall d, (inject_Z d / inject_Z 1000000 / 3600 ==
                         inject_Z d * (1 # 3600000000))%Q).
  { intros d. field. }
  rewrite !E. split.
  - intros H.
    assert (H' : (inject_Z (now - predicted_at p) <= inject_Z (now - predicted_at q))%Q)
      by lra.
    rewrite <- Zle_Qle in H'. lia.
  - intros H.
    assert (H' : (inject_Z (now - predicted_at p) <= inject_Z (now - predicted_at q))%Q)
      by (rewrite <- Zle_Qle; lia).
    lra.
Qed.

Lemma dict_get_set {V} k (v : V) d : dict_get k (dict_set k v d) = Some v.
Proof.
  unfold dict_get. induction d as [| [k' v'] d IH]; simpl.
  - now rewrite String.eqb_refl.
  - destruct (String.eqb k' k) eqn:E; simpl.
    + now rewrite String.eqb_refl.
    + now rewrite E.
Qed.

End FailureRecording.

(** C8, as stated, fails: with two pending predictions for M-1, made at hour
    0 and at hour 10, a failure at hour 20 leaves the earlier one [PENDING] and
    marks the later one [TRUE_POSITIVE] with a lead time of 10 hours. *)
Lemma record_failure_skips_earliest :
  option_map MetricsTracker.outcome
    (Matching.dict_get "PRED-0001"
       (MetricsTracker.predictions Matching.after_failure))
  = Some MetricsTracker.PENDING /\
  option_map MetricsTracker.outcome
    (Matching.dict_get "PRED-0002"
       (MetricsTracker.predictions Matching.after_failure))
  = Some MetricsTracker.TRUE_POSITIVE /\
  Matching.eligible (MetricsTracker.hours 20) "M-1" 48
    {| MetricsTracker.prediction_id := "PRED-0001";
       MetricsTracker.machine_id := "M-1";
       MetricsTracker.predicted_at := MetricsTracker.hours 0;
       MetricsTracker.predicted_failure_time := MetricsTracker.hours 24;
       MetricsTracker.predicted_ttf_hours := 24;
       MetricsTracker.health_score_at_prediction := 45;
       MetricsTracker.anomaly_score_at_prediction := 1;
       MetricsTracker.confidence := 8 # 10;
       MetricsTracker.outcome := MetricsTracker.PENDING;
       MetricsTracker.actual_failure_time := None;
       MetricsTracker.lead_time_hours := None;
       MetricsTracker.resolution_notes := "" |} = true /\
  Matching.dict_get "PRED-0001"
    (MetricsTracker.predictions Matching.two_predictions) =
  Some {| MetricsTracker.prediction_id := "PRED-0001";
          MetricsTracker.machine_id := "M-1";
          MetricsTracker.predicted_at := MetricsTracker.hours 0;
          MetricsTracker.predicted_failure_time := MetricsTracker.hours 24;
          MetricsTracker.predicted_ttf_hours := 24;
          MetricsTracker.health_score_at_prediction := 45;
          MetricsTracker.anomaly_score_at_prediction := 1;
          MetricsTracker.confidence := 8 # 10;
          MetricsTracker.outcome := MetricsTracker.PENDING;
          MetricsTracker.actual_failure_time := None;
          MetricsTracker.lead_time_hours := None;
          MetricsTracker.resolution_notes := "" |}.
Proof. repeat split; vm_compute; reflexivity. Qed.

(** C8 (amended): [record_failure(machine, kind)] considers the predictions
    of the same machine that are [PENDING] and satisfy
    0 < now - predicted_at <= PREDICTION_WINDOW_HOURS.  If there is one, it
    marks the most recent of them (the one with the smallest elapsed time)
    [TRUE_POSITIVE] with [lead_time_hours = now - predicted_at] and records the
    failure as predicted; if there is none, no prediction changes and the
    failure is recorded with [was_predicted = false], which is what the
    false-negative count counts. *)
Theorem record_failure_matches_latest (now : Z) (machine kind : string)
    (self : MetricsTracker.t) :
  let window := MetricsTracker.prediction_window_hours self in
  let self' := fst (MetricsTracker.record_failure now machine kind self) in
  let failure_id := snd (MetricsTracker.record_failure now machine kind self) in
  match MetricsTracker.find_match now machine self with
  | Some (pid, p, lead) =>
      In (pid, p) (MetricsTracker.predictions self) /\
      Matching.eligible now machine window p = true /\
      lead = MetricsTracker.time_diff now p /\
      (forall q, In q (MetricsTracker.predictions self) ->
                 Matching.eligible now machine window (snd q) = true ->
                 MetricsTracker.predicted_at (snd q) <= MetricsTracker.predicted_at p) /\
      MetricsTracker.predictions self' =
        MetricsTracker.dict_set pid
          (MetricsTracker.mark_true_positive now lead p)
          (MetricsTracker.predictions self) /\
      exists f, Matching.dict_get failure_id (MetricsTracker.failures self') = Some f /\
                MetricsTracker.was_predicted f = true /\
                MetricsTracker.f_lead_time_hours f = Some lead
  | None =>
      (forall q, In q (MetricsTracker.predictions self) ->
                 Matching.eligible now machine window (snd q) = false) /\
      MetricsTracker.predictions self' = MetricsTracker.predictions self /\
      exists f, Matching.dict_get failure_id (MetricsTracker.failures self') = Some f /\
                MetricsTracker.was_predicted f = false
  end.
Proof.
  intros window self' failure_id. subst window self' failure_id.
  pose proof (find_match_best now machine self) as H.
  unfold MetricsTracker.record_failure.
  destruct (MetricsTracker.find_match now machine self) as [[[pid p] lead] |];
    cbn [fst snd MetricsTracker.predictions MetricsTracker.failures].
  - destruct H as (Hin & Hel & Hlead & Hmin).
    repeat split; try assumption.
    + intros q Hq Eq. apply (proj1 (time_diff_le now p (snd q))). exact (Hmin q Hq Eq).
    + eexists. split; [apply dict_get_set |]. split; reflexivity.
  - repeat split; try assumption.
    eexists. split; [apply dict_get_set | reflexivity].
Qed.

(** ** The raw predictor and the stabilizer *)

Section Stabilizer.

Import StabilizedRULPredictor History.

Local Open Scope Q_scope.

(** The heuristic returns a non-negative RUL that is a rounding to one
    decimal. *)
Lemma raw_rul_shape sd m :
  exists x, 0 <= x /\ fst (RULPredictor.predict_rul sd m) = Num.round x 1.
Proof.
  unfold RULPredictor.predict_rul, RULPredictor._heuristic_rul. cbv zeta.
  match goal with
  | |- context [Num.pymin 100 (Num.pymax 0 ?e)] => set (h0 := e)
  end.
  set (h := Num.pymin 100 (Num.pymax 0 h0)).
  assert (Hh : 0 <= h).
  { subst h. apply pymin_glb; [lra | apply pymax_ge_l]. }
  eexists. split; [| reflexivity].
  destruct (Num.Qleb 70 h) eqn:E1.
  - apply Qleb_true in E1.
    assert (E : (h - 70) / 30 * 72 == (h - 70) * (72 # 30)) by field. lra.
  - destruct (Num.Qleb 40 h) eqn:E2.
    + apply Qleb_true in E2.
      assert (E : (h - 40) / 30 * 48 == (h - 40) * (48 # 30)) by field. lra.
    + assert (E : h / 40 * 24 == h * (24 # 40)) by field. lra.
Qed.

Lemma last_app_tl {A} (l : list A) (x d : A) :
  l <> [] -> List.last (List.tl (l ++ [x])) d = x.
Proof.
  destruct l as [| a l]; [congruence |]. intros _. simpl. apply last_last.
Qed.

Lemma history_after_append (h : list (Z * Q * Q)) (e : Z * Q * Q) :
  let capped := if (50 <? length (h ++ [e]))%nat then List.tl (h ++ [e]) else h ++ [e] in
  h <> [] -> capped <> [] /\ List.last capped (0%Z, 0, 0) = e.
Proof.
  intros capped Hne. subst capped.
  destruct (50 <? length (h ++ [e]))%nat.
  - split.
    + destruct h as [| a [| b h]]; simpl; congruence.
    + now apply last_app_tl.
  - split; [destruct h; discriminate | apply last_last].
Qed.

(** A smoothed prediction either answers from the cache, or appends to the
    history: the raw value when the history was empty, otherwise a value that
    is not negative and not above the previous entry. *)
Lemma predict_smoothed_cases now sd m self self' r h :
  predict_rul now sd m false self = (self', (r, h)) ->
  (self' = self /\ stable_predictions self !! m = Some (r, h)) \/
  (exists hist',
     prediction_history self' = <[m := hist']> (prediction_history self) /\
     stable_predictions self' = <[m := (r, h)]> (stable_predictions self) /\
     hist' <> [] /\
     ((history_of self m = [] /\
       r = fst (RULPredictor.predict_rul sd m) /\ last_rul hist' = r) \/
      (history_of self m <> [] /\
       r = Num.round (last_rul hist') 1 /\ 0 <= last_rul hist' /\
       (0 <= last_rul (history_of self m) ->
        last_rul hist' <= last_rul (history_of self m))))).
Proof.
  unfold predict_rul.
  match goal with
  | |- context [match ?c with Some pred => _ | None => _ end = _] =>
      destruct c as [pred |] eqn:Hc
  end.
  - intros [= <- <-]. left. split; [reflexivity |].
    destruct (last_prediction_time self !! m); [| discriminate].
    destruct (_ <? _)%Z; [exact Hc | discriminate].
  - clear Hc. destruct (RULPredictor.predict_rul sd m) as [raw_rul raw_health] eqn:Hraw.
    unfold _stabilize_prediction. fold (history_of self m).
    destruct (length (history_of self m) =? 0)%nat eqn:Hlen.
    + apply Nat.eqb_eq in Hlen. apply length_zero_iff_nil in Hlen.
      intros [= <- <- <-]. right.
      exists (history_of self m ++ [(now, raw_rul, raw_health)]).
      split; [reflexivity |]. split; [reflexivity |].
      rewrite Hlen. split; [discriminate |].
      left. repeat split.
    + apply Nat.eqb_neq in Hlen.
      assert (Hne : history_of self m <> []).
      { intros E. rewrite E in Hlen. now apply Hlen. }
      destruct (List.last (history_of self m) (0%Z, 0, 0)) as [[pts prev_rul] prev_health] eqn:Hlast.
      intros [= <- <- <-]. right. eexists.
      split; [reflexivity |]. split; [reflexivity |].
      match goal with
      | |- (if _ then List.tl (_ ++ [?e]) else _) <> [] /\ _ =>
          destruct (history_after_append (history_of self m) e Hne) as [Hn Hl]
      end.
      split; [exact Hn |]. right. split; [exact Hne |].
      unfold last_rul. rewrite Hl, Hlast. cbn.
      split; [reflexivity |]. split.
      * apply pymax_ge_l.
      * intros Hprev. apply pymax_lub; [exact Hprev |].
        eapply Qle_trans; [apply pymin_le_l |]. apply pymin_le_r.
Qed.

Lemma history_of_insert self self' m hist' :
  prediction_history self' = <[m := hist']> (prediction_history self) ->
  history_of self' m = hist' /\
  forall m', m' <> m -> history_of self' m' = history_of self m'.
Proof.
  intros E. unfold history_of. rewrite E. split.
  - now rewrite lookup_insert_eq.
  - intros m' Hne. now rewrite lookup_insert_ne.
Qed.

Lemma consistent_init : consistent __init__.
Proof.
  intros m. split.
  - intros H. exfalso. apply H. reflexivity.
  - intros c h H. cbn in H. rewrite lookup_empty in H. discriminate.
Qed.

Lemma consistent_predict now sd m b self :
  consistent self -> consistent (fst (predict_rul now sd m b self)).
Proof.
  intros Hc. destruct b.
  - (* bypass: the machine's entries are dropped *)
    cbn. intros m'. unfold history_of. cbn.
    destruct (decide (m' = m)) as [-> | Hne].
    + rewrite !lookup_delete_eq. split; [intros H; now exfalso | discriminate].
    + rewrite !lookup_delete_ne by congruence. apply Hc.
  - destruct (predict_rul now sd m false self) as [self' [r h]] eqn:E. cbn.
    destruct (predict_smoothed_cases _ _ _ _ _ _ _ E)
      as [[-> _] | (hist' & Eh & Es & Hne & Hcase)]; [exact Hc |].
    destruct (history_of_insert _ _ _ _ Eh) as [Hm Hother].
    intros m'. destruct (decide (m' = m)) as [-> | Hneq].
    + rewrite Hm, Es, lookup_insert_eq. split.
      * intros _. destruct Hcase as [(_ & Er & El) | (_ & _ & H0 & _)]; [| exact H0].
        rewrite El, Er. destruct (raw_rul_shape sd m) as (x & Hx & ->).
        now apply round_nonneg.
      * intros c h0 [= <- <-]. split; [exact Hne |].
        destruct Hcase as [(_ & Er & El) | (_ & Er & _)].
        -- rewrite El, Er. destruct (raw_rul_shape sd m) as (x & Hx & ->).
           symmetry. apply round_idempotent.
        -- rewrite Er. reflexivity.
    + rewrite (Hother m' Hneq), Es, lookup_insert_ne by congruence. apply Hc.
Qed.

Lemma consistent_reset m self : consistent self -> consistent (reset_machine m self).
Proof.
  intros Hc m'. unfold history_of, reset_machine. cbn.
  destruct (decide (m' = m)) as [-> | Hne].
  - rewrite lookup_delete_eq. split; [| discriminate].
    destruct (prediction_history self !! m) eqn:E.
    + rewrite lookup_insert_eq. intros H. now exfalso.
    + rewrite E. intros H. now exfalso.
  - rewrite lookup_delete_ne by congruence.
    destruct (prediction_history self !! m).
    + rewrite lookup_insert_ne by congruence. apply Hc.
    + apply Hc.
Qed.

Lemma consistent_step c self : consistent self -> consistent (fst (step c self)).
Proof.
  intros Hc. destruct c as [now sd m b | m]; cbn.
  - pose proof (consistent_predict now sd m b self Hc) as H.
    destruct (predict_rul now sd m b self) as [self' r]. exact H.
  - now apply consistent_reset.
Qed.

Lemma reachable_consistent self : reachable self -> consistent self.
Proof.
  induction 1 as [| c self _ IH]; [apply consistent_init | now apply consistent_step].
Qed.

(** What a smoothed call for machine [m] returns, against the history. *)
Lemma predict_smoothed_return now sd m self self' r h :
  consistent self ->
  predict_rul now sd m false self = (self', (r, h)) ->
  history_of self' m <> [] /\
  r == Num.round (last_rul (history_of self' m)) 1 /\
  (history_of self m <> [] -> r <= Num.round (last_rul (history_of self m)) 1).
Proof.
  intros Hc E.
  destruct (predict_smoothed_cases _ _ _ _ _ _ _ E)
    as [[-> Hs] | (hist' & Eh & Es & Hne & Hcase)].
  - destruct (Hc m) as [_ Hcache]. destruct (Hcache r h Hs) as [Hn Hr].
    split; [exact Hn |]. split; [exact Hr |]. intros _. rewrite Hr. lra.
  - destruct (history_of_insert _ _ _ _ Eh) as [Hm _]. rewrite Hm.
    split; [exact Hne |].
    destruct Hcase as [(Hempty & Er & El) | (Hold & Er & _ & Hle)].
    + split.
      * rewrite El, Er. destruct (raw_rul_shape sd m) as (x & Hx & ->).
        symmetry. apply round_idempotent.
      * intros H. now exfalso.
    + split; [rewrite Er; reflexivity |].
      intros _. rewrite Er. apply round_mono, Hle.
      destruct (Hc m) as [H0 _]. now apply H0.
Qed.

(** A call for another machine leaves this machine's history alone. *)
Lemma step_other_machine c m self :
  match c with Predict _ _ m' _ => m' <> m | Reset m' => m' <> m end ->
  history_of (fst (step c self)) m = history_of self m.
Proof.
  destruct c as [now sd m' b | m']; intros Hne; cbn [step].
  - destruct b.
    + cbn. unfold history_of. cbn. now rewrite lookup_delete_ne.
    + destruct (predict_rul now sd m' false self) as [self' [r h]] eqn:E. cbn.
      destruct (predict_smoothed_cases _ _ _ _ _ _ _ E)
        as [[-> _] | (hist' & Eh & _)]; [reflexivity |].
      destruct (history_of_insert _ _ _ _ Eh) as [_ Hother].
      apply Hother. congruence.
  - cbn. unfold history_of, reset_machine. cbn.
    destruct (prediction_history self !! m'); [| reflexivity].
    now rewrite lookup_insert_ne.
Qed.

Lemma non_increasing_cons a l :
  non_increasing (a :: l) <-> head_at_most a l /\ non_increasing l.
Proof. destruct l; simpl; tauto. Qed.

Lemma head_at_most_le u v l : u <= v -> head_at_most u l -> head_at_most v l.
Proof. destruct l; simpl; [trivial | intros; lra]. Qed.

Lemma run_cons c cs self :
  run (c :: cs) self =
  (fst (run cs (fst (step c self))),
   match snd (step c self) with
   | Some x => x :: snd (run cs (fst (step c self)))
   | None => snd (run cs (fst (step c self)))
   end).
Proof.
  cbn [run]. destruct (step c self) as [self1 r]. cbn [fst snd].
  destruct (run cs self1) as [self2 rs]. reflexivity.
Qed.

Lemma run_undisturbed_non_increasing m cs : forall self,
  consistent self ->
  Forall (fun c => clears m c = false) cs ->
  non_increasing (returned_rul m (snd (run cs self))) /\
  (history_of self m <> [] ->
   head_at_most (Num.round (last_rul (history_of self m)) 1)
                (returned_rul m (snd (run cs self)))).
Proof.
  induction cs as [| c cs IH]; intros self Hc Hall.
  - cbn. split; [exact I | intros _; exact I].
  - inversion Hall as [| ? ? Hcl Hrest]; subst.
    pose proof (consistent_step c self Hc) as Hc1.
    destruct (IH _ Hc1 Hrest) as [Hni Hhead].
    rewrite run_cons. cbn [snd].
    destruct c as [now sd m' b | m'].
    + destruct (decide (m' = m)) as [-> | Hne].
      * (* a smoothed prediction for this machine *)
        cbn in Hcl. rewrite bool_decide_eq_true_2 in Hcl by reflexivity.
        rewrite andb_true_r in Hcl. subst b.
        cbn [step] in *.
        destruct (predict_rul now sd m false self) as [self1 [r h]] eqn:E.
        cbn [fst snd] in *.
        destruct (predict_smoothed_return _ _ _ _ _ _ _ Hc E) as (Hne1 & Heq & Hle).
        unfold returned_rul in *. cbn [List.filter fst snd].
        rewrite bool_decide_eq_true_2 by reflexivity. cbn [List.map fst snd].
        split.
        -- apply non_increasing_cons. split; [| exact Hni].
           eapply head_at_most_le; [| exact (Hhead Hne1)]. rewrite Heq. lra.
        -- intros Hn. cbn. now apply Hle.
      * (* a prediction for another machine *)
        pose proof (step_other_machine (Predict now sd m' b) m self Hne) as Hsame.
        cbn [step] in *.
        destruct (predict_rul now sd m' b self) as [self1 r] eqn:E.
        cbn [fst snd] in *.
        unfold returned_rul in *. cbn [List.filter fst snd].
        rewrite bool_decide_eq_false_2 by exact Hne.
        rewrite <- Hsame. split; [exact Hni | exact Hhead].
    + (* the reset of another machine *)
      cbn in Hcl. apply bool_decide_eq_false in Hcl.
      pose proof (step_other_machine (Reset m') m self Hcl) as Hsame.
      cbn [step fst snd] in *.
      rewrite <- Hsame. split; [exact Hni | exact Hhead].
Qed.

End Stabilizer.

(** C4: from any state the stabilizer can reach, over any sequence of calls
    (for any machines, at any clock readings) that contains neither a
    [predict_rul] with [bypass_smoothing = true] for machine [m] nor a
    [reset_machine] of [m], each [rul_hours] returned for [m] is at most the
    one returned for [m] before it. *)
Theorem stabilized_rul_non_increasing (self : StabilizedRULPredictor.t)
    (cs : list StabilizedRULPredictor.call) (m : string) :
  StabilizedRULPredictor.reachable self ->
  Forall (fun c => StabilizedRULPredictor.clears m c = false) cs ->
  StabilizedRULPredictor.non_increasing
    (StabilizedRULPredictor.returned_rul m
       (snd (StabilizedRULPredictor.run cs self))).
Proof.
  intros Hr Hall.
  apply (run_undisturbed_non_increasing m cs self); [| exact Hall].
  now apply reachable_consistent.
Qed.

Lemma stabilized_rul_non_increasing_witness :
  StabilizedRULPredictor.non_increasing
    (StabilizedRULPredictor.returned_rul "M-1"
       (snd (StabilizedRULPredictor.run StabilizerExamples.recovering_calls
               StabilizedRULPredictor.__init__))).
Proof.
  apply (stabilized_rul_non_increasing StabilizedRULPredictor.__init__
           StabilizerExamples.recovering_calls "M-1").
  - apply StabilizedRULPredictor.reachable_init.
  - repeat constructor.
Defined.

(** ** The persistence timer *)

Section Persistence.

Import AlertManager.

(** Creating an alert never touches the pending table. *)
Lemma create_keeps_pending m ty sev msg meta s :
  pending_alerts (state_of (_create_alert_if_new m ty sev msg meta s)) =
  pending_alerts s.
Proof.
  unfold _create_alert_if_new, bind, db_query, now, gets, uuid4, db_transaction,
    modify, ret.
  destruct (Database.check_duplicate_alert m ty (db s)); [reflexivity |].
  cbn. destruct (Database.create_alert _ (db s)) as [d [a | e]]; reflexivity.
Qed.

(** A duplicate makes it return [None] and change nothing at all. *)
Lemma create_duplicate m ty sev msg meta s :
  Database.check_duplicate_alert m ty (db s) = true ->
  _create_alert_if_new m ty sev msg meta s = Val None s.
Proof.
  intros H. unfold _create_alert_if_new, bind, db_query, gets, ret.
  now rewrite H.
Qed.

(** The three ways [_process_alert_with_persistence] can go. *)
Lemma process_absent m ty sev msg meta s :
  pending_alerts s !! (m, ty) = None ->
  _process_alert_with_persistence m ty sev msg meta s =
  Val None (set_pending_alerts
              (<[(m, ty) := PendingAlert.__init__ ty sev (clock s)]> (pending_alerts s)) s).
Proof.
  intros H. unfold _process_alert_with_persistence, bind, now, gets, modify, ret.
  now rewrite H.
Qed.

Lemma process_waiting m ty sev msg meta s p :
  pending_alerts s !! (m, ty) = Some p ->
  PendingAlert.is_persistent (PendingAlert.update (clock s) p)
    (Spec.persistence_seconds ty) = false ->
  _process_alert_with_persistence m ty sev msg meta s =
  Val None (set_pending_alerts
              (<[(m, ty) := PendingAlert.update (clock s) p]> (pending_alerts s)) s).
Proof.
  intros H Hp. unfold _process_alert_with_persistence, bind, now, gets, modify, ret.
  rewrite H. cbv beta iota zeta.
  unfold Spec.persistence_seconds in Hp. now rewrite Hp.
Qed.

Lemma process_persistent m ty sev msg meta s p :
  pending_alerts s !! (m, ty) = Some p ->
  PendingAlert.is_persistent (PendingAlert.update (clock s) p)
    (Spec.persistence_seconds ty) = true ->
  _process_alert_with_persistence m ty sev msg meta s =
  _create_alert_if_new m ty sev msg meta
    (set_pending_alerts (delete (m, ty) (pending_alerts s)) s).
Proof.
  intros H Hp. unfold _process_alert_with_persistence, bind, now, gets, modify, ret.
  rewrite H. cbv beta iota zeta.
  unfold Spec.persistence_seconds in Hp. rewrite Hp.
  unfold set_pending_alerts.
  cbn [pending_alerts db window_manager recent_alerts clock uuid4_hex8 uuid4_calls].
  now rewrite delete_insert_eq.
Qed.

End Persistence.

(** C2: a call of [_process_alert_with_persistence] returns an alert id, or
    changes the [alerts] table at all, only if a pending entry for
    [(machine, alert_type)] existed and, once its [last_triggered] was moved to
    the current clock reading, [last_triggered - first_triggered] was at least
    [PERSISTENCE_SECONDS[alert_type]] seconds. *)
Theorem alert_only_after_persistence (m ty sev : string)
    (msg : Database.message_t) (meta : Database.metadata_t) (s : AlertManager.t) :
  let r := AlertManager._process_alert_with_persistence m ty sev msg meta s in
  (exists alert_id, AlertManager.value_of r = Some (Some alert_id)) \/
  Database.alerts (AlertManager.db (AlertManager.state_of r)) <>
  Database.alerts (AlertManager.db s) ->
  exists p,
    AlertManager.pending_alerts s !! (m, ty) = Some p /\
    let p' := PendingAlert.update (AlertManager.clock s) p in
    PendingAlert.last_triggered p' = AlertManager.clock s /\
    (inject_Z (Spec.persistence_seconds ty) <=
     Num.total_seconds (PendingAlert.last_triggered p' -
                        PendingAlert.first_triggered p'))%Q.
Proof.
  intros r H. subst r.
  destruct (AlertManager.pending_alerts s !! (m, ty)) as [p |] eqn:Hp.
  - destruct (PendingAlert.is_persistent
                (PendingAlert.update (AlertManager.clock s) p)
                (Spec.persistence_seconds ty)) eqn:Hpers.
    + exists p. split; [reflexivity |]. split; [reflexivity |].
      apply Qleb_true. exact Hpers.
    + rewrite (process_waiting _ _ _ _ _ _ _ Hp Hpers) in H.
      destruct H as [[i H] | H]; [discriminate H | now contradiction H].
  - rewrite (process_absent _ _ _ _ _ _ Hp) in H.
    destruct H as [[i H] | H]; [discriminate H | now contradiction H].
Qed.

Lemma alert_only_after_persistence_witness :
  exists p,
    AlertManager.pending_alerts
      (AlertManager.set_clock (Num.seconds 96) ManagerExamples.before_warning)
      !! ("M-C", "warning_rul")%string = Some p /\
    let p' := PendingAlert.update (Num.seconds 96) p in
    PendingAlert.last_triggered p' = Num.seconds 96 /\
    (inject_Z (Spec.persistence_seconds "warning_rul") <=
     Num.total_seconds (PendingAlert.last_triggered p' -
                        PendingAlert.first_triggered p'))%Q.
Proof.
  apply (alert_only_after_persistence "M-C" "warning_rul" "warning"
           (Database.Msg_warning_rul 25) []
           (AlertManager.set_clock (Num.seconds 96) ManagerExamples.before_warning)).
  left. exists "ALERT-00000000"%string. vm_compute. reflexivity.
Defined.

(** C10: when the pending entry exists and its persistence window is met,
    [_process_alert_with_persistence] leaves no pending entry for
    [(machine, alert_type)], whatever the creation then does; if the store
    already holds an open alert of that pair the call returns [None] and the
    store is unchanged; and the next call for the pair, at any later clock
    reading, returns [None] and starts a new entry whose [first_triggered] is
    that reading. *)
Theorem persistence_met_clears_pending (m ty sev : string)
    (msg : Database.message_t) (meta : Database.metadata_t)
    (s : AlertManager.t) (p : PendingAlert.t) :
  AlertManager.pending_alerts s !! (m, ty) = Some p ->
  PendingAlert.is_persistent (PendingAlert.update (AlertManager.clock s) p)
    (Spec.persistence_seconds ty) = true ->
  let r := AlertManager._process_alert_with_persistence m ty sev msg meta s in
  AlertManager.pending_alerts (AlertManager.state_of r) !! (m, ty) = None /\
  (Database.check_duplicate_alert m ty (AlertManager.db s) = true ->
   AlertManager.value_of r = Some None /\
   AlertManager.db (AlertManager.state_of r) = AlertManager.db s) /\
  (forall c sev' msg' meta',
     let r' := AlertManager._process_alert_with_persistence m ty sev' msg' meta'
                 (AlertManager.set_clock c (AlertManager.state_of r)) in
     AlertManager.value_of r' = Some None /\
     AlertManager.pending_alerts (AlertManager.state_of r') !! (m, ty) =
       Some (PendingAlert.__init__ ty sev' c) /\
     AlertManager.db (AlertManager.state_of r') =
       AlertManager.db (AlertManager.state_of r)).
Proof.
  intros Hp Hpers r. subst r.
  rewrite (process_persistent _ _ _ _ _ _ _ Hp Hpers).
  assert (Hgone :
    AlertManager.pending_alerts
      (AlertManager.state_of
         (AlertManager._create_alert_if_new m ty sev msg meta
            (AlertManager.set_pending_alerts
               (delete (m, ty) (AlertManager.pending_alerts s)) s)))
      !! (m, ty) = None).
  { rewrite create_keeps_pending. cbn. apply lookup_delete_eq. }
  split; [exact Hgone |]. split.
  - intros Hdup. rewrite create_duplicate by exact Hdup. split; reflexivity.
  - intros c sev' msg' meta' r'. subst r'.
    rewrite process_absent by exact Hgone. cbn.
    split; [reflexivity |]. split; [apply lookup_insert_eq | reflexivity].
Qed.

Lemma persistence_met_clears_pending_witness :
  let r := AlertManager._process_alert_with_persistence "M-C" "warning_rul"
             "warning" (Database.Msg_warning_rul 24) []
             DuplicateExample.before_duplicate in
  AlertManager.pending_alerts (AlertManager.state_of r)
    !! ("M-C", "warning_rul")%string = None /\
  AlertManager.value_of r = Some None /\
  AlertManager.db (AlertManager.state_of r) =
  AlertManager.db DuplicateExample.before_duplicate.
Proof.
  pose proof
    (fun p H1 H2 =>
       persistence_met_clears_pending "M-C" "warning_rul" "warning"
         (Database.Msg_warning_rul 24) [] DuplicateExample.before_duplicate p H1 H2)
    as H.
  specialize (H {| PendingAlert.alert_type := "warning_rul";
                   PendingAlert.severity := "warning";
                   PendingAlert.first_triggered := 112000000;
                   PendingAlert.last_triggered := 160000000;
                   PendingAlert.trigger_count := 2 |}).
  destruct H as (Hgone & Hdup & _).
  - vm_compute. reflexivity.
  - vm_compute. reflexivity.
  - split; [exact Hgone |]. apply Hdup. vm_compute. reflexivity.
Defined.

(** ** The store: one open alert per machine and type *)

Section Store.

Import Database.

Lemma filter_length_map_le {A} (p : A -> bool) (g : A -> A) (l : list A) :
  (forall a, p (g a) = true -> p a = true) ->
  (length (List.filter p (List.map g l)) <= length (List.filter p l))%nat.
Proof.
  intros H. induction l as [| a l IH]; simpl; [lia |].
  destruct (p (g a)) eqn:E.
  - rewrite (H a E). simpl. lia.
  - destruct (p a); simpl; lia.
Qed.

(** An [UPDATE] that never opens a row keeps the invariant. *)
Lemma unique_open_update cond f logs (d : t) :
  (forall r, cond r = true ->
     machine_id (f r) = machine_id r /\ alert_type (f r) = alert_type r /\
     (is_open (state (f r)) = true -> is_open (state r) = true)) ->
  Reach.unique_open d ->
  Reach.unique_open {| alerts := fst (update_where cond f (alerts d));
                       maintenance_logs := logs |}.
Proof.
  intros Hf Hu m ty. specialize (Hu m ty).
  unfold open_count in *. cbn.
  eapply Nat.le_trans; [| exact Hu].
  apply filter_length_map_le. intros r.
  destruct (cond r) eqn:Hc; [| trivial].
  destruct (Hf r Hc) as (-> & -> & Ho).
  rewrite !andb_true_iff. intros [[? ?] ?]. auto.
Qed.

Lemma acknowledge_keeps_unique now alert_id operator_id (d : t) :
  Reach.unique_open d ->
  Reach.unique_open (fst (acknowledge_alert now alert_id operator_id d)).
Proof.
  intros Hu. unfold acknowledge_alert.
  match goal with
  | |- context [update_where ?c ?f (alerts d)] =>
      pose proof (unique_open_update c f (maintenance_logs d) d) as H;
      destruct (update_where c f (alerts d)) as [rows n] eqn:E
  end.
  cbn in *. apply H; [| exact Hu].
  intros r Hc. apply andb_true_iff in Hc as [_ Hs].
  destruct (state r); try discriminate. cbn. auto.
Qed.

Lemma resolve_keeps_unique now alert_id operator_id cause notes downtime (d : t) :
  Reach.unique_open d ->
  Reach.unique_open
    (fst (resolve_alert now alert_id operator_id cause notes downtime d)).
Proof.
  intros Hu. unfold resolve_alert.
  destruct (get_alert alert_id d) as [alert |]; [| exact Hu].
  destruct (negb (fits_integer downtime)); [exact Hu |].
  match goal with
  | |- context [update_where ?c ?f (alerts d)] =>
      pose proof (fun logs => unique_open_update c f logs d) as H;
      destruct (update_where c f (alerts d)) as [rows n] eqn:E
  end.
  cbn in H.
  assert (Hf : forall r : alert_row,
             String.eqb (id r) alert_id && is_resolvable (state r) = true ->
             machine_id (set_resolved operator_id now notes cause downtime r) =
               machine_id r /\
             alert_type (set_resolved operator_id now notes cause downtime r) =
               alert_type r /\
             (is_open (state (set_resolved operator_id now notes cause downtime r))
                = true -> is_open (state r) = true)).
  { intros r _. cbn. repeat split. discriminate. }
  destruct (n =? 0)%nat; cbn.
  - apply H; assumption.
  - destruct (existsb _ _); cbn; [exact Hu | apply H; assumption].
Qed.

Lemma cleanup_keeps_unique now (d : t) :
  Reach.unique_open d -> Reach.unique_open (fst (cleanup_old_data now d)).
Proof.
  intros Hu. unfold cleanup_old_data.
  match goal with
  | |- context [update_where ?c ?f (alerts d)] =>
      pose proof (fun logs => unique_open_update c f logs d) as H;
      destruct (update_where c f (alerts d)) as [rows n] eqn:E
  end.
  cbn in *. apply H; [| exact Hu].
  intros r _. cbn. repeat split. discriminate.
Qed.

Lemma check_duplicate_count m ty (d : t) :
  check_duplicate_alert m ty d = (0 <? open_count m ty d)%nat.
Proof. reflexivity. Qed.

(** An insert after a negative duplicate check keeps the invariant. *)
Lemma create_keeps_unique data (d : t) :
  check_duplicate_alert (d_machine_id data) (d_alert_type data) d = false ->
  Reach.unique_open d ->
  Reach.unique_open (fst (create_alert data d)).
Proof.
  intros Hdup Hu. unfold create_alert.
  destruct (existsb _ (alerts d)); [exact Hu |].
  intros m ty. specialize (Hu m ty). cbn.
  rewrite check_duplicate_count in Hdup. apply Nat.ltb_ge in Hdup.
  unfold open_count in *. cbn. rewrite List.filter_app, length_app. cbn.
  destruct (String.eqb (d_machine_id data) m) eqn:Em; cbn; [| lia].
  destruct (String.eqb (d_alert_type data) ty) eqn:Et; cbn; [| lia].
  apply String.eqb_eq in Em, Et. subst m ty. lia.
Qed.

Lemma holds_open_duplicate m ty (d : t) :
  Reach.holds_open m ty d <-> check_duplicate_alert m ty d = true.
Proof.
  rewrite check_duplicate_count, Nat.ltb_lt. unfold open_count. split.
  - intros (r & Hin & Hm & Ht & Ho).
    assert (Hf : In r (List.filter
                         (fun r => String.eqb (machine_id r) m &&
                                   String.eqb (alert_type r) ty &&
                                   is_open (state r)) (alerts d))).
    { apply filter_In. split; [exact Hin |].
      rewrite Hm, Ht, Ho, !String.eqb_refl. reflexivity. }
    destruct (List.filter _ (alerts d)); [destruct Hf | cbn; lia].
  - intros Hlen.
    destruct (List.filter _ (alerts d)) as [| r l] eqn:E; [cbn in Hlen; lia |].
    assert (Hf : In r (r :: l)) by now left.
    rewrite <- E in Hf. apply filter_In in Hf as [Hin Hp].
    rewrite !andb_true_iff in Hp. destruct Hp as [[Hm Ht] Ho].
    apply String.eqb_eq in Hm, Ht. exists r. auto.
Qed.

End Store.

(** ** The manager keeps the invariant *)

Section ManagerInvariant.

Import AlertManager Reach.

Variable P : Database.t -> Prop.

Lemma keeps_ret {A} (a : A) : keeps P (ret a).
Proof. intros s H. exact H. Qed.

Lemma keeps_bind {A B} (m : M A) (k : A -> M B) :
  keeps P m -> (forall a, keeps P (k a)) -> keeps P (bind m k).
Proof.
  intros Hm Hk s H. unfold bind. specialize (Hm s H).
  destruct (m s) as [a s' | e s']; cbn in *; [now apply Hk | exact Hm].
Qed.

Lemma keeps_untouched {A} (m : M A) : store_untouched m -> keeps P m.
Proof. intros Hm s H. now rewrite Hm. Qed.

Lemma keeps_db_write {A} (w : Database.t -> Database.t * A) :
  (forall d, P d -> P (fst (w d))) -> keeps P (db_write w).
Proof.
  intros Hw s H. unfold db_write. specialize (Hw (db s) H).
  destruct (w (db s)) as [d a]. exact Hw.
Qed.

Lemma keeps_db_transaction {A} (w : Database.t -> Database.t * Database.outcome A) :
  (forall d, P d -> P (fst (w d))) -> keeps P (db_transaction w).
Proof.
  intros Hw s H. unfold db_transaction. specialize (Hw (db s) H).
  destruct (w (db s)) as [d [a | e]]; exact Hw.
Qed.

End ManagerInvariant.

Section ManagerSteps.

Import AlertManager Reach.

Lemma untouched_ret {A} (a : A) : store_untouched (ret a).
Proof. intros s. reflexivity. Qed.

Lemma untouched_bind {A B} (m : M A) (k : A -> M B) :
  store_untouched m -> (forall a, store_untouched (k a)) ->
  store_untouched (bind m k).
Proof.
  intros Hm Hk s. unfold bind. specialize (Hm s).
  destruct (m s) as [a s' | e s']; cbn in *; [now rewrite Hk | exact Hm].
Qed.

Lemma untouched_now : store_untouched now.
Proof. intros s. reflexivity. Qed.

Lemma untouched_gets {A} (f : t -> A) : store_untouched (gets f).
Proof. intros s. reflexivity. Qed.

Lemma untouched_modify (f : t -> t) :
  (forall s, db (f s) = db s) -> store_untouched (modify f).
Proof. intros H s. apply H. Qed.

Lemma untouched_clear_pending m ty : store_untouched (_clear_pending_alert m ty).
Proof. intros s. reflexivity. Qed.

Lemma untouched_cleanup_pending : store_untouched _cleanup_old_pending_alerts.
Proof. intros s. reflexivity. Qed.

Lemma untouched_cleanup_rate : store_untouched _cleanup_old_rate_limit_data.
Proof. intros s. reflexivity. Qed.

Lemma untouched_check_rate m : store_untouched (_check_rate_limit m).
Proof. intros s. reflexivity. Qed.

Lemma untouched_add_sample m ty risk health rul sensors :
  store_untouched (wm_add_sample m ty risk health rul sensors).
Proof. intros s. reflexivity. Qed.

Lemma untouched_evaluate m ty : store_untouched (wm_evaluate m ty).
Proof.
  intros s. unfold wm_evaluate, bind, now, gets.
  destruct (EvaluationWindowManager.evaluate _ _ _ _) as [w ev]. reflexivity.
Qed.

Lemma untouched_feed tys m risk health rul sensors :
  store_untouched (feed_windows tys m risk health rul sensors).
Proof.
  induction tys as [| ty tys IH]; cbn.
  - apply untouched_ret.
  - apply untouched_bind; [apply untouched_add_sample | intros _; exact IH].
Qed.

Lemma keeps_create m ty sev msg meta :
  keeps unique_open (_create_alert_if_new m ty sev msg meta).
Proof.
  intros s H. unfold _create_alert_if_new, bind, db_query, now, gets.
  destruct (Database.check_duplicate_alert m ty (db s)) eqn:Hdup; [exact H |].
  unfold uuid4, db_transaction. cbn.
  match goal with
  | |- context [Database.create_alert ?data (db s)] =>
      pose proof (create_keeps_unique data (db s) Hdup H) as Hc;
      destruct (Database.create_alert data (db s)) as [d [a | e]]
  end; exact Hc.
Qed.

Lemma keeps_process m ty sev msg meta :
  keeps unique_open (_process_alert_with_persistence m ty sev msg meta).
Proof.
  intros s H.
  destruct (pending_alerts s !! (m, ty)) as [p |] eqn:Hp.
  - destruct (PendingAlert.is_persistent (PendingAlert.update (clock s) p)
                (Spec.persistence_seconds ty)) eqn:Hpers.
    + rewrite (process_persistent _ _ _ _ _ _ _ Hp Hpers).
      now apply keeps_create.
    + now rewrite (process_waiting _ _ _ _ _ _ _ Hp Hpers).
  - now rewrite (process_absent _ _ _ _ _ _ Hp).
Qed.

Ltac keeps_tac :=
  repeat first
    [ apply keeps_ret
    | apply keeps_process
    | apply keeps_untouched;
      first [ apply untouched_clear_pending | apply untouched_cleanup_pending
            | apply untouched_cleanup_rate | apply untouched_check_rate
            | apply untouched_evaluate | apply untouched_feed
            | apply untouched_ret ]
    | apply keeps_bind; [| intros ?]
    | match goal with
      | |- keeps _ (if ?b then _ else _) => destruct b
      end ].

Lemma keeps_check_and_create m sd rul health is_anomaly score :
  keeps unique_open (check_and_create_alerts m sd rul health is_anomaly score).
Proof.
  unfold check_and_create_alerts, rul_section, health_section, anomaly_section.
  keeps_tac.
Qed.

Lemma keeps_acknowledge alert_id operator_id :
  keeps unique_open (acknowledge_alert alert_id operator_id).
Proof.
  unfold acknowledge_alert.
  destruct (too_short operator_id 3); [apply keeps_ret |].
  apply keeps_bind; [apply keeps_untouched, untouched_gets |].
  intros [a |]; [| apply keeps_ret].
  destruct (Database.state a); try apply keeps_ret.
  apply keeps_bind; [apply keeps_untouched, untouched_now |]. intros t_now.
  apply keeps_bind.
  - apply keeps_db_write. intros d. apply acknowledge_keeps_unique.
  - intros [|]; [| apply keeps_ret].
    apply keeps_bind; [apply keeps_untouched, untouched_now |].
    intros ?. apply keeps_ret.
Qed.

Lemma keeps_resolve alert_id operator_id cause notes downtime :
  keeps unique_open (resolve_alert alert_id operator_id cause notes downtime).
Proof.
  unfold resolve_alert.
  destruct (too_short operator_id 3); [apply keeps_ret |].
  destruct (too_short cause _); [apply keeps_ret |].
  destruct (too_short notes _); [apply keeps_ret |].
  destruct (downtime <? 0); [apply keeps_ret |].
  apply keeps_bind; [apply keeps_untouched, untouched_gets |].
  intros [a |]; [| apply keeps_ret].
  destruct (negb _); [apply keeps_ret |].
  apply keeps_bind; [apply keeps_untouched, untouched_now |]. intros t_now.
  apply keeps_bind.
  - apply keeps_db_transaction. intros d. apply resolve_keeps_unique.
  - intros [|]; [| apply keeps_ret].
    apply keeps_bind; [apply keeps_untouched, untouched_now |].
    intros ?. apply keeps_ret.
Qed.

Lemma reachable_unique_open s : reachable s -> unique_open (db s).
Proof.
  induction 1 as [c u | c s _ IH | m sd rul h ia sc s _ IH | a o s _ IH
                 | a o c n dt s _ IH | s _ IH | logs s _ IH].
  - intros m ty. cbn. lia.
  - exact IH.
  - now apply keeps_check_and_create.
  - now apply keeps_acknowledge.
  - now apply keeps_resolve.
  - apply (keeps_db_write unique_open); [| exact IH].
    intros d. apply cleanup_keeps_unique.
  - intros m ty. specialize (IH m ty). exact IH.
Qed.

Lemma submit_all_cons m x xs s :
  fst (Scenario.submit_all m (x :: xs) s) =
  fst (Scenario.submit_all m xs (state_of (Scenario.submit m x s))).
Proof.
  cbn [Scenario.submit_all].
  destruct (Scenario.submit_all m xs (state_of (Scenario.submit m x s))).
  reflexivity.
Qed.

Lemma submit_all_reachable m xs : forall s,
  reachable s -> reachable (fst (Scenario.submit_all m xs s)).
Proof.
  induction xs as [| x xs IH]; intros s H; [exact H |].
  rewrite submit_all_cons. apply IH. unfold Scenario.submit.
  apply reach_check, reach_tick, H.
Qed.

End ManagerSteps.

(** C1: in every state the manager can reach, each [(machine_id, alert_type)]
    has at most one row whose state is ACTIVE, ACKNOWLEDGED or IN_PROGRESS;
    and whenever the store holds such a row, [_create_alert_if_new] for that
    pair returns [None] and leaves everything as it was. *)
Theorem at_most_one_open_alert (s : AlertManager.t) :
  Reach.reachable s ->
  (forall machine alert_ty,
     (Database.open_count machine alert_ty (AlertManager.db s) <= 1)%nat) /\
  (forall machine alert_ty sev msg meta,
     Reach.holds_open machine alert_ty (AlertManager.db s) ->
     AlertManager._create_alert_if_new machine alert_ty sev msg meta s =
     AlertManager.Val None s).
Proof.
  intros H. split.
  - exact (reachable_unique_open s H).
  - intros m ty sev msg meta Ho.
    apply create_duplicate, holds_open_duplicate, Ho.
Qed.

Lemma at_most_one_open_alert_witness :
  (Database.open_count "M-C" "warning_rul"
     (AlertManager.db ManagerExamples.after_burst) <= 1)%nat /\
  AlertManager._create_alert_if_new "M-C" "warning_rul" "warning"
    (Database.Msg_warning_rul 18) [] ManagerExamples.after_burst =
  AlertManager.Val None ManagerExamples.after_burst.
Proof.
  destruct (at_most_one_open_alert ManagerExamples.after_burst) as [Hc Hd].
  - apply submit_all_reachable, Reach.reach_init.
  - split; [apply Hc |]. apply Hd.
    apply holds_open_duplicate. vm_compute. reflexivity.
Defined.

(** ** Resolving an alert *)

Section Resolution.

Import AlertManager.

Lemma too_short_false s n :
  (0 < n)%nat -> too_short s n = false <-> (n <= Num.len s)%nat.
Proof.
  intros Hn. unfold too_short. rewrite orb_false_iff, Nat.ltb_ge. split.
  - tauto.
  - intros H. split; [| exact H].
    destruct s; [cbn in H; lia | reflexivity].
Qed.

(** A character takes at least one byte. *)
Lemma len_le_length s : (Num.len s <= String.length s)%nat.
Proof.
  induction s as [| c s IH]; cbn [Num.len String.length]; [lia |].
  destruct (Num.is_continuation c); lia.
Qed.






End Resolution.




(** ** Two runs of [check_and_create_alerts] *)

(** C3, on the code: machine M-C is sampled every 16 s.  The call at second
    96 creates two alerts (warning RUL and warning health); the calls at
    seconds 112, 128 and 144 each pass the rate check, because only two
    emissions are on record, and the call at second 144 creates three more
    (critical RUL, critical health, anomaly).  Five alerts of one machine are
    created within 48 seconds, with the limit at three per minute. *)
Theorem five_alerts_within_a_minute :
  snd (Scenario.submit_all "M-C" Scenario.burst_trace Scenario.initial) =
    [ Some []; Some []; Some []; Some []; Some []; Some [];
      Some ["ALERT-00000000"; "ALERT-00000001"];
      Some []; Some [];
      Some ["ALERT-00000002"; "ALERT-00000003"; "ALERT-00000004"] ]%string /\
  length (Scenario.created_between "M-C" (Num.seconds 96) (Num.seconds 144)
            ManagerExamples.after_burst) = 5%nat /\
  Num.seconds 144 - Num.seconds 96 < Num.seconds 60 /\
  Config.MAX_ALERTS_PER_MACHINE_PER_MINUTE = 3%nat.
Proof.
  split; [vm_compute; reflexivity |].
  split; [vm_compute; reflexivity |].
  split; [vm_compute; reflexivity | reflexivity].
Qed.

(** C7, on the code: machine M-D has pending entries for [critical_rul] and
    [low_health_critical]; the next sample has RUL 30 h, strictly above
    [RUL_CRITICAL_CLEAR] = 28, and health 40, strictly above
    [HEALTH_CRITICAL_CLEAR] = 35.  The call is not rate limited, and both
    pending entries are still there after it. *)
Theorem critical_pending_survives_value_above_clear :
  (Config.RUL_CRITICAL_CLEAR < Scenario.rul_hours Scenario.recovering_sample)%Q /\
  (Config.HEALTH_CRITICAL_CLEAR <
   Scenario.health_score Scenario.recovering_sample)%Q /\
  AlertManager.recent_alerts ManagerExamples.critical_pending !! "M-D"%string
    = Some [] /\
  AlertManager.value_of
    (Scenario.submit "M-D" Scenario.recovering_sample
       ManagerExamples.critical_pending) = Some [] /\
  AlertManager.pending_alerts ManagerExamples.after_recovering
    !! ("M-D", "critical_rul")%string =
  Some {| PendingAlert.alert_type := "critical_rul";
          PendingAlert.severity := "critical";
          PendingAlert.first_triggered := Num.seconds 32;
          PendingAlert.last_triggered := Num.seconds 32;
          PendingAlert.trigger_count := 1 |} /\
  AlertManager.pending_alerts ManagerExamples.after_recovering
    !! ("M-D", "low_health_critical")%string =
  Some {| PendingAlert.alert_type := "low_health_critical";
          PendingAlert.severity := "critical";
          PendingAlert.first_triggered := Num.seconds 32;
          PendingAlert.last_triggered := Num.seconds 32;
          PendingAlert.trigger_count := 1 |}.
Proof. repeat split; vm_compute; reflexivity. Qed.

(** ** What a call does to the pending entries *)

Section Release.

Import AlertManager Hysteresis.

Lemma bind_val {A B} (m : M A) (k : A -> M B) s b s'' :
  bind m k s = Val b s'' -> exists a s', m s = Val a s' /\ k a s' = Val b s''.
Proof.
  unfold bind. destruct (m s) as [a s' | e s']; [| discriminate].
  intros H. now exists a, s'.
Qed.

Variable key : string * string.

Lemma frames_ret {A} (a : A) : frames key (ret a).
Proof. intros s a' s' [= _ <-]. reflexivity. Qed.

Lemma frames_bind {A B} (m : M A) (k : A -> M B) :
  frames key m -> (forall a, frames key (k a)) -> frames key (bind m k).
Proof.
  intros Hm Hk s b s'' H. apply bind_val in H as (a & s' & H1 & H2).
  rewrite (Hk a s' b s'' H2). exact (Hm s a s' H1).
Qed.

Lemma clears_bind_l {A B} (m : M A) (k : A -> M B) :
  clears key m -> (forall a, frames key (k a)) -> clears key (bind m k).
Proof.
  intros Hm Hk s b s'' H. apply bind_val in H as (a & s' & H1 & H2).
  rewrite (Hk a s' b s'' H2). exact (Hm s a s' H1).
Qed.

Lemma clears_bind_r {A B} (m : M A) (k : A -> M B) :
  (forall a, clears key (k a)) -> clears key (bind m k).
Proof.
  intros Hk s b s'' H. apply bind_val in H as (a & s' & H1 & H2).
  exact (Hk a s' b s'' H2).
Qed.

Lemma frames_evaluate m ty : frames key (wm_evaluate m ty).
Proof.
  intros s a s'. unfold wm_evaluate, bind, now, gets.
  destruct (EvaluationWindowManager.evaluate _ _ _ _) as [w ev].
  intros [= _ <-]. reflexivity.
Qed.

Lemma frames_feed tys m risk health rul sensors :
  frames key (feed_windows tys m risk health rul sensors).
Proof.
  induction tys as [| ty tys IH]; cbn.
  - apply frames_ret.
  - apply frames_bind; [| intros _; exact IH].
    intros s a s' [= _ <-]. reflexivity.
Qed.

Lemma frames_create m ty sev msg meta :
  frames key (_create_alert_if_new m ty sev msg meta).
Proof.
  intros s a s' H.
  pose proof (create_keeps_pending m ty sev msg meta s) as E.
  rewrite H in E. cbn in E. now rewrite E.
Qed.

Lemma frames_process m ty sev msg meta :
  (m, ty) <> key -> frames key (_process_alert_with_persistence m ty sev msg meta).
Proof.
  intros Hne s a s' H.
  destruct (pending_alerts s !! (m, ty)) as [p |] eqn:Hp.
  - destruct (PendingAlert.is_persistent (PendingAlert.update (clock s) p)
                (Spec.persistence_seconds ty)) eqn:Hpers.
    + rewrite (process_persistent _ _ _ _ _ _ _ Hp Hpers) in H.
      rewrite (frames_create _ _ _ _ _ _ _ _ H). cbn.
      now apply lookup_delete_ne.
    + rewrite (process_waiting _ _ _ _ _ _ _ Hp Hpers) in H.
      injection H as _ <-. cbn. now apply lookup_insert_ne.
  - rewrite (process_absent _ _ _ _ _ _ Hp) in H.
    injection H as _ <-. cbn. now apply lookup_insert_ne.
Qed.

Lemma frames_clear m ty : (m, ty) <> key -> frames key (_clear_pending_alert m ty).
Proof.
  intros Hne s a s' [= _ <-]. cbn. now apply lookup_delete_ne.
Qed.

Lemma clears_clear m ty : (m, ty) = key -> clears key (_clear_pending_alert m ty).
Proof.
  intros <- s a s' [= _ <-]. cbn. apply lookup_delete_eq.
Qed.

End Release.

Section ReleaseSections.

Import AlertManager Hysteresis.

(** Each section touches only the entries of its own two alert types. *)
Ltac frames_tac :=
  repeat first
    [ apply frames_ret
    | apply frames_evaluate
    | apply frames_process; congruence
    | apply frames_clear; congruence
    | apply frames_bind; [| intros ?]
    | match goal with
      | |- frames _ (if ?b then _ else _) => destruct b
      end ].

Lemma frames_rul_section key m sd rul created :
  key <> (m, "critical_rul"%string) -> key <> (m, "warning_rul"%string) ->
  frames key (rul_section m sd rul created).
Proof. intros H1 H2. unfold rul_section. frames_tac. Qed.

Lemma frames_health_section key m sd health created :
  key <> (m, "low_health_critical"%string) ->
  key <> (m, "low_health_warning"%string) ->
  frames key (health_section m sd health created).
Proof. intros H1 H2. unfold health_section. frames_tac. Qed.

Lemma frames_anomaly_section key m sd ia score created :
  key <> (m, "anomaly_detected"%string) ->
  frames key (anomaly_section m sd ia score created).
Proof. intros H1. unfold anomaly_section. frames_tac. Qed.

(** Above the warning trigger the RUL section runs its [else] branch. *)
Lemma rul_section_released m sd rul created :
  (Config.RUL_WARNING_TRIGGER <= rul)%Q ->
  rul_section m sd rul created =
  bind (if Num.Qltb Config.RUL_WARNING_CLEAR rul
        then _clear_pending_alert m "warning_rul" else ret tt)
       (fun _ =>
          bind (if Num.Qltb Config.RUL_CRITICAL_CLEAR rul
                then _clear_pending_alert m "critical_rul" else ret tt)
               (fun _ => ret created)).
Proof.
  intros H. unfold rul_section.
  assert (E1 : Num.Qltb rul Config.RUL_CRITICAL_TRIGGER = false).
  { apply Qltb_false. unfold Config.RUL_CRITICAL_TRIGGER, Config.RUL_WARNING_TRIGGER in *.
    lra. }
  assert (E2 : Num.Qltb rul Config.RUL_WARNING_TRIGGER = false)
    by (apply Qltb_false; exact H).
  now rewrite E1, E2.
Qed.

Lemma health_section_released m sd health created :
  (Config.HEALTH_WARNING_TRIGGER <= health)%Q ->
  health_section m sd health created =
  bind (if Num.Qltb Config.HEALTH_WARNING_CLEAR health
        then _clear_pending_alert m "low_health_warning" else ret tt)
       (fun _ =>
          bind (if Num.Qltb Config.HEALTH_CRITICAL_CLEAR health
                then _clear_pending_alert m "low_health_critical" else ret tt)
               (fun _ => ret created)).
Proof.
  intros H. unfold health_section.
  assert (E1 : Num.Qltb health Config.HEALTH_CRITICAL_TRIGGER = false).
  { apply Qltb_false.
    unfold Config.HEALTH_CRITICAL_TRIGGER, Config.HEALTH_WARNING_TRIGGER in *. lra. }
  assert (E2 : Num.Qltb health Config.HEALTH_WARNING_TRIGGER = false)
    by (apply Qltb_false; exact H).
  now rewrite E1, E2.
Qed.

Lemma filter_idempotent {A} (p : A -> bool) (l : list A) :
  List.filter p (List.filter p l) = List.filter p l.
Proof.
  induction l as [| a l IH]; cbn; [reflexivity |].
  destruct (p a) eqn:E; cbn; [rewrite E, IH |]; auto.
Qed.

(** The emissions on record for a machine are the same list, pruned, before
    and after [_cleanup_old_rate_limit_data]. *)
Lemma recent_after_cleanup m s :
  List.filter (fun t => clock s - Num.seconds 60 <? t)
    (default [] (recent_alerts (state_of (_cleanup_old_rate_limit_data s)) !! m)) =
  List.filter (fun t => clock s - Num.seconds 60 <? t)
    (default [] (recent_alerts s !! m)).
Proof.
  unfold _cleanup_old_rate_limit_data, bind, now, gets, modify.
  cbn [state_of recent_alerts set_recent_alerts].
  rewrite lookup_omap.
  destruct (recent_alerts s !! m) as [l |]; [| reflexivity].
  pose proof (filter_idempotent (fun t => clock s - Num.seconds 60 <? t) l) as Hi.
  cbn.
  destruct (List.filter (fun t => clock s - Num.seconds 60 <? t) l) eqn:Ef;
    [reflexivity | exact Hi].
Qed.

(** The call up to and including the rate check. *)
Lemma check_and_create_prefix m sd rul health ia score s ids s' :
  check_and_create_alerts m sd rul health ia score s = Val ids s' ->
  admitted m s = true ->
  exists s0,
    pending_alerts s0 = pending_alerts (state_of (_cleanup_old_pending_alerts s)) /\
    bind (feed_windows
            [ "warning_rul"; "critical_rul"; "low_health_warning";
              "low_health_critical"; "anomaly_detected" ]%string
            m (calculate_risk_score rul health score) health rul sd)
         (fun _ =>
            bind (rul_section m sd rul [])
                 (fun created =>
                    bind (health_section m sd health created)
                         (fun created => anomaly_section m sd ia score created)))
         s0 = Val ids s'.
Proof.
  intros H Hadm. unfold check_and_create_alerts in H.
  apply bind_val in H as ([] & s1 & H1 & H).
  apply bind_val in H as ([] & s2 & H2 & H).
  apply bind_val in H as (allowed & s3 & H3 & H).
  assert (E1 : s1 = state_of (_cleanup_old_pending_alerts s)) by now rewrite H1.
  assert (E2 : s2 = state_of (_cleanup_old_rate_limit_data s1)) by now rewrite H2.
  assert (Hclock : clock s1 = clock s) by (rewrite E1; reflexivity).
  assert (Hrecent : recent_alerts s1 = recent_alerts s) by (rewrite E1; reflexivity).
  assert (Hallowed : allowed = true).
  { unfold _check_rate_limit, bind, now, gets, modify, ret in H3.
    injection H3 as <- _.
    assert (Hc2 : clock s2 = clock s1) by (rewrite E2; reflexivity).
    rewrite Hc2, E2, (recent_after_cleanup m s1), Hclock, Hrecent. exact Hadm. }
  subst allowed. cbn [negb] in H.
  exists s3. split; [| exact H].
  unfold _check_rate_limit, bind, now, gets, modify, ret in H3.
  injection H3 as _ <-. rewrite E2, E1. reflexivity.
Qed.

End ReleaseSections.

Section ReleaseCases.

Import AlertManager Hysteresis.

Lemma rul_section_clears_warning m sd rul created :
  (Config.RUL_WARNING_CLEAR < rul)%Q ->
  clears (m, "warning_rul"%string) (rul_section m sd rul created).
Proof.
  intros H. rewrite rul_section_released
    by (unfold Config.RUL_WARNING_TRIGGER, Config.RUL_WARNING_CLEAR in *; lra).
  rewrite (proj2 (Qltb_true _ _) H).
  apply clears_bind_l; [now apply clears_clear |]. intros _.
  apply frames_bind; [| intros _; apply frames_ret].
  match goal with |- frames _ (if ?b then _ else _) => destruct b end;
    [apply frames_clear; congruence | apply frames_ret].
Qed.

Lemma rul_section_clears_critical m sd rul created :
  (Config.RUL_WARNING_TRIGGER <= rul)%Q ->
  clears (m, "critical_rul"%string) (rul_section m sd rul created).
Proof.
  intros H. rewrite rul_section_released by exact H.
  assert (E : Num.Qltb Config.RUL_CRITICAL_CLEAR rul = true).
  { apply Qltb_true.
    unfold Config.RUL_WARNING_TRIGGER, Config.RUL_CRITICAL_CLEAR in *. lra. }
  rewrite E. apply clears_bind_r. intros _.
  apply clears_bind_l; [now apply clears_clear | intros _; apply frames_ret].
Qed.

Lemma rul_section_keeps_warning m sd rul created :
  (rul == Config.RUL_WARNING_CLEAR)%Q ->
  frames (m, "warning_rul"%string) (rul_section m sd rul created).
Proof.
  intros H. rewrite rul_section_released
    by (unfold Config.RUL_WARNING_TRIGGER, Config.RUL_WARNING_CLEAR in *; lra).
  assert (E : Num.Qltb Config.RUL_WARNING_CLEAR rul = false)
    by (apply Qltb_false; lra).
  rewrite E. apply frames_bind; [apply frames_ret |]. intros _.
  apply frames_bind; [| intros _; apply frames_ret].
  match goal with |- frames _ (if ?b then _ else _) => destruct b end;
    [apply frames_clear; congruence | apply frames_ret].
Qed.

Lemma health_section_clears_warning m sd health created :
  (Config.HEALTH_WARNING_CLEAR < health)%Q ->
  clears (m, "low_health_warning"%string) (health_section m sd health created).
Proof.
  intros H. rewrite health_section_released
    by (unfold Config.HEALTH_WARNING_TRIGGER, Config.HEALTH_WARNING_CLEAR in *; lra).
  rewrite (proj2 (Qltb_true _ _) H).
  apply clears_bind_l; [now apply clears_clear |]. intros _.
  apply frames_bind; [| intros _; apply frames_ret].
  match goal with |- frames _ (if ?b then _ else _) => destruct b end;
    [apply frames_clear; congruence | apply frames_ret].
Qed.

Lemma health_section_clears_critical m sd health created :
  (Config.HEALTH_WARNING_TRIGGER <= health)%Q ->
  clears (m, "low_health_critical"%string) (health_section m sd health created).
Proof.
  intros H. rewrite health_section_released by exact H.
  assert (E : Num.Qltb Config.HEALTH_CRITICAL_CLEAR health = true).
  { apply Qltb_true.
    unfold Config.HEALTH_WARNING_TRIGGER, Config.HEALTH_CRITICAL_CLEAR in *. lra. }
  rewrite E. apply clears_bind_r. intros _.
  apply clears_bind_l; [now apply clears_clear | intros _; apply frames_ret].
Qed.

Lemma health_section_keeps_warning m sd health created :
  (health == Config.HEALTH_WARNING_CLEAR)%Q ->
  frames (m, "low_health_warning"%string) (health_section m sd health created).
Proof.
  intros H. rewrite health_section_released
    by (unfold Config.HEALTH_WARNING_TRIGGER, Config.HEALTH_WARNING_CLEAR in *; lra).
  assert (E : Num.Qltb Config.HEALTH_WARNING_CLEAR health = false)
    by (apply Qltb_false; lra).
  rewrite E. apply frames_bind; [apply frames_ret |]. intros _.
  apply frames_bind; [| intros _; apply frames_ret].
  match goal with |- frames _ (if ?b then _ else _) => destruct b end;
    [apply frames_clear; congruence | apply frames_ret].
Qed.

Lemma anomaly_section_clears m sd score created :
  clears (m, "anomaly_detected"%string) (anomaly_section m sd false score created).
Proof.
  unfold anomaly_section.
  apply clears_bind_l; [now apply clears_clear | intros _; apply frames_ret].
Qed.

(** The four stages after the rate check, with the states between them. *)
Lemma check_and_create_stages m sd rul health ia score s ids s' :
  check_and_create_alerts m sd rul health ia score s = Val ids s' ->
  admitted m s = true ->
  exists s1 s2 s3 c1 c2,
    pending_alerts s1 = pending_alerts (state_of (_cleanup_old_pending_alerts s)) /\
    rul_section m sd rul [] s1 = Val c1 s2 /\
    health_section m sd health c1 s2 = Val c2 s3 /\
    anomaly_section m sd ia score c2 s3 = Val ids s'.
Proof.
  intros H Hadm.
  destruct (check_and_create_prefix _ _ _ _ _ _ _ _ _ H Hadm) as (s0 & Hp & Hb).
  apply bind_val in Hb as ([] & s1 & Hfeed & Hb).
  apply bind_val in Hb as (c1 & s2 & Hrul & Hb).
  apply bind_val in Hb as (c2 & s3 & Hhealth & Hanom).
  exists s1, s2, s3, c1, c2. repeat split; try assumption.
  rewrite <- Hp. apply map_eq. intros k.
  exact (frames_feed k _ _ _ _ _ _ _ _ _ Hfeed).
Qed.

End ReleaseCases.

(** X1: what the hysteresis of [check_and_create_alerts] does remove.  When
    the call passes the rate check and returns: a RUL strictly above
    [RUL_WARNING_CLEAR] leaves no pending [warning_rul]; a RUL at or above
    [RUL_WARNING_TRIGGER] leaves no pending [critical_rul]; the same holds for
    health with [HEALTH_WARNING_CLEAR], [HEALTH_WARNING_TRIGGER] and the two
    health types; a sample that is not anomalous leaves no pending
    [anomaly_detected]; and a RUL (a health) exactly at the warning clear
    threshold leaves the pending warning entry as the stale sweep at the
    start of the call left it. *)
Theorem hysteresis_release (m : string) (sd : gmap string Q) (rul health : Q)
    (ia : bool) (score : Q) (s : AlertManager.t) :
  let r := AlertManager.check_and_create_alerts m sd rul health ia score s in
  let after := AlertManager.pending_alerts (AlertManager.state_of r) in
  let swept :=
    AlertManager.pending_alerts
      (AlertManager.state_of (AlertManager._cleanup_old_pending_alerts s)) in
  AlertManager.value_of r <> None ->
  Hysteresis.admitted m s = true ->
  ((Config.RUL_WARNING_CLEAR < rul)%Q ->
   after !! (m, "warning_rul"%string) = None) /\
  ((Config.RUL_WARNING_TRIGGER <= rul)%Q ->
   after !! (m, "critical_rul"%string) = None) /\
  ((Config.HEALTH_WARNING_CLEAR < health)%Q ->
   after !! (m, "low_health_warning"%string) = None) /\
  ((Config.HEALTH_WARNING_TRIGGER <= health)%Q ->
   after !! (m, "low_health_critical"%string) = None) /\
  (ia = false ->
   after !! (m, "anomaly_detected"%string) = None) /\
  ((rul == Config.RUL_WARNING_CLEAR)%Q ->
   after !! (m, "warning_rul"%string) = swept !! (m, "warning_rul"%string)) /\
  ((health == Config.HEALTH_WARNING_CLEAR)%Q ->
   after !! (m, "low_health_warning"%string) =
   swept !! (m, "low_health_warning"%string)).
Proof.
  intros r after swept Hret Hadm. subst after swept r.
  destruct (AlertManager.check_and_create_alerts m sd rul health ia score s)
    as [ids s' | e s'] eqn:H; [| now contradiction Hret].
  clear Hret. cbn [AlertManager.state_of].
  destruct (check_and_create_stages _ _ _ _ _ _ _ _ _ H Hadm)
    as (s1 & s2 & s3 & c1 & c2 & Hp & Hrul & Hhealth & Hanom).
  rewrite <- Hp.
  repeat split.
  - intros Hr.
    rewrite (frames_anomaly_section (m, "warning_rul"%string) m sd ia score c2 ltac:(congruence) _ _ _ Hanom).
    rewrite (frames_health_section (m, "warning_rul"%string) m sd health c1
               ltac:(congruence) ltac:(congruence) _ _ _ Hhealth).
    exact (rul_section_clears_warning m sd rul [] Hr _ _ _ Hrul).
  - intros Hr.
    rewrite (frames_anomaly_section (m, "critical_rul"%string) m sd ia score c2 ltac:(congruence) _ _ _ Hanom).
    rewrite (frames_health_section (m, "critical_rul"%string) m sd health c1
               ltac:(congruence) ltac:(congruence) _ _ _ Hhealth).
    exact (rul_section_clears_critical m sd rul [] Hr _ _ _ Hrul).
  - intros Hh.
    rewrite (frames_anomaly_section (m, "low_health_warning"%string) m sd ia score c2 ltac:(congruence) _ _ _ Hanom).
    exact (health_section_clears_warning m sd health c1 Hh _ _ _ Hhealth).
  - intros Hh.
    rewrite (frames_anomaly_section (m, "low_health_critical"%string) m sd ia score c2 ltac:(congruence) _ _ _ Hanom).
    exact (health_section_clears_critical m sd health c1 Hh _ _ _ Hhealth).
  - intros ->.
    exact (anomaly_section_clears m sd score c2 _ _ _ Hanom).
  - intros Hr.
    rewrite (frames_anomaly_section (m, "warning_rul"%string) m sd ia score c2 ltac:(congruence) _ _ _ Hanom).
    rewrite (frames_health_section (m, "warning_rul"%string) m sd health c1
               ltac:(congruence) ltac:(congruence) _ _ _ Hhealth).
    exact (rul_section_keeps_warning m sd rul [] Hr _ _ _ Hrul).
  - intros Hh.
    rewrite (frames_anomaly_section (m, "low_health_warning"%string) m sd ia score c2 ltac:(congruence) _ _ _ Hanom).
    rewrite (health_section_keeps_warning m sd health c1 Hh _ _ _ Hhealth).
    exact (frames_rul_section (m, "low_health_warning"%string) m sd rul []
             ltac:(congruence) ltac:(congruence) _ _ _ Hrul).
Qed.

Lemma hysteresis_release_witness :
  AlertManager.pending_alerts ManagerExamples.before_warning
    !! ("M-C", "warning_rul")%string <> None /\
  AlertManager.pending_alerts
    (AlertManager.state_of
       (Scenario.submit "M-C" Scenario.healthy_sample ManagerExamples.before_warning))
    !! ("M-C", "warning_rul")%string = None.
Proof.
  split; [vm_compute; discriminate |].
  apply (hysteresis_release "M-C"
           (Scenario.sensors Scenario.healthy_sample)
           (Scenario.rul_hours Scenario.healthy_sample)
           (Scenario.health_score Scenario.healthy_sample)
           (Scenario.is_anomaly Scenario.healthy_sample)
           (Scenario.anomaly_score Scenario.healthy_sample)
           (AlertManager.set_clock
              (Num.seconds (Scenario.at_second Scenario.healthy_sample))
              ManagerExamples.before_warning)).
  - vm_compute. discriminate.
  - vm_compute. reflexivity.
  - vm_compute. reflexivity.
Defined.

(** ** Rows only move forward *)

Section LifecycleStore.

Import Database Lifecycle.

Lemma advances_refl r : advances r r.
Proof. unfold advances. repeat split; lia. Qed.

Lemma advances_trans r1 r2 r3 : advances r1 r2 -> advances r2 r3 -> advances r1 r3.
Proof.
  unfold advances. intros (A1 & A2 & A3 & A4 & A5 & A6 & A7 & A8)
    (B1 & B2 & B3 & B4 & B5 & B6 & B7 & B8).
  repeat split; try congruence. lia.
Qed.

Lemma advances_all_refl l : Forall2 advances l l.
Proof. induction l; constructor; [apply advances_refl | assumption]. Qed.

Lemma extends_refl d : extends d d.
Proof.
  exists (alerts d), []. split; [now rewrite app_nil_r | apply advances_all_refl].
Qed.

Lemma extends_trans d1 d2 d3 : extends d1 d2 -> extends d2 d3 -> extends d1 d3.
Proof.
  intros (rows1 & new1 & E1 & F1) (rows2 & new2 & E2 & F2).
  rewrite E1 in F2. apply Forall2_app_inv_l in F2.
  destruct F2 as (ra & rb & Fa & Fb & ->).
  exists ra, (rb ++ new2). split; [now rewrite E2, <- app_assoc |].
  clear - F1 Fa. revert ra Fa.
  induction F1 as [| x y l l' Hxy _ IH]; intros ra Fa.
  - inversion Fa. constructor.
  - inversion Fa as [| y' z k k' Hyz Hk]; subst. constructor.
    + eapply advances_trans; eassumption.
    + now apply IH.
Qed.

Lemma extends_update cond f logs (d : t) :
  (forall r, cond r = true -> advances r (f r)) ->
  extends d {| alerts := fst (update_where cond f (alerts d));
               maintenance_logs := logs |}.
Proof.
  intros H. exists (fst (update_where cond f (alerts d))), [].
  split; [cbn; now rewrite app_nil_r |]. cbn.
  induction (alerts d) as [| r l IH]; cbn; constructor; [| exact IH].
  destruct (cond r) eqn:E; [now apply H | apply advances_refl].
Qed.

Lemma extends_create data (d : t) : extends d (fst (create_alert data d)).
Proof.
  unfold create_alert. destruct (existsb _ _); cbn; [apply extends_refl |].
  eexists (alerts d), _. split; [reflexivity | apply advances_all_refl].
Qed.

Lemma extends_acknowledge now alert_id operator_id (d : t) :
  extends d (fst (acknowledge_alert now alert_id operator_id d)).
Proof.
  unfold acknowledge_alert.
  match goal with
  | |- context [update_where ?c ?f (alerts d)] =>
      pose proof (extends_update c f (maintenance_logs d) d) as H;
      destruct (update_where c f (alerts d)) as [rows n] eqn:E
  end.
  cbn in *. apply H. intros r Hr. apply andb_prop in Hr as [_ Hs].
  unfold advances. cbn. repeat split.
  destruct (state r); try discriminate. cbn. lia.
Qed.

Lemma extends_resolve now alert_id operator_id cause notes downtime (d : t) :
  extends d (fst (resolve_alert now alert_id operator_id cause notes downtime d)).
Proof.
  unfold resolve_alert. destruct (get_alert alert_id d) as [a |]; [| apply extends_refl].
  destruct (negb (fits_integer downtime)); [apply extends_refl |].
  match goal with
  | |- context [update_where ?c ?f (alerts d)] =>
      pose proof (extends_update c f (maintenance_logs d) d) as H;
      pose proof (fun logs => extends_update c f logs d) as H';
      destruct (update_where c f (alerts d)) as [rows n] eqn:E
  end.
  assert (Hadv : forall r,
    String.eqb (id r) alert_id && is_resolvable (state r) = true ->
    advances r (set_resolved operator_id now notes cause downtime r)).
  { intros r Hr. apply andb_prop in Hr as [_ Hs].
    unfold advances. cbn. repeat split.
    destruct (state r); try discriminate; cbn; lia. }
  cbn in *. destruct (n =? 0)%nat; [apply H, Hadv |].
  destruct (existsb _ _); cbn; [apply extends_refl |].
  apply H', Hadv.
Qed.

Lemma extends_cleanup now (d : t) : extends d (fst (cleanup_old_data now d)).
Proof.
  unfold cleanup_old_data.
  match goal with
  | |- context [update_where ?c ?f (alerts d)] =>
      pose proof (fun logs => extends_update c f logs d) as H;
      destruct (update_where c f (alerts d)) as [rows n] eqn:E
  end.
  cbn in *. apply H. intros r Hr.
  unfold advances. cbn. repeat split.
  destruct (state r); cbn; lia.
Qed.

Lemma extends_logs logs (d : t) :
  extends d {| alerts := alerts d; maintenance_logs := logs |}.
Proof.
  exists (alerts d), []. split; [cbn; now rewrite app_nil_r | apply advances_all_refl].
Qed.

(** The first row with a given id, in a table that extends another. *)
Lemma extends_get_alert alert_id (d d' : t) a :
  extends d d' -> get_alert alert_id d = Some a ->
  exists a', get_alert alert_id d' = Some a' /\ advances a a'.
Proof.
  intros (rows & new & E & F) Hget. unfold get_alert in *. rewrite E.
  clear E. induction F as [| r r' l l' Hr _ IH]; [discriminate Hget |].
  cbn in *. destruct Hr as (Hid & Hrest). rewrite Hid.
  destruct (String.eqb (id r) alert_id).
  - inversion Hget; subst. exists r'. split; [reflexivity |].
    split; [exact Hid | exact Hrest].
  - now apply IH.
Qed.

End LifecycleStore.

(** ** Invariants of the store, for every call *)

Section AnyInvariant.

Import AlertManager Reach Lifecycle.

Variable P : Database.t -> Prop.

Hypothesis P_create : forall data d, P d -> P (fst (Database.create_alert data d)).

Lemma keeps_create_any m ty sev msg meta :
  keeps P (_create_alert_if_new m ty sev msg meta).
Proof.
  intros s H. unfold _create_alert_if_new, bind, db_query, now, gets.
  destruct (Database.check_duplicate_alert m ty (db s)); [exact H |].
  unfold uuid4, db_transaction. cbn.
  match goal with
  | |- context [Database.create_alert ?data (db s)] =>
      pose proof (P_create data (db s) H) as Hc;
      destruct (Database.create_alert data (db s)) as [d [a | e]]
  end; exact Hc.
Qed.

Lemma keeps_process_any m ty sev msg meta :
  keeps P (_process_alert_with_persistence m ty sev msg meta).
Proof.
  intros s H.
  destruct (pending_alerts s !! (m, ty)) as [p |] eqn:Hp.
  - destruct (PendingAlert.is_persistent (PendingAlert.update (clock s) p)
                (Spec.persistence_seconds ty)) eqn:Hpers.
    + rewrite (process_persistent _ _ _ _ _ _ _ Hp Hpers).
      now apply keeps_create_any.
    + now rewrite (process_waiting _ _ _ _ _ _ _ Hp Hpers).
  - now rewrite (process_absent _ _ _ _ _ _ Hp).
Qed.

Lemma keeps_check_any m sd rul health is_anomaly score :
  keeps P (check_and_create_alerts m sd rul health is_anomaly score).
Proof.
  unfold check_and_create_alerts, rul_section, health_section, anomaly_section.
  repeat first
    [ apply keeps_ret
    | apply keeps_process_any
    | apply keeps_untouched;
      first [ apply untouched_clear_pending | apply untouched_cleanup_pending
            | apply untouched_cleanup_rate | apply untouched_check_rate
            | apply untouched_evaluate | apply untouched_feed
            | apply untouched_ret ]
    | apply keeps_bind; [| intros ?]
    | match goal with
      | |- keeps _ (if ?b then _ else _) => destruct b
      end ].
Qed.

Hypothesis P_acknowledge : forall now alert_id operator_id d,
  (3 <= Num.len operator_id)%nat ->
  P d -> P (fst (Database.acknowledge_alert now alert_id operator_id d)).

Hypothesis P_resolve : forall now alert_id operator_id cause notes downtime d,
  (3 <= Num.len operator_id)%nat ->
  (Config.MIN_ROOT_CAUSE_LENGTH <= Num.len cause)%nat ->
  (Config.MIN_RESOLUTION_NOTES_LENGTH <= Num.len notes)%nat ->
  0 <= downtime ->
  P d ->
  P (fst (Database.resolve_alert now alert_id operator_id cause notes downtime d)).

Hypothesis P_cleanup : forall now d, P d -> P (fst (Database.cleanup_old_data now d)).

Hypothesis P_logs : forall logs d,
  P d -> P {| Database.alerts := Database.alerts d;
              Database.maintenance_logs := logs |}.

Lemma keeps_acknowledge_any alert_id operator_id :
  keeps P (acknowledge_alert alert_id operator_id).
Proof.
  unfold acknowledge_alert.
  destruct (too_short operator_id 3) eqn:Eo; [apply keeps_ret |].
  apply too_short_false in Eo; [| lia].
  apply keeps_bind; [apply keeps_untouched, untouched_gets |].
  intros [a |]; [| apply keeps_ret].
  destruct (Database.state a); try apply keeps_ret.
  apply keeps_bind; [apply keeps_untouched, untouched_now |]. intros t_now.
  apply keeps_bind.
  - apply keeps_db_write. intros d. now apply P_acknowledge.
  - intros [|]; [| apply keeps_ret].
    apply keeps_bind; [apply keeps_untouched, untouched_now |].
    intros ?. apply keeps_ret.
Qed.

Lemma keeps_resolve_any alert_id operator_id cause notes downtime :
  keeps P (resolve_alert alert_id operator_id cause notes downtime).
Proof.
  unfold resolve_alert.
  destruct (too_short operator_id 3) eqn:Eo; [apply keeps_ret |].
  destruct (too_short cause _) eqn:Ec; [apply keeps_ret |].
  destruct (too_short notes _) eqn:En; [apply keeps_ret |].
  destruct (downtime <? 0) eqn:Ed; [apply keeps_ret |].
  apply too_short_false in Eo; [| lia].
  apply too_short_false in Ec; [| cbv; lia].
  apply too_short_false in En; [| cbv; lia].
  apply Z.ltb_ge in Ed.
  apply keeps_bind; [apply keeps_untouched, untouched_gets |].
  intros [a |]; [| apply keeps_ret].
  destruct (negb _); [apply keeps_ret |].
  apply keeps_bind; [apply keeps_untouched, untouched_now |]. intros t_now.
  apply keeps_bind.
  - apply keeps_db_transaction. intros d. now apply P_resolve.
  - intros [|]; [| apply keeps_ret].
    apply keeps_bind; [apply keeps_untouched, untouched_now |].
    intros ?. apply keeps_ret.
Qed.

Lemma perform_keeps c s : P (db s) -> P (db (perform c s)).
Proof.
  intros H. destruct c as [c | m sd rul h ia sc | a o | a o cause n dt | | logs];
    cbn [perform].
  - exact H.
  - now apply keeps_check_any.
  - now apply keeps_acknowledge_any.
  - now apply keeps_resolve_any.
  - apply (keeps_db_write P); [| exact H]. intros d. apply P_cleanup.
  - now apply P_logs.
Qed.

Lemma run_keeps cs : forall s, P (db s) -> P (db (run cs s)).
Proof.
  induction cs as [| c cs IH]; intros s H; [exact H |].
  change (run (c :: cs) s) with (run cs (perform c s)).
  apply IH, perform_keeps, H.
Qed.

Lemma reachable_keeps s : P Database.empty -> reachable s -> P (db s).
Proof.
  intros H0.
  induction 1 as [c u | c s _ IH | m sd rul h ia sc s _ IH | a o s _ IH
                 | a o c n dt s _ IH | s _ IH | logs s _ IH].
  - exact H0.
  - exact IH.
  - now apply keeps_check_any.
  - now apply keeps_acknowledge_any.
  - now apply keeps_resolve_any.
  - apply (keeps_db_write P); [| exact IH]. intros d. apply P_cleanup.
  - now apply P_logs.
Qed.

End AnyInvariant.

Section LifecycleRuns.

Import AlertManager Reach Lifecycle.

Lemma run_reachable cs : forall s, reachable s -> reachable (run cs s).
Proof.
  induction cs as [| c cs IH]; intros s H; [exact H |].
  change (run (c :: cs) s) with (run cs (perform c s)). apply IH.
  destruct c; cbn [perform]; now constructor.
Qed.

Lemma run_extends cs s : extends (db s) (db (run cs s)).
Proof.
  apply (run_keeps (extends (db s))).
  - intros data d H. eapply extends_trans; [exact H | apply extends_create].
  - intros now a o d _ H. eapply extends_trans; [exact H | apply extends_acknowledge].
  - intros now a o c n dt d _ _ _ _ H.
    eapply extends_trans; [exact H | apply extends_resolve].
  - intros now d H. eapply extends_trans; [exact H | apply extends_cleanup].
  - intros logs d H. eapply extends_trans; [exact H | apply extends_logs].
  - apply extends_refl.
Qed.

End LifecycleRuns.

(** X2: whatever calls reach the manager (clock changes, samples,
    acknowledgements, resolutions, retention sweeps, log edits), the table
    [alerts] only grows and its rows only move forward: the rows it had are
    still there, in the same order, each with the id, machine, type,
    severity, message, creation time and metadata it was created with and a
    state that is the same or later in ACTIVE, ACKNOWLEDGED, IN_PROGRESS,
    RESOLVED, LOGGED; new rows come after them.  No alert is ever deleted or
    reopened. *)
Theorem alerts_only_advance (cs : list Lifecycle.call) (s : AlertManager.t) :
  exists rows new,
    Database.alerts (AlertManager.db (Lifecycle.run cs s)) = rows ++ new /\
    Forall2 Lifecycle.advances (Database.alerts (AlertManager.db s)) rows.
Proof.
  change (Lifecycle.extends (AlertManager.db s)
            (AlertManager.db (Lifecycle.run cs s))).
  apply (run_keeps (Lifecycle.extends (AlertManager.db s))).
  - intros data d H. apply (extends_trans _ d); [exact H | apply extends_create].
  - intros now a o d _ H.
    apply (extends_trans _ d); [exact H | apply extends_acknowledge].
  - intros now a o c n dt d _ _ _ _ H.
    apply (extends_trans _ d); [exact H | apply extends_resolve].
  - intros now d H. apply (extends_trans _ d); [exact H | apply extends_cleanup].
  - intros logs d H. apply (extends_trans _ d); [exact H | apply extends_logs].
  - apply extends_refl.
Qed.

(** ** The audit trail of a row *)

Section AuditTrail.

Import Database Lifecycle.

Lemma Forall_update (Q : alert_row -> Prop) cond f (l : list alert_row) :
  (forall r, Q r -> cond r = true -> Q (f r)) ->
  Forall Q l -> Forall Q (fst (update_where cond f l)).
Proof.
  intros H Hl. cbn. induction Hl as [| r l Hr _ IH]; cbn; constructor; [| exact IH].
  destruct (cond r) eqn:E; [now apply H | exact Hr].
Qed.

Lemma audited_create data (d : t) :
  all_audited d -> all_audited (fst (create_alert data d)).
Proof.
  unfold all_audited, create_alert. intros H.
  destruct (existsb _ _); cbn; [exact H |].
  apply Forall_app. split; [exact H |]. constructor; [| constructor].
  unfold audited, acknowledgement_blank, resolution_blank. cbn. tauto.
Qed.

Lemma audited_acknowledge now alert_id operator_id (d : t) :
  (3 <= Num.len operator_id)%nat ->
  all_audited d -> all_audited (fst (acknowledge_alert now alert_id operator_id d)).
Proof.
  unfold all_audited, acknowledge_alert. intros Ho H.
  match goal with
  | |- context [update_where ?c ?f (alerts d)] =>
      pose proof (Forall_update audited c f (alerts d)) as Hu;
      destruct (update_where c f (alerts d)) as [rows n] eqn:E
  end.
  cbn in *. apply Hu; [| exact H]. clear Hu E.
  intros r Hr Hc. apply andb_prop in Hc as [_ Hs].
  unfold audited in *. destruct (state r); try discriminate. cbn.
  destruct Hr as [_ Hres]. split; [| exact Hres].
  exists operator_id, now. cbn. auto.
Qed.

Lemma audited_resolve now alert_id operator_id cause notes downtime (d : t) :
  (3 <= Num.len operator_id)%nat ->
  (Config.MIN_ROOT_CAUSE_LENGTH <= Num.len cause)%nat ->
  (Config.MIN_RESOLUTION_NOTES_LENGTH <= Num.len notes)%nat ->
  0 <= downtime ->
  all_audited d ->
  all_audited (fst (resolve_alert now alert_id operator_id cause notes downtime d)).
Proof.
  unfold all_audited, resolve_alert. intros Ho Hc Hn Hd H.
  destruct (get_alert alert_id d) as [a |]; [| exact H].
  destruct (negb (fits_integer downtime)); [exact H |].
  match goal with
  | |- context [update_where ?c ?f (alerts d)] =>
      pose proof (Forall_update audited c f (alerts d)) as Hu;
      destruct (update_where c f (alerts d)) as [rows n] eqn:E
  end.
  cbn in Hu.
  assert (Hrows : Forall audited rows).
  { apply Hu; [| exact H]. clear Hu E.
    intros r Hr Hcond. apply andb_prop in Hcond as [_ Hs].
    unfold audited in *. destruct (state r); try discriminate; cbn.
    - destruct Hr as [Hack _]. split; [exact Hack |].
      exists operator_id, now, notes, cause, downtime. cbn. auto 10.
    - destruct Hr. }
  destruct (n =? 0)%nat; [exact Hrows |].
  destruct (existsb _ _); [exact H | exact Hrows].
Qed.

Lemma audited_cleanup now (d : t) :
  all_audited d -> all_audited (fst (cleanup_old_data now d)).
Proof.
  unfold all_audited, cleanup_old_data. intros H.
  match goal with
  | |- context [update_where ?c ?f (alerts d)] =>
      pose proof (Forall_update audited c f (alerts d)) as Hu;
      destruct (update_where c f (alerts d)) as [rows n] eqn:E
  end.
  cbn in *. apply Hu; [| exact H]. clear Hu E.
  intros r Hr Hc. unfold audited in *.
  destruct (state r); try discriminate. cbn. exact Hr.
Qed.

End AuditTrail.

(** X3: in every state the manager can reach, each row of [alerts] carries
    the audit trail of its state.  An ACTIVE row has no acknowledgement and
    no resolution columns set; an ACKNOWLEDGED row has [acknowledged_by], an
    operator id of at least 3 characters, and [acknowledged_at], and no
    resolution columns; a RESOLVED or LOGGED row has both the acknowledgement
    and [resolved_by] (at least 3 characters), [resolved_at], a root cause of
    at least 5 characters, notes of at least 10 characters and a downtime
    that is not negative.  No row is ever IN_PROGRESS: the code reads that
    state and never writes it. *)
Theorem audit_trail_complete (s : AlertManager.t) :
  Reach.reachable s ->
  Forall Lifecycle.audited (Database.alerts (AlertManager.db s)).
Proof.
  intros H. apply (reachable_keeps Lifecycle.all_audited); try assumption.
  - apply audited_create.
  - apply audited_acknowledge.
  - apply audited_resolve.
  - apply audited_cleanup.
  - intros logs d Hd. exact Hd.
  - constructor.
Qed.

Lemma audit_trail_complete_witness :
  Forall Lifecycle.audited
    (Database.alerts (AlertManager.db LifecycleExamples.archived)).
Proof.
  apply (audit_trail_complete LifecycleExamples.archived).
  unfold LifecycleExamples.archived, LifecycleExamples.resolved,
    ManagerExamples.acknowledged, ManagerExamples.after_warning.
  apply run_reachable, Reach.reach_resolve, Reach.reach_tick,
    Reach.reach_acknowledge, Reach.reach_tick, submit_all_reachable,
    Reach.reach_init.
Defined.

(** ** Operator actions on an alert *)

Section Acknowledgement.

Import AlertManager.




End Acknowledgement.



Section ClosedAlerts.

Import AlertManager Lifecycle.

Lemma acknowledge_not_active alert_id operator_id s a :
  Database.get_alert alert_id (db s) = Some a ->
  Database.state a <> Database.ACTIVE ->
  exists e, acknowledge_alert alert_id operator_id s = Val (Failure e) s.
Proof.
  intros Hget Hst. unfold acknowledge_alert.
  destruct (too_short operator_id 3); [eexists; reflexivity |].
  unfold bind at 1, db_query, gets. rewrite Hget.
  destruct (Database.state a); try (eexists; reflexivity).
  now contradiction Hst.
Qed.

Lemma resolve_not_resolvable alert_id operator_id cause notes downtime s a :
  Database.get_alert alert_id (db s) = Some a ->
  Database.is_resolvable (Database.state a) = false ->
  exists e,
    resolve_alert alert_id operator_id cause notes downtime s = Val (Failure e) s.
Proof.
  intros Hget Hst. unfold resolve_alert.
  destruct (too_short operator_id 3); [eexists; reflexivity |].
  destruct (too_short cause _); [eexists; reflexivity |].
  destruct (too_short notes _); [eexists; reflexivity |].
  destruct (downtime <? 0); [eexists; reflexivity |].
  unfold bind at 1, db_query, gets. rewrite Hget, Hst.
  eexists; reflexivity.
Qed.

End ClosedAlerts.

(** X5: an alert that has left the state ACTIVE never comes back to it.
    After any further calls (samples, operator actions, sweeps, log edits)
    the alert is still in the store, in the same or a later state, and
    [acknowledge_alert] for it fails and changes nothing, whoever the
    operator.  If the alert was RESOLVED or LOGGED, [resolve_alert] for it
    fails and changes nothing as well: an alert is acknowledged at most once
    and resolved at most once. *)
Theorem closed_alert_stays_closed (alert_id : string) (st : Database.alert_state)
    (cs : list Lifecycle.call) (s : AlertManager.t) :
  Lifecycle.state_in alert_id s = Some st ->
  st <> Database.ACTIVE ->
  let s' := Lifecycle.run cs s in
  (exists st', Lifecycle.state_in alert_id s' = Some st' /\
               (Lifecycle.rank st <= Lifecycle.rank st')%nat) /\
  (forall operator_id,
     exists e, AlertManager.acknowledge_alert alert_id operator_id s' =
               AlertManager.Val (AlertManager.Failure e) s') /\
  (Database.is_resolvable st = false ->
   forall operator_id cause notes downtime,
     exists e, AlertManager.resolve_alert alert_id operator_id cause notes
                 downtime s' =
               AlertManager.Val (AlertManager.Failure e) s').
Proof.
  intros Hst Hna s'. subst s'. unfold Lifecycle.state_in in *.
  destruct (Database.get_alert alert_id (AlertManager.db s)) as [a |] eqn:Hget;
    [| discriminate Hst].
  cbn in Hst. injection Hst as <-.
  destruct (extends_get_alert alert_id _ _ a (run_extends cs s) Hget)
    as (a' & Hget' & Hadv).
  assert (Hrank : (Lifecycle.rank (Database.state a) <=
                   Lifecycle.rank (Database.state a'))%nat)
    by (unfold Lifecycle.advances in Hadv; tauto).
  split; [| split].
  - rewrite Hget'. exists (Database.state a'). split; [reflexivity | exact Hrank].
  - intros op. apply (acknowledge_not_active alert_id op _ a' Hget').
    intros E. rewrite E in Hrank.
    destruct (Database.state a); cbn in Hrank; try lia. now contradiction Hna.
  - intros Hres op cause notes downtime.
    apply (resolve_not_resolvable alert_id op cause notes downtime _ a' Hget').
    destruct (Database.state a); try discriminate Hres; try (now contradiction Hna);
      destruct (Database.state a'); cbn in Hrank; try lia; reflexivity.
Qed.

Lemma closed_alert_stays_closed_witness :
  let s' := Lifecycle.run
              [Lifecycle.Tick (Num.seconds 200 + Database.days 91);
               Lifecycle.Cleanup] LifecycleExamples.resolved in
  (exists st', Lifecycle.state_in "ALERT-00000000" s' = Some st' /\
               (Lifecycle.rank Database.RESOLVED <= Lifecycle.rank st')%nat) /\
  (forall operator_id,
     exists e, AlertManager.acknowledge_alert "ALERT-00000000" operator_id s' =
               AlertManager.Val (AlertManager.Failure e) s') /\
  (Database.is_resolvable Database.RESOLVED = false ->
   forall operator_id cause notes downtime,
     exists e, AlertManager.resolve_alert "ALERT-00000000" operator_id cause notes
                 downtime s' =
               AlertManager.Val (AlertManager.Failure e) s').
Proof.
  apply (closed_alert_stays_closed "ALERT-00000000" Database.RESOLVED
           [Lifecycle.Tick (Num.seconds 200 + Database.days 91); Lifecycle.Cleanup]
           LifecycleExamples.resolved).
  - vm_compute. reflexivity.
  - discriminate.
Defined.

(** ** The rows one call inserts *)

Section EmissionSteps.

Import AlertManager Emission.

Lemma create_rows m ty sev msg meta s a s' :
  _create_alert_if_new m ty sev msg meta s = Val a s' ->
  clock s' = clock s /\
  Database.maintenance_logs (db s') = Database.maintenance_logs (db s) /\
  match a with
  | None => db s' = db s
  | Some i =>
      exists row,
        Database.alerts (db s') = Database.alerts (db s) ++ [row] /\
        Database.id row = i /\
        Database.alert_type row = ty /\ Database.severity row = sev /\
        inserted_by m (clock s) row
  end.
Proof.
  unfold _create_alert_if_new, bind, db_query, now, gets, ret.
  destruct (Database.check_duplicate_alert m ty (db s)).
  - intros [= <- <-]. auto.
  - unfold uuid4, db_transaction, Database.create_alert, modify.
    cbn [db set_uuid4_calls].
    destruct (existsb _ _); [discriminate |].
    intros [= <- <-]. cbn. split; [reflexivity |]. split; [reflexivity |].
    eexists. split; [reflexivity |]. cbn. unfold inserted_by. cbn. auto 10.
Qed.

Lemma process_rows m ty sev msg meta s a s' :
  _process_alert_with_persistence m ty sev msg meta s = Val a s' ->
  clock s' = clock s /\
  Database.maintenance_logs (db s') = Database.maintenance_logs (db s) /\
  match a with
  | None => db s' = db s
  | Some i =>
      exists row,
        Database.alerts (db s') = Database.alerts (db s) ++ [row] /\
        Database.id row = i /\
        Database.alert_type row = ty /\ Database.severity row = sev /\
        inserted_by m (clock s) row /\
        timed (pending_alerts s) (clock s) row
  end.
Proof.
  intros H.
  destruct (pending_alerts s !! (m, ty)) as [p |] eqn:Hp.
  - destruct (PendingAlert.is_persistent (PendingAlert.update (clock s) p)
                (Spec.persistence_seconds ty)) eqn:Hpers.
    + rewrite (process_persistent _ _ _ _ _ _ _ Hp Hpers) in H.
      apply create_rows in H as (Hc & Hl & Ha). cbn in Hc, Hl, Ha.
      split; [exact Hc |]. split; [exact Hl |].
      destruct a as [i |]; [| exact Ha].
      destruct Ha as (row & Hrows & Hid & Hty & Hsev & Hins).
      exists row. repeat split; try assumption; try apply Hins.
      exists p. destruct Hins as (Hm & _). rewrite Hm, Hty.
      split; [exact Hp |]. apply Qleb_true. exact Hpers.
    + rewrite (process_waiting _ _ _ _ _ _ _ Hp Hpers) in H.
      injection H as <- <-. auto.
  - rewrite (process_absent _ _ _ _ _ _ Hp) in H.
    injection H as <- <-. auto.
Qed.

Lemma evaluate_state m ty s ev s' :
  wm_evaluate m ty s = Val ev s' ->
  clock s' = clock s /\ db s' = db s /\ pending_alerts s' = pending_alerts s.
Proof.
  unfold wm_evaluate, bind, now, gets.
  destruct (EvaluationWindowManager.evaluate _ _ _ _) as [w e].
  intros [= _ <-]. auto.
Qed.

Variable Q : t -> Database.alert_row -> Prop.

Lemma emits_ret tys created : emits Q tys created (ret created).
Proof.
  intros s a s' [= <- <-]. split; [reflexivity |]. split; [reflexivity |].
  exists []. rewrite !app_nil_r. cbn. auto.
Qed.

Lemma emits_silent tys created (m : M unit) :
  (forall s u s', m s = Val u s' -> clock s' = clock s /\ db s' = db s) ->
  emits Q tys created (bind m (fun _ => ret created)).
Proof.
  intros Hm s a s' H. apply bind_val in H as (u & s1 & H1 & H2).
  injection H2 as <- <-. destruct (Hm _ _ _ H1) as [Hc Hd].
  split; [exact Hc |]. rewrite Hd. split; [reflexivity |].
  exists []. rewrite !app_nil_r. cbn. auto.
Qed.

(** An alert type behind its window: evaluate, and when the window agrees
    run the timer and append the id. *)
Lemma emits_guarded m ty sev msg (meta : EvaluationWindow.WindowEvaluation ->
                                         Database.metadata_t)
    tys created :
  In ty tys ->
  (forall s row,
     Database.alert_type row = ty -> Database.severity row = sev ->
     inserted_by m (clock s) row -> timed (pending_alerts s) (clock s) row ->
     Q s row) ->
  emits Q tys created
    (bind (wm_evaluate m ty)
       (fun window_eval =>
          if EvaluationWindow.may_proceed window_eval then
            bind (_process_alert_with_persistence m ty sev msg (meta window_eval))
                 (fun alert_id => ret (append_if created alert_id))
          else ret created)).
Proof.
  intros Hin HQ s a s' H. apply bind_val in H as (ev & s1 & H1 & H2).
  apply evaluate_state in H1 as (Hc1 & Hd1 & Hp1).
  destruct (EvaluationWindow.may_proceed ev).
  - apply bind_val in H2 as (alert_id & s2 & H2 & H3).
    injection H3 as <- <-.
    apply process_rows in H2 as (Hc & Hl & Ha).
    rewrite Hc1, Hp1 in *. rewrite Hd1 in *.
    split; [exact Hc |]. split; [exact Hl |].
    destruct alert_id as [i |].
    + destruct Ha as (row & Hrows & Hid & Hty & Hsev & Hins & Htimed).
      exists [row]. cbn. rewrite Hid. repeat split; auto.
      constructor; [| constructor]. split; [| now rewrite Hty].
      apply HQ; assumption.
    + rewrite Ha. exists []. rewrite !app_nil_r. cbn. auto.
  - injection H2 as <- <-. rewrite Hd1. split; [exact Hc1 |].
    split; [reflexivity |]. exists []. rewrite !app_nil_r. cbn. auto.
Qed.

End EmissionSteps.

Section EmissionSections.

Import AlertManager Emission Hysteresis.

Lemma emits_nothing Q tys created (m : M (list string)) :
  (forall s a s', m s = Val a s' ->
     clock s' = clock s /\ db s' = db s /\ a = created) ->
  emits Q tys created m.
Proof.
  intros Hm s a s' H. destruct (Hm _ _ _ H) as (Hc & Hd & ->).
  split; [exact Hc |]. rewrite Hd. split; [reflexivity |].
  exists []. rewrite !app_nil_r. cbn. auto.
Qed.

Lemma emits_unconfirmed Q tys created m ty :
  emits Q tys created
    (bind (wm_evaluate m ty)
       (fun window_eval =>
          if EvaluationWindow.may_proceed window_eval
          then ret created else ret created)).
Proof.
  apply emits_nothing. intros s a s' H.
  apply bind_val in H as (ev & s1 & H1 & H2).
  apply evaluate_state in H1 as (Hc1 & Hd1 & _).
  destruct (EvaluationWindow.may_proceed ev); injection H2 as <- <-; auto.
Qed.

Lemma emits_release Q tys created (b1 b2 : bool) m ty1 ty2 :
  emits Q tys created
    (bind (if b1 then _clear_pending_alert m ty1 else ret tt)
       (fun _ =>
          bind (if b2 then _clear_pending_alert m ty2 else ret tt)
               (fun _ => ret created))).
Proof.
  apply emits_nothing. intros s a s'.
  unfold bind, _clear_pending_alert, modify, ret.
  destruct b1, b2; intros [= <- <-]; auto.
Qed.

Variables (m : string) (sd : gmap string Q) (rul health : Q) (ia : bool)
          (score : Q).

Lemma rul_section_emits created :
  emits (emitted_in m sd rul health ia score) ["critical_rul"; "warning_rul"]%string created
    (rul_section m sd rul created).
Proof.
  unfold rul_section.
  destruct (Num.Qltb rul Config.RUL_CRITICAL_TRIGGER) eqn:E1.
  - destruct (_check_multi_sensor_confirmation sd "critical") eqn:Ec.
    + apply emits_guarded; [left; reflexivity |].
      intros s row Hty Hsev Hins Ht. split; [exact Hins |]. split; [| exact Ht].
      left. apply Qltb_true in E1. auto.
    + apply emits_unconfirmed.
  - destruct (Num.Qltb rul Config.RUL_WARNING_TRIGGER) eqn:E2.
    + apply emits_guarded; [right; left; reflexivity |].
      intros s row Hty Hsev Hins Ht. split; [exact Hins |]. split; [| exact Ht].
      right. left. apply Qltb_false in E1. apply Qltb_true in E2. auto.
    + apply emits_release.
Qed.

Lemma health_section_emits created :
  emits (emitted_in m sd rul health ia score) ["low_health_critical"; "low_health_warning"]%string created
    (health_section m sd health created).
Proof.
  unfold health_section.
  destruct (Num.Qltb health Config.HEALTH_CRITICAL_TRIGGER) eqn:E1.
  - destruct (_check_multi_sensor_confirmation sd "critical") eqn:Ec.
    + apply emits_guarded; [left; reflexivity |].
      intros s row Hty Hsev Hins Ht. split; [exact Hins |]. split; [| exact Ht].
      right. right. left. apply Qltb_true in E1. auto.
    + apply emits_unconfirmed.
  - destruct (Num.Qltb health Config.HEALTH_WARNING_TRIGGER) eqn:E2.
    + apply emits_guarded; [right; left; reflexivity |].
      intros s row Hty Hsev Hins Ht. split; [exact Hins |]. split; [| exact Ht].
      right. right. right. left.
      apply Qltb_false in E1. apply Qltb_true in E2. auto.
    + apply emits_release.
Qed.

Lemma anomaly_section_emits created :
  emits (emitted_in m sd rul health ia score) ["anomaly_detected"]%string created
    (anomaly_section m sd ia score created).
Proof.
  unfold anomaly_section. destruct ia eqn:Eia.
  - apply emits_guarded; [left; reflexivity |].
    intros s row Hty Hsev Hins Ht. split; [exact Hins |]. split; [| exact Ht].
    right. right. right. right. auto.
  - apply emits_nothing. intros s a s'.
    unfold bind, _clear_pending_alert, modify, ret. intros [= <- <-]. auto.
Qed.

Lemma feed_state tys risk s u s' :
  feed_windows tys m risk health rul sd s = Val u s' ->
  clock s' = clock s /\ db s' = db s /\ pending_alerts s' = pending_alerts s.
Proof.
  revert s. induction tys as [| ty tys IH]; intros s H.
  - injection H as _ <-. auto.
  - cbn [feed_windows] in H. apply bind_val in H as ([] & s1 & H1 & H2).
    injection H1 as <-. apply IH in H2 as (Hc & Hd & Hp).
    rewrite Hc, Hd, Hp. auto.
Qed.

(** The timer of a row of type [ty], read in a table that agrees on it. *)
Lemma timed_transport (p1 p2 : gmap (string * string) PendingAlert.t) now tys row :
  (forall ty, In ty tys -> p2 !! (m, ty) = p1 !! (m, ty)) ->
  Database.machine_id row = m -> In (Database.alert_type row) tys ->
  timed p2 now row -> timed p1 now row.
Proof.
  intros Hagree Hm Hin (p & Hp & Hd). exists p. split; [| exact Hd].
  rewrite Hm in *. rewrite <- Hagree; assumption.
Qed.

(** The call up to the sections: either the rate check stops it, or the
    sections run from a state that differs from the start only in the swept
    timers, the pruned rate record and the fed windows. *)
Lemma check_and_create_split s ids s' :
  check_and_create_alerts m sd rul health ia score s = Val ids s' ->
  (ids = [] /\ clock s' = clock s /\ db s' = db s) \/
  exists s0,
    clock s0 = clock s /\ db s0 = db s /\
    pending_alerts s0 =
      pending_alerts (state_of (_cleanup_old_pending_alerts s)) /\
    bind (rul_section m sd rul [])
         (fun created =>
            bind (health_section m sd health created)
                 (fun created => anomaly_section m sd ia score created))
         s0 = Val ids s'.
Proof.
  intros H. unfold check_and_create_alerts in H.
  apply bind_val in H as ([] & s1 & H1 & H).
  apply bind_val in H as ([] & s2 & H2 & H).
  apply bind_val in H as (allowed & s3 & H3 & H).
  assert (E1 : s1 = state_of (_cleanup_old_pending_alerts s)) by now rewrite H1.
  assert (E2 : clock s2 = clock s1 /\ db s2 = db s1 /\
               pending_alerts s2 = pending_alerts s1).
  { unfold _cleanup_old_rate_limit_data, bind, now, gets, modify in H2.
    injection H2 as <-. auto. }
  assert (E3 : clock s3 = clock s2 /\ db s3 = db s2 /\
               pending_alerts s3 = pending_alerts s2).
  { unfold _check_rate_limit, bind, now, gets, modify, ret in H3.
    injection H3 as _ <-. auto. }
  assert (E0 : clock s1 = clock s /\ db s1 = db s) by (rewrite E1; auto).
  destruct E0 as [Ec1 Ed1], E2 as (Ec2 & Ed2 & Ep2), E3 as (Ec3 & Ed3 & Ep3).
  destruct allowed; cbn [negb] in H.
  - right. apply bind_val in H as ([] & s4 & H4 & H).
    apply feed_state in H4 as (Ec4 & Ed4 & Ep4).
    exists s4. repeat split; [congruence | congruence | | exact H].
    rewrite <- E1. congruence.
  - left. injection H as <- <-. repeat split; congruence.
Qed.

(** A call that returns has appended at most three rows, each one emitted
    by the sample against the timers the stale sweep left. *)
Lemma check_and_create_rows s ids s' :
  check_and_create_alerts m sd rul health ia score s = Val ids s' ->
  let swept := pending_alerts (state_of (_cleanup_old_pending_alerts s)) in
  clock s' = clock s /\
  Database.maintenance_logs (db s') = Database.maintenance_logs (db s) /\
  exists new,
    Database.alerts (db s') = Database.alerts (db s) ++ new /\
    ids = List.map Database.id new /\
    (length new <= 3)%nat /\
    Forall (emitted m sd rul health ia score swept (clock s)) new.
Proof.
  intros H swept.
  apply check_and_create_split in H
    as [(-> & Hc & Hd) | (s0 & Hc0 & Hd0 & Hp0 & H)].
  { rewrite Hd. split; [exact Hc |]. split; [reflexivity |].
    exists []. rewrite app_nil_r. cbn. repeat split; [lia | constructor]. }
  apply bind_val in H as (c1 & s1 & Hr & H).
  apply bind_val in H as (c2 & s2 & Hh & Ha).
  pose proof (frames_rul_section (m, "low_health_critical"%string) m sd rul []
                ltac:(congruence) ltac:(congruence) _ _ _ Hr) as F1.
  pose proof (frames_rul_section (m, "low_health_warning"%string) m sd rul []
                ltac:(congruence) ltac:(congruence) _ _ _ Hr) as F2.
  pose proof (frames_rul_section (m, "anomaly_detected"%string) m sd rul []
                ltac:(congruence) ltac:(congruence) _ _ _ Hr) as F3.
  pose proof (frames_health_section (m, "anomaly_detected"%string) m sd health c1
                ltac:(congruence) ltac:(congruence) _ _ _ Hh) as F4.
  apply rul_section_emits in Hr as (Hc1 & Hl1 & n1 & Hrows1 & -> & Hlen1 & Hall1).
  apply health_section_emits in Hh as (Hc2 & Hl2 & n2 & Hrows2 & -> & Hlen2 & Hall2).
  apply anomaly_section_emits in Ha as (Hc3 & Hl3 & n3 & Hrows3 & -> & Hlen3 & Hall3).
  split; [congruence |]. split; [congruence |].
  exists (n1 ++ n2 ++ n3). split; [| split; [| split]].
  - rewrite Hrows3, Hrows2, Hrows1, Hd0, <- !app_assoc. reflexivity.
  - cbn. now rewrite !map_app, <- !app_assoc.
  - rewrite !length_app. lia.
  - subst swept. rewrite <- Hp0, <- Hc0.
    apply Forall_app. split; [| apply Forall_app; split].
    + eapply Forall_impl; [exact Hall1 |]. intros row [Hrow _]. exact Hrow.
    + eapply Forall_impl; [exact Hall2 |].
      intros row [(Hins & Hj & Ht) Hty]. rewrite Hc1 in *.
      split; [exact Hins |]. split; [exact Hj |].
      apply (timed_transport _ (pending_alerts s1) _
               ["low_health_critical"; "low_health_warning"]%string);
        [| apply Hins | exact Hty | exact Ht].
      intros ty [<- | [<- | []]]; assumption.
    + eapply Forall_impl; [exact Hall3 |].
      intros row [(Hins & Hj & Ht) Hty]. rewrite Hc2, Hc1 in *.
      split; [exact Hins |]. split; [exact Hj |].
      apply (timed_transport _ (pending_alerts s2) _ ["anomaly_detected"]%string);
        [| apply Hins | exact Hty | exact Ht].
      intros ty [<- | []]. congruence.
Qed.

End EmissionSections.

(** X6: when [check_and_create_alerts] returns, the table [alerts] is the
    old table followed by the rows of exactly the ids it returns, in that
    order, and the maintenance logs are as before.  There are at most three
    such rows; each is ACTIVE, belongs to the machine of the call and is
    stamped with the clock reading; and each is of a type and severity the
    sample itself calls for: [critical_rul] only with a RUL below
    [RUL_CRITICAL_TRIGGER] and the multi-sensor confirmation, [warning_rul]
    only with a RUL in the warning band, the same for health, and
    [anomaly_detected] only for an anomalous sample, critical exactly when the
    score is above [ANOMALY_CRITICAL_SCORE]. *)
Theorem created_alerts_justified (m : string) (sd : gmap string Q)
    (rul health : Q) (ia : bool) (score : Q) (s : AlertManager.t)
    (ids : list string) :
  let r := AlertManager.check_and_create_alerts m sd rul health ia score s in
  AlertManager.value_of r = Some ids ->
  exists new,
    Database.alerts (AlertManager.db (AlertManager.state_of r)) =
      Database.alerts (AlertManager.db s) ++ new /\
    Database.maintenance_logs (AlertManager.db (AlertManager.state_of r)) =
      Database.maintenance_logs (AlertManager.db s) /\
    List.map Database.id new = ids /\
    (length ids <= 3)%nat /\
    Forall (fun row =>
              Emission.inserted_by m (AlertManager.clock s) row /\
              Emission.justified sd rul health ia score row) new.
Proof.
  intros r Hv. subst r.
  destruct (AlertManager.check_and_create_alerts m sd rul health ia score s)
    as [a s' | e s'] eqn:E; [| discriminate Hv].
  injection Hv as ->.
  apply check_and_create_rows in E as (_ & Hlogs & new & Hrows & -> & Hlen & Hall).
  exists new. cbn [AlertManager.state_of].
  split; [exact Hrows |]. split; [exact Hlogs |]. split; [reflexivity |].
  split; [now rewrite length_map |].
  eapply Forall_impl; [exact Hall |].
  intros row (Hins & Hj & _). split; assumption.
Qed.

Lemma created_alerts_justified_witness :
  let r := AlertManager.check_and_create_alerts "M-C" Scenario.degraded_sensors
             18 23 true 3 EmissionExamples.criticals_due in
  exists new,
    Database.alerts (AlertManager.db (AlertManager.state_of r)) =
      Database.alerts (AlertManager.db EmissionExamples.criticals_due) ++ new /\
    Database.maintenance_logs (AlertManager.db (AlertManager.state_of r)) =
      Database.maintenance_logs (AlertManager.db EmissionExamples.criticals_due) /\
    List.map Database.id new =
      ["ALERT-00000002"; "ALERT-00000003"; "ALERT-00000004"]%string /\
    (length ["ALERT-00000002"; "ALERT-00000003"; "ALERT-00000004"]%string <= 3)%nat /\
    Forall (fun row =>
              Emission.inserted_by "M-C"
                (AlertManager.clock EmissionExamples.criticals_due) row /\
              Emission.justified Scenario.degraded_sensors 18 23 true 3 row) new.
Proof.
  apply (created_alerts_justified "M-C" Scenario.degraded_sensors 18 23 true 3
           EmissionExamples.criticals_due
           ["ALERT-00000002"; "ALERT-00000003"; "ALERT-00000004"]%string).
  vm_compute. reflexivity.
Defined.

(** X7: [check_and_create_alerts] creates an alert only for a condition
    that has lasted.  Every row a returning call inserts is of a type for
    which the machine had a pending timer before the call, last triggered no
    more than 120 s before the clock reading and first triggered at least
    [PERSISTENCE_SECONDS] of the type before it.  So a call for a machine
    without pending timers returns no id and inserts nothing, whatever the
    sample. *)
Theorem created_alerts_waited (m : string) (sd : gmap string Q)
    (rul health : Q) (ia : bool) (score : Q) (s : AlertManager.t)
    (ids : list string) :
  let r := AlertManager.check_and_create_alerts m sd rul health ia score s in
  AlertManager.value_of r = Some ids ->
  (exists new,
     Database.alerts (AlertManager.db (AlertManager.state_of r)) =
       Database.alerts (AlertManager.db s) ++ new /\
     List.map Database.id new = ids /\
     Forall (fun row =>
               exists p,
                 AlertManager.pending_alerts s !! (m, Database.alert_type row) =
                   Some p /\
                 AlertManager.clock s - Num.seconds 120 <=
                   PendingAlert.last_triggered p /\
                 (inject_Z (Spec.persistence_seconds (Database.alert_type row)) <=
                  Num.total_seconds (AlertManager.clock s -
                                     PendingAlert.first_triggered p))%Q) new) /\
  ((forall ty, AlertManager.pending_alerts s !! (m, ty) = None) ->
   ids = [] /\
   Database.alerts (AlertManager.db (AlertManager.state_of r)) =
   Database.alerts (AlertManager.db s)).
Proof.
  intros r Hv. subst r.
  destruct (AlertManager.check_and_create_alerts m sd rul health ia score s)
    as [a s' | e s'] eqn:E; [| discriminate Hv].
  injection Hv as ->.
  apply check_and_create_rows in E as (_ & _ & new & Hrows & -> & _ & Hall).
  cbn [AlertManager.state_of].
  assert (Hwait : Forall (fun row =>
            exists p,
              AlertManager.pending_alerts s !! (m, Database.alert_type row) =
                Some p /\
              AlertManager.clock s - Num.seconds 120 <=
                PendingAlert.last_triggered p /\
              (inject_Z (Spec.persistence_seconds (Database.alert_type row)) <=
               Num.total_seconds (AlertManager.clock s -
                                  PendingAlert.first_triggered p))%Q) new).
  { eapply Forall_impl; [exact Hall |].
    intros row ((Hm & _) & _ & p & Hp & Hd). rewrite Hm in Hp.
    unfold AlertManager._cleanup_old_pending_alerts, AlertManager.bind,
      AlertManager.now, AlertManager.gets, AlertManager.modify in Hp.
    cbn [AlertManager.state_of AlertManager.pending_alerts
         AlertManager.set_pending_alerts] in Hp.
    apply map_lookup_filter_Some in Hp as [Hp Hfresh]. cbn in Hfresh.
    exists p. split; [exact Hp |]. split; [lia | exact Hd]. }
  split.
  - exists new. auto.
  - intros Hnone. destruct Hwait as [| row new (p & Hp & _) _].
    + rewrite app_nil_r in Hrows. auto.
    + rewrite Hnone in Hp. discriminate Hp.
Qed.

Lemma created_alerts_waited_witness :
  let r := AlertManager.check_and_create_alerts "M-C" Scenario.healthy_sensors
             25 33 true 3 EmissionExamples.warnings_due in
  (exists new,
     Database.alerts (AlertManager.db (AlertManager.state_of r)) =
       Database.alerts (AlertManager.db EmissionExamples.warnings_due) ++ new /\
     List.map Database.id new = ["ALERT-00000000"; "ALERT-00000001"]%string /\
     Forall (fun row =>
               exists p,
                 AlertManager.pending_alerts EmissionExamples.warnings_due
                   !! ("M-C"%string, Database.alert_type row) = Some p /\
                 AlertManager.clock EmissionExamples.warnings_due -
                   Num.seconds 120 <= PendingAlert.last_triggered p /\
                 (inject_Z (Spec.persistence_seconds (Database.alert_type row)) <=
                  Num.total_seconds
                    (AlertManager.clock EmissionExamples.warnings_due -
                     PendingAlert.first_triggered p))%Q) new) /\
  ((forall ty,
      AlertManager.pending_alerts EmissionExamples.warnings_due
        !! ("M-C"%string, ty) = None) ->
   ["ALERT-00000000"; "ALERT-00000001"]%string = [] /\
   Database.alerts (AlertManager.db (AlertManager.state_of r)) =
   Database.alerts (AlertManager.db EmissionExamples.warnings_due)).
Proof.
  apply (created_alerts_waited "M-C" Scenario.healthy_sensors 25 33 true 3
           EmissionExamples.warnings_due
           ["ALERT-00000000"; "ALERT-00000001"]%string).
  vm_compute. reflexivity.
Defined.

Section RateLimit.

Import AlertManager Hysteresis.

Lemma bind_run {A B} (m : M A) (k : A -> M B) s a s1 :
  m s = Val a s1 -> bind m k s = k a s1.
Proof. intros H. unfold bind. now rewrite H. Qed.

End RateLimit.

(** X8: a call the rate check stops is dropped whole.  When the machine
    has [MAX_ALERTS_PER_MACHINE_PER_MINUTE] or more emissions on record in
    the 60 s before the clock reading, [check_and_create_alerts] returns the
    empty list; the store and the evaluation windows are exactly as before,
    so the sample is not counted in any window; and the pending timers are
    what the stale sweep leaves of them: none is started, refreshed or
    cleared by the sample. *)
Theorem rate_limited_call_dropped (m : string) (sd : gmap string Q)
    (rul health : Q) (ia : bool) (score : Q) (s : AlertManager.t) :
  Hysteresis.admitted m s = false ->
  exists s',
    AlertManager.check_and_create_alerts m sd rul health ia score s =
      AlertManager.Val [] s' /\
    AlertManager.db s' = AlertManager.db s /\
    AlertManager.window_manager s' = AlertManager.window_manager s /\
    AlertManager.pending_alerts s' =
      AlertManager.pending_alerts
        (AlertManager.state_of (AlertManager._cleanup_old_pending_alerts s)).
Proof.
  intros Hadm.
  set (s1 := AlertManager.state_of (AlertManager._cleanup_old_pending_alerts s)).
  set (s2 := AlertManager.state_of (AlertManager._cleanup_old_rate_limit_data s1)).
  set (s3 := AlertManager.state_of (AlertManager._check_rate_limit m s2)).
  assert (H1 : AlertManager._cleanup_old_pending_alerts s = AlertManager.Val tt s1)
    by reflexivity.
  assert (H2 : AlertManager._cleanup_old_rate_limit_data s1 = AlertManager.Val tt s2)
    by reflexivity.
  assert (H3 : AlertManager._check_rate_limit m s2 = AlertManager.Val false s3).
  { unfold s3, AlertManager._check_rate_limit, AlertManager.bind,
      AlertManager.now, AlertManager.gets, AlertManager.modify, AlertManager.ret.
    cbn [AlertManager.state_of]. f_equal.
    assert (Hc2 : AlertManager.clock s2 = AlertManager.clock s1) by reflexivity.
    rewrite Hc2. unfold s2. rewrite (recent_after_cleanup m s1). exact Hadm. }
  exists s3. split; [| repeat split].
  unfold AlertManager.check_and_create_alerts.
  rewrite (bind_run _ _ _ _ _ H1), (bind_run _ _ _ _ _ H2),
    (bind_run _ _ _ _ _ H3).
  reflexivity.
Qed.

Lemma rate_limited_call_dropped_witness :
  exists s',
    AlertManager.check_and_create_alerts "M-C" Scenario.degraded_sensors
      17 22 true 3 EmissionExamples.over_limit = AlertManager.Val [] s' /\
    AlertManager.db s' = AlertManager.db EmissionExamples.over_limit /\
    AlertManager.window_manager s' =
      AlertManager.window_manager EmissionExamples.over_limit /\
    AlertManager.pending_alerts s' =
      AlertManager.pending_alerts
        (AlertManager.state_of
           (AlertManager._cleanup_old_pending_alerts EmissionExamples.over_limit)).
Proof.
  apply (rate_limited_call_dropped "M-C" Scenario.degraded_sensors 17 22 true 3
           EmissionExamples.over_limit).
  vm_compute. reflexivity.
Defined.

(** ** What a window holds, and what an approval rests on *)

Section WindowContents.

Import EvaluationWindow.

Lemma prune_idempotent now w :
  _prune_old_samples now (_prune_old_samples now w) = _prune_old_samples now w.
Proof.
  unfold _prune_old_samples, with_samples. cbn. now rewrite filter_idempotent.
Qed.

Lemma evaluate_window now w : fst (evaluate now w) = _prune_old_samples now w.
Proof. unfold evaluate. destruct (_ <? _)%nat; reflexivity. Qed.

Lemma filter_is_sublist {A} (p : A -> bool) (l : list A) :
  sublist (List.filter p l) l.
Proof.
  induction l as [| a l IH]; cbn; [constructor |].
  destruct (p a); now constructor.
Qed.

Lemma prune_within now w :
  Forall (fun s => now - Num.seconds (duration_seconds w) <= timestamp s)
         (samples (_prune_old_samples now w)).
Proof.
  unfold _prune_old_samples. cbn. apply List.Forall_forall. intros s Hs.
  apply filter_In in Hs as [_ Hs]. lia.
Qed.

Lemma last_map {A B} (f : A -> B) (l : list A) (d : A) :
  List.last (List.map f l) (f d) = f (List.last l d).
Proof.
  induction l as [| a l IH]; [reflexivity |].
  destruct l as [| b l]; [reflexivity |]. exact IH.
Qed.

Lemma last_cons_default {A} (a : A) (l : list A) (d d' : A) :
  List.last (a :: l) d = List.last (a :: l) d'.
Proof.
  revert a. induction l as [| b l IH]; intros a; [reflexivity |].
  change (List.last (b :: l) d = List.last (b :: l) d'). apply IH.
Qed.

(** With samples spanning less than a second the trend is reported as 0. *)
Lemma trend_short_span (ts : list Z) (vs : list Q) :
  (Num.total_seconds (List.last ts 0%Z - List.hd 0%Z ts) < 1)%Q ->
  _calculate_trend ts vs = 0%Q.
Proof.
  intros H. unfold _calculate_trend.
  destruct (length vs <? 2)%nat; [reflexivity |].
  destruct ts as [| t0 ts]; [reflexivity |].
  match goal with |- (if ?b then _ else _) = _ => assert (E : b = true) end.
  { apply Qltb_true. cbn [List.hd] in H.
    set (f := fun t => Num.total_seconds (t - t0)).
    cbn [List.map List.hd].
    rewrite (last_cons_default (f t0) (List.map f ts) 0%Q (f t0)).
    change (f t0 :: List.map f ts) with (List.map f (t0 :: ts)).
    rewrite (last_map f (t0 :: ts) t0). unfold f.
    assert (E0 : (Num.total_seconds (t0 - t0) == 0)%Q).
    { unfold Num.total_seconds. rewrite Z.sub_diag. reflexivity. }
    rewrite E0, (last_cons_default t0 ts t0 0). lra. }
  now rewrite E.
Qed.

End WindowContents.

(** X9: an approval of [EvaluationWindow.evaluate] rests on evidence.
    Whenever it answers [may_proceed = true], the window holds at least three
    samples after pruning and [sample_count] is their number; the reported
    [pct_above_threshold] lies between 0 and 1 and is at least
    [required_pct_above]; and if the window requires a worsening trend, the
    first and the last sample are at least one second apart, because a
    shorter span makes [_calculate_trend] report 0. *)
Theorem approval_rests_on_evidence (now : Z) (w : EvaluationWindow.t) :
  let kept := EvaluationWindow.samples (fst (EvaluationWindow.evaluate now w)) in
  let ev := snd (EvaluationWindow.evaluate now w) in
  EvaluationWindow.may_proceed ev = true ->
  (3 <= length kept)%nat /\
  EvaluationWindow.sample_count ev = length kept /\
  (0 <= EvaluationWindow.pct_above_threshold ev <= 1)%Q /\
  (EvaluationWindow.required_pct_above w <=
   EvaluationWindow.pct_above_threshold ev)%Q /\
  (EvaluationWindow.require_worsening_trend w = true ->
   (1 <= EvaluationWindow.window_duration_actual ev)%Q /\
   EvaluationWindow.window_duration_actual ev =
     Num.total_seconds
       (List.last (List.map EvaluationWindow.timestamp kept) 0 -
        List.hd 0 (List.map EvaluationWindow.timestamp kept))).
Proof.
  intros kept ev. subst kept ev. rewrite evaluate_window.
  unfold EvaluationWindow.evaluate.
  set (w' := EvaluationWindow._prune_old_samples now w).
  destruct (length (EvaluationWindow.samples w') <? 3)%nat eqn:E;
    [discriminate |].
  apply Nat.ltb_ge in E.
  cbn [snd EvaluationWindow.may_proceed EvaluationWindow.sample_count
       EvaluationWindow.pct_above_threshold
       EvaluationWindow.window_duration_actual].
  intros H. apply andb_prop in H as [H Hpct]. apply andb_prop in H as [_ Htrend].
  split; [exact E |]. split; [reflexivity |].
  rewrite length_map. rewrite length_map in Hpct.
  set (n := length (EvaluationWindow.samples w')) in *.
  set (c := EvaluationWindow.count_above _ _) in *.
  assert (Hc : (c <= n)%nat).
  { unfold c, n, EvaluationWindow.count_above.
    rewrite <- (length_map EvaluationWindow.risk_score (EvaluationWindow.samples w')).
    apply List.filter_length_le. }
  assert (Hn : (0 < inject_Z (Z.of_nat n))%Q).
  { change 0%Q with (inject_Z 0). rewrite <- Zlt_Qlt. lia. }
  split; [| split].
  - split.
    + apply Qle_shift_div_l; [exact Hn |]. rewrite Qmult_0_l.
      change 0%Q with (inject_Z 0). rewrite <- Zle_Qle. lia.
    + apply Qle_shift_div_r; [exact Hn |]. rewrite Qmult_1_l.
      rewrite <- Zle_Qle. lia.
  - apply Qleb_true. exact Hpct.
  - intros Hreq.
    assert (Ereq : EvaluationWindow.require_worsening_trend w' = true)
      by exact Hreq.
    rewrite Ereq in Htrend. cbn [negb orb] in Htrend.
    split; [| reflexivity].
    apply Qnot_lt_le. intros Hshort.
    rewrite (trend_short_span _ _ Hshort) in Htrend. discriminate Htrend.
Qed.

Lemma approval_rests_on_evidence_witness :
  let kept :=
    EvaluationWindow.samples
      (fst (EvaluationWindow.evaluate (Num.seconds 48)
              WindowExamples.three_samples_window)) in
  let ev := snd (EvaluationWindow.evaluate (Num.seconds 48)
                   WindowExamples.three_samples_window) in
  (3 <= length kept)%nat /\
  EvaluationWindow.sample_count ev = length kept /\
  (0 <= EvaluationWindow.pct_above_threshold ev <= 1)%Q /\
  (EvaluationWindow.required_pct_above WindowExamples.three_samples_window <=
   EvaluationWindow.pct_above_threshold ev)%Q /\
  (EvaluationWindow.require_worsening_trend WindowExamples.three_samples_window
     = true ->
   (1 <= EvaluationWindow.window_duration_actual ev)%Q /\
   EvaluationWindow.window_duration_actual ev =
     Num.total_seconds
       (List.last (List.map EvaluationWindow.timestamp kept) 0 -
        List.hd 0 (List.map EvaluationWindow.timestamp kept))).
Proof.
  apply (approval_rests_on_evidence (Num.seconds 48)
           WindowExamples.three_samples_window).
  vm_compute. reflexivity.
Defined.

(** X10: [EvaluationWindow.evaluate] only discards.  The samples it keeps
    are a sublist of the samples the window held, in the same order, and none
    is older than the window duration; asked again at the same instant it
    gives the same answer and leaves the window as the first call left it. *)
Theorem evaluate_settles (now : Z) (w : EvaluationWindow.t) :
  let w' := fst (EvaluationWindow.evaluate now w) in
  EvaluationWindow.evaluate now w' = (w', snd (EvaluationWindow.evaluate now w)) /\
  sublist (EvaluationWindow.samples w') (EvaluationWindow.samples w) /\
  Forall (fun s => now - Num.seconds (EvaluationWindow.duration_seconds w) <=
                   EvaluationWindow.timestamp s)
         (EvaluationWindow.samples w').
Proof.
  intros w'. subst w'. rewrite evaluate_window. split; [| split].
  - assert (E : EvaluationWindow.evaluate now
                  (EvaluationWindow._prune_old_samples now w) =
                EvaluationWindow.evaluate now w).
    { unfold EvaluationWindow.evaluate. now rewrite prune_idempotent. }
    rewrite E, <- evaluate_window. now destruct (EvaluationWindow.evaluate now w).
  - rewrite prune_samples. apply filter_is_sublist.
  - apply prune_within.
Qed.

Section ClearedWindows.

Import EvaluationWindowManager.

Lemma add_sample_length now risk health rul sensors w :
  (length (EvaluationWindow.samples
             (EvaluationWindow.add_sample now risk health rul sensors w)) <=
   S (length (EvaluationWindow.samples w)))%nat.
Proof.
  unfold EvaluationWindow.add_sample, EvaluationWindow._prune_old_samples. cbn.
  etransitivity; [apply List.filter_length_le |].
  rewrite length_app. cbn. lia.
Qed.

(** Samples held for a key: none when the key has no window. *)
Lemma add_samples_length m ty readings : forall windows n,
  (forall w, windows !! (m, ty) = Some w ->
             (length (EvaluationWindow.samples w) <= n)%nat) ->
  forall w, WindowRuns.add_samples m ty readings windows !! (m, ty) = Some w ->
            (length (EvaluationWindow.samples w) <= n + length readings)%nat.
Proof.
  induction readings as [| r readings IH]; intros windows n H w Hw.
  - cbn in Hw. specialize (H w Hw). cbn. lia.
  - unfold WindowRuns.add_samples; cbn [fold_left]; fold (WindowRuns.add_samples m ty readings) in Hw.
    apply (IH _ (S n)) in Hw; [cbn; lia |].
    intros w1. unfold add_sample. rewrite lookup_insert_eq. intros [= <-].
    etransitivity; [apply add_sample_length |].
    destruct (windows !! (m, ty)) as [w0 |] eqn:E.
    + specialize (H w0 eq_refl). lia.
    + cbn. lia.
Qed.

Lemma add_samples_other m ty readings key : forall windows,
  key <> (m, ty) ->
  WindowRuns.add_samples m ty readings windows !! key = windows !! key.
Proof.
  induction readings as [| r readings IH]; intros windows Hne; [reflexivity |].
  unfold WindowRuns.add_samples; cbn [fold_left]; fold (WindowRuns.add_samples m ty readings).
  etransitivity; [apply IH, Hne |].
  unfold add_sample. now apply lookup_insert_ne.
Qed.

End ClearedWindows.

(** X11: after [clear_machine] a machine starts over.  With fewer than
    three samples added for an alert type since the clearing, [evaluate] for
    that machine and type answers [may_proceed = false], at whatever
    instants the samples were added and the question is asked; and the
    windows of every other machine are what they were. *)
Theorem cleared_machine_starts_over (m ty : string)
    (readings : list WindowRuns.reading) (now : Z)
    (windows : gmap (string * string) EvaluationWindow.t) :
  (length readings < 3)%nat ->
  let ws := WindowRuns.add_samples m ty readings (EvaluationWindowManager.clear_machine m windows) in
  EvaluationWindow.may_proceed
    (snd (EvaluationWindowManager.evaluate now m ty ws)) = false /\
  (forall m' ty', m' <> m -> ws !! (m', ty') = windows !! (m', ty')).
Proof.
  intros Hlen ws. subst ws. split.
  - unfold EvaluationWindowManager.evaluate.
    destruct (WindowRuns.add_samples m ty readings (EvaluationWindowManager.clear_machine m windows)
                !! (m, ty)) as [w |] eqn:E; [| reflexivity].
    apply (add_samples_length m ty readings _ 0%nat) in E.
    + pose proof (evaluate_few now w) as Hfew.
      destruct (EvaluationWindow.evaluate now w) as [w' ev]. cbn [snd] in *.
      apply Hfew. rewrite prune_samples.
      eapply Nat.le_lt_trans; [apply List.filter_length_le | cbn in E; lia].
    + intros w0. unfold EvaluationWindowManager.clear_machine. rewrite map_lookup_imap.
      destruct (windows !! (m, ty)) as [w1 |]; [| discriminate].
      cbn. rewrite String.eqb_refl. intros [= <-]. cbn. lia.
  - intros m' ty' Hne. rewrite add_samples_other by congruence.
    unfold EvaluationWindowManager.clear_machine. rewrite map_lookup_imap.
    destruct (windows !! (m', ty')) as [w1 |]; [| reflexivity].
    cbn. destruct (String.eqb_spec m' m) as [-> | _]; [now contradiction Hne |].
    reflexivity.
Qed.

Lemma cleared_machine_starts_over_witness :
  let ws :=
    WindowRuns.add_samples "M-C" "critical_rul" WindowRuns.two_readings
      (EvaluationWindowManager.clear_machine "M-C"
         (AlertManager.window_manager ManagerExamples.after_burst)) in
  EvaluationWindow.may_proceed
    (snd (EvaluationWindowManager.evaluate (Num.seconds 192) "M-C" "critical_rul"
            ws)) = false /\
  (forall m' ty',
     m' <> "M-C"%string ->
     ws !! (m', ty') =
     AlertManager.window_manager ManagerExamples.after_burst !! (m', ty')).
Proof.
  apply (cleared_machine_starts_over "M-C" "critical_rul" WindowRuns.two_readings
           (Num.seconds 192)
           (AlertManager.window_manager ManagerExamples.after_burst)).
  vm_compute. lia.
Defined.

(** ** The health heuristic *)

Section HeuristicShape.

Import Heuristic.

Local Open Scope Q_scope.

Lemma heuristic_stages sd :
  RULPredictor._heuristic_rul sd =
  (Num.round (rul_of (health_of (vib_score (avg_vib sd))
                                (temp_score (temperature sd)))) 1,
   Num.round (health_of (vib_score (avg_vib sd)) (temp_score (temperature sd))) 2).
Proof. reflexivity. Qed.

Lemma health_of_bounds v t : 0 <= health_of v t <= 100.
Proof.
  unfold health_of. split.
  - apply pymin_glb; [lra | apply pymax_ge_l].
  - apply pymin_le_l.
Qed.

Lemma rul_of_bounds h : 0 <= h <= 100 -> 0 <= rul_of h <= 144.
Proof.
  intros [H0 H1]. unfold rul_of.
  destruct (Num.Qleb 70 h) eqn:E1.
  - apply Qleb_true in E1.
    assert (E : (h - 70) / 30 * 72 == (h - 70) * (72 # 30)) by field. lra.
  - apply Qleb_false in E1. destruct (Num.Qleb 40 h) eqn:E2.
    + apply Qleb_true in E2.
      assert (E : (h - 40) / 30 * 48 == (h - 40) * (48 # 30)) by field. lra.
    + assert (E : h / 40 * 24 == h * (24 # 40)) by field. lra.
Qed.

Lemma rul_of_mono h1 h2 : h1 <= h2 -> rul_of h1 <= rul_of h2.
Proof.
  intros H. unfold rul_of.
  assert (Ea : forall h, (h - 70) / 30 * 72 == (h - 70) * (72 # 30))
    by (intros; field).
  assert (Eb : forall h, (h - 40) / 30 * 48 == (h - 40) * (48 # 30))
    by (intros; field).
  assert (Ec : forall h, h / 40 * 24 == h * (24 # 40)) by (intros; field).
  destruct (Num.Qleb 70 h1) eqn:A1; [apply Qleb_true in A1 | apply Qleb_false in A1];
  destruct (Num.Qleb 70 h2) eqn:A2; [apply Qleb_true in A2 | apply Qleb_false in A2 | apply Qleb_true in A2 | apply Qleb_false in A2];
  try (destruct (Num.Qleb 40 h1) eqn:B1; [apply Qleb_true in B1 | apply Qleb_false in B1]);
  try (destruct (Num.Qleb 40 h2) eqn:B2; [apply Qleb_true in B2 | apply Qleb_false in B2]);
  rewrite ?Ea, ?Eb, ?Ec; lra.
Qed.

(** Rounding keeps a value between two integers. *)
Lemma round_between (a b : Z) x n :
  inject_Z a <= x <= inject_Z b ->
  inject_Z a <= Num.round x n <= inject_Z b.
Proof.
  intros [Ha Hb]. pose proof (scale_pos n) as Hs.
  assert (E' : forall k : Z,
    inject_Z (k * 10 ^ Z.of_nat n) / inject_Z (10 ^ Z.of_nat n) == inject_Z k).
  { intros k. rewrite inject_Z_mult. field. lra. }
  split.
  - apply Qle_trans with
      (Num.round (inject_Z (a * 10 ^ Z.of_nat n) / inject_Z (10 ^ Z.of_nat n)) n).
    + rewrite round_of_multiple, E'. lra.
    + apply round_mono. now rewrite E'.
  - apply Qle_trans with
      (Num.round (inject_Z (b * 10 ^ Z.of_nat n) / inject_Z (10 ^ Z.of_nat n)) n).
    + apply round_mono. now rewrite E'.
    + rewrite round_of_multiple, E'. lra.
Qed.

End HeuristicShape.

Section HeuristicOrder.

Import Heuristic.

Local Open Scope Q_scope.

Lemma vib_score_antitone a b : a <= b -> vib_score b <= vib_score a.
Proof.
  intros H. unfold vib_score.
  assert (E1 : forall x, (x - (65 # 100)) / (55 # 100) * 20 ==
                         (x - (65 # 100)) * (2000 # 55)) by (intros; field).
  assert (E2 : forall x, (x - (12 # 10)) / (13 # 10) * 50 ==
                         (x - (12 # 10)) * (500 # 13)) by (intros; field).
  assert (E3 : forall x, (x - (25 # 10)) / 1 * 30 == (x - (25 # 10)) * 30)
    by (intros; field).
  destruct (Num.Qleb a (65 # 100)) eqn:A1;
    [apply Qleb_true in A1 | apply Qleb_false in A1;
     destruct (Num.Qleb a (12 # 10)) eqn:A2;
       [apply Qleb_true in A2 | apply Qleb_false in A2;
        destruct (Num.Qleb a (25 # 10)) eqn:A3;
          [apply Qleb_true in A3 | apply Qleb_false in A3]]];
  (destruct (Num.Qleb b (65 # 100)) eqn:B1;
    [apply Qleb_true in B1 | apply Qleb_false in B1;
     destruct (Num.Qleb b (12 # 10)) eqn:B2;
       [apply Qleb_true in B2 | apply Qleb_false in B2;
        destruct (Num.Qleb b (25 # 10)) eqn:B3;
          [apply Qleb_true in B3 | apply Qleb_false in B3]]]);
  try (rewrite ?E1, ?E2, ?E3; lra).
  - apply pymax_lub; rewrite ?E1, ?E2, ?E3; lra.
  - apply pymax_lub; rewrite ?E1, ?E2, ?E3; lra.
  - apply pymax_lub; rewrite ?E1, ?E2, ?E3; lra.
  - apply pymax_lub; [apply pymax_ge_l |].
    eapply Qle_trans; [| apply pymax_ge_r]. rewrite !E3. lra.
Qed.

Lemma health_of_mono v1 v2 t : v1 <= v2 -> health_of v1 t <= health_of v2 t.
Proof.
  intros H. unfold health_of.
  apply pymin_glb; [apply pymin_le_l |].
  eapply Qle_trans; [apply pymin_le_r |].
  apply pymax_lub; [apply pymax_ge_l |].
  eapply Qle_trans; [| apply pymax_ge_r]. lra.
Qed.

End HeuristicOrder.

(** X12: whatever the sensor readings (missing, negative or huge), the
    prediction of [_heuristic_rul] is in range, the RUL between 0 and
    [MAX_RUL_HOURS] = 144 hours and the health score between 0 and 100; and
    its two components agree on the severity: a health score below
    [HEALTH_CRITICAL_TRIGGER] comes with a RUL below [RUL_CRITICAL_TRIGGER],
    and a health score below [HEALTH_WARNING_TRIGGER] with a RUL below
    [RUL_WARNING_TRIGGER]. *)
Theorem heuristic_rul_in_range (sd : gmap string Q) :
  let rul := fst (RULPredictor._heuristic_rul sd) in
  let health := snd (RULPredictor._heuristic_rul sd) in
  (0 <= rul <= Config.MAX_RUL_HOURS)%Q /\
  (0 <= health <= 100)%Q /\
  ((health < Config.HEALTH_CRITICAL_TRIGGER)%Q ->
   (rul < Config.RUL_CRITICAL_TRIGGER)%Q) /\
  ((health < Config.HEALTH_WARNING_TRIGGER)%Q ->
   (rul < Config.RUL_WARNING_TRIGGER)%Q).
Proof.
  intros rul health. subst rul health. rewrite heuristic_stages. cbn [fst snd].
  set (h := Heuristic.health_of (Heuristic.vib_score (Heuristic.avg_vib sd))
              (Heuristic.temp_score (Heuristic.temperature sd))).
  pose proof (health_of_bounds
                (Heuristic.vib_score (Heuristic.avg_vib sd))
                (Heuristic.temp_score (Heuristic.temperature sd))) as Hh.
  fold h in Hh.
  pose proof (rul_of_bounds h Hh) as Hr.
  pose proof (round_near h 2) as Nh. apply Qabs_Qle_condition in Nh.
  pose proof (round_near (Heuristic.rul_of h) 1) as Nr.
  apply Qabs_Qle_condition in Nr.
  assert (S2 : (1 # 2) / inject_Z (10 ^ Z.of_nat 2) == 1 # 200) by reflexivity.
  assert (S1 : (1 # 2) / inject_Z (10 ^ Z.of_nat 1) == 1 # 20) by reflexivity.
  rewrite S2 in Nh. rewrite S1 in Nr.
  split; [apply (round_between 0 144); exact Hr |].
  split; [apply (round_between 0 100); exact Hh |].
  unfold Config.HEALTH_CRITICAL_TRIGGER, Config.RUL_CRITICAL_TRIGGER,
    Config.HEALTH_WARNING_TRIGGER, Config.RUL_WARNING_TRIGGER.
  split; intros Hlow.
  - assert (Hm : (Heuristic.rul_of h <= Heuristic.rul_of (3001 # 100))%Q)
      by (apply rul_of_mono; lra).
    assert (Hv : (Heuristic.rul_of (3001 # 100) <= 19)%Q)
      by (vm_compute; discriminate).
    lra.
  - assert (Hm : (Heuristic.rul_of h <= Heuristic.rul_of (5001 # 100))%Q)
      by (apply rul_of_mono; lra).
    assert (Hv : (Heuristic.rul_of (5001 # 100) <= 41)%Q)
      by (vm_compute; discriminate).
    lra.
Qed.

(** X13: more vibration never predicts a healthier machine.  Of two
    readings with the same temperature, the one whose mean of [vibration_x]
    and [vibration_y] is larger gets a health score and a RUL that are not
    larger. *)
Theorem more_vibration_never_healthier (sd1 sd2 : gmap string Q) :
  Heuristic.temperature sd1 = Heuristic.temperature sd2 ->
  (Heuristic.avg_vib sd1 <= Heuristic.avg_vib sd2)%Q ->
  (snd (RULPredictor._heuristic_rul sd2) <=
   snd (RULPredictor._heuristic_rul sd1))%Q /\
  (fst (RULPredictor._heuristic_rul sd2) <=
   fst (RULPredictor._heuristic_rul sd1))%Q.
Proof.
  intros Ht Hv. rewrite !heuristic_stages. cbn [fst snd]. rewrite Ht.
  pose proof (health_of_mono _ _
                (Heuristic.temp_score (Heuristic.temperature sd2))
                (vib_score_antitone _ _ Hv)) as Hh.
  split.
  - apply round_mono. exact Hh.
  - apply round_mono, rul_of_mono. exact Hh.
Qed.

Lemma more_vibration_never_healthier_witness :
  (snd (RULPredictor._heuristic_rul
          (<["temperature"%string := 75%Q]> Scenario.degraded_sensors)) <=
   snd (RULPredictor._heuristic_rul Scenario.healthy_sensors))%Q /\
  (fst (RULPredictor._heuristic_rul
          (<["temperature"%string := 75%Q]> Scenario.degraded_sensors)) <=
   fst (RULPredictor._heuristic_rul Scenario.healthy_sensors))%Q.
Proof.
  apply (more_vibration_never_healthier Scenario.healthy_sensors
           (<["temperature"%string := 75%Q]> Scenario.degraded_sensors)).
  - vm_compute. reflexivity.
  - vm_compute. discriminate.
Defined.

(** ** The stabilizer stays in range *)

Section StabilizerRange.

Import StabilizedRULPredictor History Range.

Local Open Scope Q_scope.

Lemma raw_in_range sd m : Heuristic.in_range (RULPredictor.predict_rul sd m).
Proof.
  unfold RULPredictor.predict_rul. rewrite heuristic_stages.
  unfold Heuristic.in_range. cbn [fst snd].
  pose proof (health_of_bounds
                (Heuristic.vib_score (Heuristic.avg_vib sd))
                (Heuristic.temp_score (Heuristic.temperature sd))) as Hh.
  pose proof (rul_of_bounds _ Hh) as Hr.
  split; [apply (round_between 0 144); exact Hr
         | apply (round_between 0 100); exact Hh].
Qed.

Lemma clamp_rul_bounds x :
  0 <= Num.pymax Config.MIN_RUL_HOURS (Num.pymin x Config.MAX_RUL_HOURS) <=
  Config.MAX_RUL_HOURS.
Proof.
  split; [apply pymax_ge_l |].
  apply pymax_lub; [discriminate | apply pymin_le_r].
Qed.

Lemma clamp_health_bounds x : 0 <= Num.pymax 0 (Num.pymin 100 x) <= 100.
Proof.
  split; [apply pymax_ge_l |].
  apply pymax_lub; [discriminate | apply pymin_le_l].
Qed.

Lemma kept_history self m h :
  kept self -> (length h <= 50)%nat -> Forall entry_in_range h ->
  stable_predictions (set_history self m h) = stable_predictions self /\
  forall m', (length (history_of (set_history self m h) m') <= 50)%nat /\
             Forall entry_in_range (history_of (set_history self m h) m').
Proof.
  intros [_ Hh] Hlen Hall. split; [reflexivity |]. intros m'.
  unfold history_of, set_history. cbn [prediction_history].
  destruct (decide (m' = m)) as [-> | Hne].
  - rewrite lookup_insert_eq. cbn. auto.
  - rewrite lookup_insert_ne by congruence. apply Hh.
Qed.

Lemma stabilize_in_range m raw_rul raw_health ts self :
  kept self -> Heuristic.in_range (raw_rul, raw_health) ->
  let r := _stabilize_prediction m raw_rul raw_health ts self in
  Heuristic.in_range (snd r) /\
  stable_predictions (fst r) = stable_predictions self /\
  last_prediction_time (fst r) = last_prediction_time self /\
  forall m', (length (history_of (fst r) m') <= 50)%nat /\
             Forall entry_in_range (history_of (fst r) m').
Proof.
  intros Hk Hraw r. subst r. unfold _stabilize_prediction.
  pose proof (proj2 Hk m) as [Hlen Hall]. unfold history_of in Hlen, Hall.
  set (history := default [] (prediction_history self !! m)) in *.
  destruct (length history =? 0)%nat eqn:E.
  - cbn [fst snd]. split; [exact Hraw |].
    apply Nat.eqb_eq in E.
    destruct (kept_history self m (history ++ [(ts, raw_rul, raw_health)]) Hk)
      as [Hs Hh].
    + rewrite length_app. cbn. lia.
    + apply Forall_app. split; [exact Hall |]. constructor; [exact Hraw | constructor].
    + auto.
  - destruct (List.last history (0%Z, 0, 0)) as [[t0 prev_rul] prev_health].
    cbv zeta. cbn [fst snd].
    match goal with
    | |- context [Num.round (Num.pymax Config.MIN_RUL_HOURS ?a) 1] =>
        set (stable_rul := Num.pymax Config.MIN_RUL_HOURS a)
    end.
    match goal with
    | |- context [Num.round (Num.pymax 0 ?a) 2] =>
        set (stable_health := Num.pymax 0 a)
    end.
    assert (Hr : 0 <= stable_rul <= Config.MAX_RUL_HOURS)
      by apply clamp_rul_bounds.
    assert (Hh : 0 <= stable_health <= 100) by apply clamp_health_bounds.
    split.
    { split; cbn [fst snd].
      - apply (round_between 0 144). exact Hr.
      - apply (round_between 0 100). exact Hh. }
    set (appended := history ++ [(ts, stable_rul, stable_health)]).
    assert (Happ : Forall entry_in_range appended).
    { apply Forall_app. split; [exact Hall |].
      constructor; [split; assumption | constructor]. }
    assert (Hlapp : length appended = S (length history))
      by (unfold appended; rewrite length_app; cbn; lia).
    destruct (kept_history self m
                (if (50 <? length appended)%nat then List.tl appended else appended)
                Hk) as [Hs Hhist].
    + destruct (50 <? length appended)%nat eqn:E50.
      * destruct appended; cbn in *; lia.
      * apply Nat.ltb_ge in E50. exact E50.
    + destruct (50 <? length appended)%nat; [| exact Happ].
      destruct appended; [constructor |]. cbn. now inversion Happ.
    + auto.
Qed.

Lemma kept_init : kept __init__.
Proof.
  split.
  - intros m p H. cbn in H. now rewrite lookup_empty in H.
  - intros m. unfold history_of. cbn. rewrite lookup_empty. cbn.
    split; [lia | constructor].
Qed.

Lemma kept_predict now sd m b self :
  kept self ->
  kept (fst (predict_rul now sd m b self)) /\
  Heuristic.in_range (snd (predict_rul now sd m b self)).
Proof.
  intros Hk. unfold predict_rul. destruct b.
  - cbn [fst snd]. split; [| apply raw_in_range].
    destruct Hk as [Hs Hh]. split.
    + intros m' p. cbn [stable_predictions].
      intros H. apply lookup_delete_Some in H as [_ H]. eauto.
    + intros m'. unfold history_of. cbn [prediction_history].
      destruct (decide (m' = m)) as [-> | Hne].
      * rewrite lookup_delete_eq. cbn. split; [lia | constructor].
      * rewrite lookup_delete_ne by congruence. apply Hh.
  - cbv zeta.
    match goal with
    | |- context [match ?c with Some pred => _ | None => _ end] =>
        destruct c as [pred |] eqn:Ec
    end.
    + cbn [fst snd]. split; [exact Hk |].
      destruct (last_prediction_time self !! m) as [t_last |]; [| discriminate].
      destruct (now - t_last <? min_interval); [| discriminate].
      exact (proj1 Hk m pred Ec).
    + pose proof (raw_in_range sd m) as Hraw.
      destruct (RULPredictor.predict_rul sd m) as [raw_rul raw_health].
      pose proof (stabilize_in_range m raw_rul raw_health now self Hk Hraw)
        as (Hp & Hs & _ & Hh).
      destruct (_stabilize_prediction m raw_rul raw_health now self)
        as [self1 [stable_rul stable_health]].
      cbn [fst snd] in *. split; [| exact Hp]. split.
      * intros m' p. cbn [stable_predictions].
        destruct (decide (m' = m)) as [-> | Hne].
        -- rewrite lookup_insert_eq. intros [= <-]. exact Hp.
        -- rewrite lookup_insert_ne by congruence. rewrite Hs.
           apply (proj1 Hk).
      * exact Hh.
Qed.

Lemma kept_reset m self : kept self -> kept (reset_machine m self).
Proof.
  intros [Hs Hh]. split.
  - intros m' p. cbn [reset_machine stable_predictions].
    intros H. apply lookup_delete_Some in H as [_ H]. eauto.
  - intros m'. unfold history_of, reset_machine. cbn [prediction_history].
    destruct (prediction_history self !! m) eqn:E; [| apply Hh].
    destruct (decide (m' = m)) as [-> | Hne].
    + rewrite lookup_insert_eq. cbn. split; [lia | constructor].
    + rewrite lookup_insert_ne by congruence. apply Hh.
Qed.

Lemma run_in_range cs : forall self,
  kept self ->
  kept (fst (run cs self)) /\
  Forall (fun r => Heuristic.in_range (snd r)) (snd (run cs self)).
Proof.
  induction cs as [| c cs IH]; intros self Hk.
  - cbn. split; [exact Hk | constructor].
  - cbn [run]. destruct c as [now sd m b | m]; cbn [step].
    + pose proof (kept_predict now sd m b self Hk) as [Hk1 Hp].
      destruct (predict_rul now sd m b self) as [self1 p]. cbn [fst snd] in *.
      specialize (IH self1 Hk1). destruct (run cs self1) as [self2 rs].
      cbn [fst snd] in *. split; [apply IH |].
      constructor; [exact Hp | apply IH].
    + specialize (IH _ (kept_reset m self Hk)).
      destruct (run cs (reset_machine m self)) as [self2 rs].
      cbn [fst snd] in *. exact IH.
Qed.

End StabilizerRange.

(** X14: the stabilizer stays in range.  For every sequence of
    predictions (smoothed or bypassed, for any machines, at any clock
    readings, with any sensor values) and resets, from the initial state:
    every prediction returned has a RUL between 0 and [MAX_RUL_HOURS] and a
    health score between 0 and 100; and afterwards every cached prediction is
    in range and every history holds at most 50 entries, all in range. *)
Theorem stabilizer_stays_in_range (cs : list StabilizedRULPredictor.call) :
  let final := fst (StabilizedRULPredictor.run cs StabilizedRULPredictor.__init__) in
  let returned :=
    snd (StabilizedRULPredictor.run cs StabilizedRULPredictor.__init__) in
  Forall (fun r => (0 <= fst (snd r) <= Config.MAX_RUL_HOURS)%Q /\
                   (0 <= snd (snd r) <= 100)%Q) returned /\
  (forall m p,
     StabilizedRULPredictor.stable_predictions final !! m = Some p ->
     (0 <= fst p <= Config.MAX_RUL_HOURS)%Q /\ (0 <= snd p <= 100)%Q) /\
  (forall m,
     (length (History.history_of final m) <= 50)%nat /\
     Forall Range.entry_in_range (History.history_of final m)).
Proof.
  intros final returned. subst final returned.
  destruct (run_in_range cs StabilizedRULPredictor.__init__ kept_init)
    as [[Hs Hh] Hall].
  split; [exact Hall |]. split; [exact Hs | exact Hh].
Qed.

Section StabilizerCache.

Import StabilizedRULPredictor History.

Lemma stabilize_first m raw_rul raw_health ts self :
  history_of self m = [] ->
  snd (_stabilize_prediction m raw_rul raw_health ts self) = (raw_rul, raw_health).
Proof.
  unfold history_of, _stabilize_prediction. intros ->. reflexivity.
Qed.

Lemma predict_fresh now sd m self :
  last_prediction_time self !! m = None -> history_of self m = [] ->
  snd (predict_rul now sd m false self) = RULPredictor.predict_rul sd m.
Proof.
  intros Ht Hh. unfold predict_rul. rewrite Ht.
  destruct (RULPredictor.predict_rul sd m) as [raw_rul raw_health].
  pose proof (stabilize_first m raw_rul raw_health now self Hh) as E.
  destruct (_stabilize_prediction m raw_rul raw_health now self)
    as [self1 [stable_rul stable_health]].
  cbn [snd] in *. exact E.
Qed.

End StabilizerCache.

(** X15: a reset or a bypassed prediction gives the machine a fresh start.
    After [reset_machine], and equally after a prediction with
    [bypass_smoothing], the next smoothed prediction for that machine is the
    raw prediction of the underlying predictor for the sensors it is given:
    no cache is consulted and no average with earlier values is taken,
    whatever the clock reading and whatever was predicted before. *)
Theorem fresh_start_returns_raw (self : StabilizedRULPredictor.t)
    (now : Z) (sd : gmap string Q) (m : string) :
  snd (StabilizedRULPredictor.predict_rul now sd m false
         (StabilizedRULPredictor.reset_machine m self)) =
    RULPredictor.predict_rul sd m /\
  (forall now0 sd0,
     snd (StabilizedRULPredictor.predict_rul now sd m false
            (fst (StabilizedRULPredictor.predict_rul now0 sd0 m true self))) =
     RULPredictor.predict_rul sd m).
Proof.
  split.
  - apply predict_fresh.
    + cbn. apply lookup_delete_eq.
    + unfold History.history_of. cbn.
      destruct (StabilizedRULPredictor.prediction_history self !! m) eqn:E.
      * now rewrite lookup_insert_eq.
      * now rewrite E.
  - intros now0 sd0. apply predict_fresh.
    + cbn. apply lookup_delete_eq.
    + unfold History.history_of. cbn. now rewrite lookup_delete_eq.
Qed.

(** X16: between two recomputations the stabilizer answers from its
    cache.  If a smoothed prediction for a machine has recorded the clock
    reading [now] as the time of its last prediction, every smoothed
    prediction for that machine at a reading less than
    [MIN_PREDICTION_INTERVAL_SECONDS] after [now] returns the same pair and
    leaves the state untouched, whatever sensors it is given. *)
Theorem prediction_cached_within_interval (self : StabilizedRULPredictor.t)
    (now now' : Z) (sd sd' : gmap string Q) (m : string) :
  let r := StabilizedRULPredictor.predict_rul now sd m false self in
  StabilizedRULPredictor.last_prediction_time (fst r) !! m = Some now ->
  now' - now < Num.seconds Config.MIN_PREDICTION_INTERVAL_SECONDS ->
  StabilizedRULPredictor.predict_rul now' sd' m false (fst r) = r.
Proof.
  intros r Hlast Hnear. subst r.
  assert (Hcache :
    StabilizedRULPredictor.stable_predictions
      (fst (StabilizedRULPredictor.predict_rul now sd m false self)) !! m =
    Some (snd (StabilizedRULPredictor.predict_rul now sd m false self))).
  { unfold StabilizedRULPredictor.predict_rul in *.
    match goal with
    | |- context [match ?c with Some pred => _ | None => _ end] =>
        destruct c as [pred |] eqn:Ec
    end.
    - cbn [fst snd] in *.
      destruct (StabilizedRULPredictor.last_prediction_time self !! m)
        as [t_last |]; [| discriminate].
      destruct (now - t_last <? StabilizedRULPredictor.min_interval);
        [exact Ec | discriminate].
    - destruct (RULPredictor.predict_rul sd m) as [raw_rul raw_health].
      destruct (StabilizedRULPredictor._stabilize_prediction m raw_rul raw_health
                  now self) as [self1 [stable_rul stable_health]].
      cbn [fst snd StabilizedRULPredictor.stable_predictions].
      apply lookup_insert_eq. }
  destruct (StabilizedRULPredictor.predict_rul now sd m false self)
    as [self1 p] eqn:E.
  cbn [fst snd] in *.
  unfold StabilizedRULPredictor.predict_rul. rewrite Hlast.
  assert (Hb : (now' - now <? StabilizedRULPredictor.min_interval) = true)
    by (apply Z.ltb_lt; exact Hnear).
  rewrite Hb, Hcache. reflexivity.
Qed.

Lemma prediction_cached_within_interval_witness :
  StabilizedRULPredictor.predict_rul (Num.seconds 299) Scenario.degraded_sensors
    "M-1" false
    (fst (StabilizedRULPredictor.predict_rul (Num.seconds 0)
            Scenario.healthy_sensors "M-1" false StabilizedRULPredictor.__init__)) =
  StabilizedRULPredictor.predict_rul (Num.seconds 0) Scenario.healthy_sensors
    "M-1" false StabilizedRULPredictor.__init__.
Proof.
  apply (prediction_cached_within_interval StabilizedRULPredictor.__init__
           (Num.seconds 0) (Num.seconds 299) Scenario.healthy_sensors
           Scenario.degraded_sensors "M-1").
  - vm_compute. reflexivity.
  - vm_compute. reflexivity.
Defined.

(** ** The metrics tracker: outcomes and counts *)

Section TrackerInvariant.

Import MetricsTracker Matching Tracking.

Local Open Scope Q_scope.

Lemma Forall_dict_set {V} (P : string * V -> Prop) k v (d : list (string * V)) :
  Forall P d -> P (k, v) -> Forall P (dict_set k v d).
Proof.
  intros Hd Hv. induction Hd as [| [k' v'] d Hx Hd IH]; cbn.
  - constructor; [exact Hv | constructor].
  - destruct (String.eqb k' k); constructor; assumption.
Qed.

Lemma eligible_lead now machine window p :
  eligible now machine window p = true ->
  0 < time_diff now p <= window.
Proof.
  unfold eligible. rewrite !andb_true_iff. intros [_ [H1 H2]].
  split; [now apply Qltb_true | now apply Qleb_true].
Qed.

Lemma well_formed_init : well_formed __init__.
Proof. constructor. Qed.

Lemma well_formed_expire now age self :
  well_formed self -> well_formed (MetricsTracker.expire_pending_predictions now age self).
Proof.
  unfold well_formed. cbn. intros H. apply Forall_map.
  eapply Forall_impl; [exact H |]. intros [k p] Hp. cbn in *.
  unfold MetricsTracker.expire_step. destruct (negb _); [exact Hp |].
  destruct (Num.Qltb _ _); [| exact Hp]. exact I.
Qed.

Lemma well_formed_perform c self : well_formed self -> well_formed (perform c self).
Proof.
  intros H. destruct c as [now m ttf h a conf | now m kind | i notes | now age | now];
    cbn [perform].
  - unfold well_formed, record_prediction. cbn.
    apply Forall_dict_set; [exact H | exact I].
  - unfold well_formed, record_failure.
    pose proof (find_match_best now m self) as Hb.
    destruct (find_match now m self) as [[[pid p] lead] |]; cbn; [| exact H].
    destruct Hb as (_ & Hel & -> & _).
    apply Forall_dict_set; [exact H |]. cbn.
    exists (time_diff now p), now. repeat split; apply (eligible_lead _ _ _ _ Hel).
  - unfold well_formed, MetricsTracker.mark_false_positive. cbn. apply Forall_map.
    eapply Forall_impl; [exact H |]. intros [k p] Hp. cbn in *.
    destruct (String.eqb k i); [exact I | exact Hp].
  - now apply well_formed_expire.
  - now apply well_formed_expire.
Qed.

Lemma well_formed_run cs : forall self, well_formed self -> well_formed (run cs self).
Proof.
  induction cs as [| c cs IH]; intros self H; [exact H |].
  change (run (c :: cs) self) with (run cs (perform c self)).
  apply IH, well_formed_perform, H.
Qed.

(** Pending, false positive and true positive are all there is. *)
Lemma count_partition self :
  well_formed self ->
  (MetricsTracker.count_outcome TRUE_POSITIVE self + MetricsTracker.count_outcome FALSE_POSITIVE self +
   MetricsTracker.count_outcome PENDING self =
   Z.of_nat (length (predictions self)))%Z.
Proof.
  unfold well_formed, MetricsTracker.count_outcome. intros H.
  induction H as [| [k p] l Hp _ IH]; [reflexivity |].
  cbn [List.filter length snd] in *. unfold settled in Hp.
  destruct (outcome p); cbn in *; try lia; destruct Hp.
Qed.

(** The lead times on record are those of the true positives. *)
Lemma lead_times_settled self :
  well_formed self ->
  Z.of_nat (length (MetricsTracker.lead_times_of self)) =
    MetricsTracker.count_outcome TRUE_POSITIVE self /\
  Forall (fun l => 0 < l <= prediction_window_hours self) (MetricsTracker.lead_times_of self).
Proof.
  unfold well_formed, MetricsTracker.lead_times_of, MetricsTracker.count_outcome.
  generalize (prediction_window_hours self). intros window H.
  induction H as [| [k p] l Hp _ [IHn IHb]]; [split; [reflexivity | constructor] |].
  unfold settled in Hp. cbn [snd] in Hp. cbn [List.filter snd].
  change (omap ?f ((k, p) :: l)) with
    (match f (k, p) with Some y => y :: omap f l | None => omap f l end).
  cbn [snd].
  destruct (outcome p); cbn [outcome_eqb];
    [| split; assumption | destruct Hp | destruct Hp | split; assumption].
  destruct Hp as (lead & at_ & -> & _ & Hl). cbn [length]. split; [lia |].
  constructor; assumption.
Qed.

Lemma pymax_list_bounds (l : list Q) (u : Q) :
  0 <= u -> Forall (fun x => 0 < x <= u) l ->
  0 <= MetricsTracker.pymax_list l <= u.
Proof.
  intros Hu [| x l' [Hx0 Hxu] Hl]; cbn; [lra |].
  assert (G : forall acc, 0 <= acc <= u -> 0 <= fold_left Num.pymax l' acc <= u).
  { induction Hl as [| y l0 [Hy0 Hyu] _ IH]; intros acc Hacc; [exact Hacc |].
    cbn. apply IH. unfold Num.pymax. destruct (Num.Qltb acc y); lra. }
  apply G. lra.
Qed.

Lemma pymin_list_bounds (l : list Q) (u : Q) :
  0 <= u -> Forall (fun x => 0 < x <= u) l ->
  0 <= MetricsTracker.pymin_list l <= u.
Proof.
  intros Hu [| x l' [Hx0 Hxu] Hl]; cbn; [lra |].
  assert (G : forall acc, 0 <= acc <= u -> 0 <= fold_left Num.pymin l' acc <= u).
  { induction Hl as [| y l0 [Hy0 Hyu] _ IH]; intros acc Hacc; [exact Hacc |].
    cbn. apply IH. unfold Num.pymin. destruct (Num.Qltb y acc); lra. }
  apply G. lra.
Qed.

Lemma pysum_bounds (l : list Q) (u : Q) :
  Forall (fun x => 0 < x <= u) l ->
  0 <= MetricsTracker.pysum l <= inject_Z (Z.of_nat (length l)) * u.
Proof.
  intros Hl. unfold MetricsTracker.pysum.
  assert (G : forall acc n,
    0 <= acc <= inject_Z (Z.of_nat n) * u ->
    0 <= fold_left Qplus l acc <= inject_Z (Z.of_nat (n + length l)) * u).
  { induction Hl as [| y l0 [Hy0 Hyu] _ IH]; intros acc n Hacc.
    - cbn. now rewrite Nat.add_0_r.
    - cbn [fold_left length].
      replace (n + S (length l0))%nat with (S n + length l0)%nat by lia.
      apply IH. rewrite Nat2Z.inj_succ, <- Z.add_1_r, inject_Z_plus.
      change (inject_Z 1) with 1. rewrite Qmult_plus_distr_l, Qmult_1_l.
      set (a := inject_Z (Z.of_nat n) * u) in *. clearbody a. lra. }
  specialize (G 0 0%nat). cbn [Nat.add] in G. apply G.
  change (inject_Z (Z.of_nat 0)) with 0. rewrite Qmult_0_l. lra.
Qed.

End TrackerInvariant.

Section TrackerMetrics.

Import MetricsTracker Matching Tracking.

Local Open Scope Q_scope.

Lemma window_perform c self :
  prediction_window_hours (perform c self) = prediction_window_hours self.
Proof.
  destruct c; reflexivity.
Qed.

Lemma window_run cs : forall self,
  prediction_window_hours (run cs self) = prediction_window_hours self.
Proof.
  induction cs as [| c cs IH]; intros self; [reflexivity |].
  change (run (c :: cs) self) with (run cs (perform c self)).
  now rewrite IH, window_perform.
Qed.

(** A share [a / (a + b)] of two counts, or its default, is in [0, 1]. *)
Lemma share_unit (a b : Z) (dflt : Q) :
  (0 <= a)%Z -> (0 <= b)%Z -> 0 <= dflt <= 1 ->
  0 <= (if (0 <? a + b)%Z then inject_Z a / inject_Z (a + b) else dflt) <= 1.
Proof.
  intros Ha Hb Hd. destruct (0 <? a + b)%Z eqn:E; [| exact Hd].
  apply Z.ltb_lt in E.
  assert (Hpos : 0 < inject_Z (a + b)).
  { change 0 with (inject_Z 0). rewrite <- Zlt_Qlt. exact E. }
  split.
  - apply Qle_shift_div_l; [exact Hpos |]. rewrite Qmult_0_l.
    change 0 with (inject_Z 0). rewrite <- Zle_Qle. exact Ha.
  - apply Qle_shift_div_r; [exact Hpos |]. rewrite Qmult_1_l.
    rewrite <- Zle_Qle. lia.
Qed.

Lemma f1_unit (p r : Q) :
  0 <= p <= 1 -> 0 <= r <= 1 ->
  0 <= (if Num.Qltb 0 (p + r) then 2 * (p * r) / (p + r) else 0) <= 1.
Proof.
  intros [Hp0 Hp1] [Hr0 Hr1].
  destruct (Num.Qltb 0 (p + r)) eqn:E; [| lra].
  apply Qltb_true in E.
  assert (Hpr0 : 0 <= p * r) by (apply Qmult_le_0_compat; assumption).
  assert (Hpr1 : p * r <= p).
  { rewrite <- (Qmult_1_r p) at 2.
    rewrite (Qmult_comm p r), (Qmult_comm p 1).
    apply Qmult_le_compat_r; assumption. }
  assert (Hpr2 : p * r <= r).
  { rewrite <- (Qmult_1_l r) at 2. apply Qmult_le_compat_r; assumption. }
  set (x := p * r) in *. clearbody x.
  split.
  - apply Qle_shift_div_l; [exact E |]. lra.
  - apply Qle_shift_div_r; [exact E |]. lra.
Qed.

Lemma percent_between x : 0 <= x <= 1 -> 0 <= Num.round (x * 100) 2 <= 100.
Proof.
  intros H. apply (round_between 0 100).
  change (0 <= x * 100 <= 100). lra.
Qed.

Lemma count_nonneg o self : (0 <= MetricsTracker.count_outcome o self)%Z.
Proof. unfold MetricsTracker.count_outcome. lia. Qed.

End TrackerMetrics.

(** X17: the counts of [calculate_metrics] add up.  For every tracker
    built from the initial one by recording predictions and failures,
    marking false positives, expiring and computing metrics: true positives,
    false positives and pending predictions together are all the
    predictions; the reported [true_negatives] is the number of pending
    predictions; every true positive has a lead time on record; and the
    reported minimum, average and maximum lead times lie between 0 and the
    matching window of 48 hours. *)
Theorem metrics_counts_add_up (cs : list Tracking.call) (now : Z) :
  let self := Tracking.run cs MetricsTracker.__init__ in
  let m := snd (MetricsTracker.calculate_metrics now self) in
  (MetricsTracker.true_positives m + MetricsTracker.false_positives m + MetricsTracker.pending m =
   Z.of_nat (MetricsTracker.total_predictions m))%Z /\
  MetricsTracker.true_negatives m = MetricsTracker.pending m /\
  Z.of_nat (MetricsTracker.predictions_with_lead_time m) = MetricsTracker.true_positives m /\
  (0 <= MetricsTracker.min_hours m <= 48)%Q /\
  (0 <= MetricsTracker.average_hours m <= 48)%Q /\
  (0 <= MetricsTracker.max_hours m <= 48)%Q.
Proof.
  intros self m. subst m.
  set (self' := MetricsTracker.expire_pending_predictions now 48 self).
  assert (Hwf : Tracking.well_formed self').
  { apply well_formed_expire, well_formed_run, well_formed_init. }
  assert (Hw : MetricsTracker.prediction_window_hours self' = 48%Q).
  { unfold self', self. cbn [MetricsTracker.expire_pending_predictions MetricsTracker.with_predictions
                             MetricsTracker.prediction_window_hours].
    now rewrite window_run. }
  pose proof (count_partition self' Hwf) as Hcount.
  pose proof (lead_times_settled self' Hwf) as [Hn Hlead]. rewrite Hw in Hlead.
  pose proof (count_nonneg MetricsTracker.PENDING self') as Hp0.
  unfold MetricsTracker.calculate_metrics. fold self'.
  cbn [snd MetricsTracker.true_positives MetricsTracker.false_positives MetricsTracker.pending
       MetricsTracker.total_predictions MetricsTracker.true_negatives MetricsTracker.predictions_with_lead_time
       MetricsTracker.min_hours MetricsTracker.average_hours MetricsTracker.max_hours].
  split; [exact Hcount |]. split; [lia |]. split; [exact Hn |].
  split; [| split].
  - apply (round_between 0 48), pymin_list_bounds; [discriminate | exact Hlead].
  - apply (round_between 0 48).
    destruct (MetricsTracker.lead_times_of self') as [| x l] eqn:El; [split; discriminate |].
    rewrite <- El in *.
    pose proof (pysum_bounds _ _ Hlead) as [Hs0 Hs1].
    assert (Hpos : (0 < inject_Z (Z.of_nat (length (MetricsTracker.lead_times_of self'))))%Q).
    { change 0%Q with (inject_Z 0). rewrite <- Zlt_Qlt. rewrite El. cbn. lia. }
    split.
    + apply Qle_shift_div_l; [exact Hpos |]. now rewrite Qmult_0_l.
    + apply Qle_shift_div_r; [exact Hpos |].
      now rewrite Qmult_comm.
  - apply (round_between 0 48), pymax_list_bounds; [discriminate | exact Hlead].
Qed.

(** X18: the four rates [calculate_metrics] reports are percentages.  For
    any tracker whatever, [precision], [recall], [f1_score] and
    [false_alarm_rate] lie between 0 and 100; and a tracker without
    predictions and without failures is reported with precision 100, recall
    100, F1 100, false alarm rate 0 and the rating EXCELLENT. *)
Theorem metrics_are_percentages (now : Z) (self : MetricsTracker.t) :
  let m := snd (MetricsTracker.calculate_metrics now self) in
  (0 <= MetricsTracker.precision m <= 100)%Q /\
  (0 <= MetricsTracker.recall m <= 100)%Q /\
  (0 <= MetricsTracker.f1_score m <= 100)%Q /\
  (0 <= MetricsTracker.false_alarm_rate m <= 100)%Q /\
  (MetricsTracker.predictions self = [] -> MetricsTracker.failures self = [] ->
   (MetricsTracker.precision m == 100)%Q /\ (MetricsTracker.recall m == 100)%Q /\
   (MetricsTracker.f1_score m == 100)%Q /\ (MetricsTracker.false_alarm_rate m == 0)%Q /\
   MetricsTracker.accuracy_rating m = "EXCELLENT"%string).
Proof.
  intros m. subst m. unfold MetricsTracker.calculate_metrics.
  set (self' := MetricsTracker.expire_pending_predictions now 48 self).
  cbn [snd MetricsTracker.precision MetricsTracker.recall MetricsTracker.f1_score MetricsTracker.false_alarm_rate
       MetricsTracker.accuracy_rating].
  pose proof (count_nonneg MetricsTracker.TRUE_POSITIVE self') as Htp.
  pose proof (count_nonneg MetricsTracker.FALSE_POSITIVE self') as Hfp.
  assert (Hfn : (0 <= Z.of_nat (MetricsTracker.false_negatives self'))%Z) by lia.
  assert (H01 : (0 <= 1 <= 1)%Q) by (split; discriminate).
  assert (H00 : (0 <= 0 <= 1)%Q) by (split; discriminate).
  pose proof (share_unit _ _ 1 Htp Hfp H01) as Hprec.
  pose proof (share_unit _ _ 1 Htp Hfn H01) as Hrec.
  pose proof (share_unit _
                (Z.max 0 (Z.of_nat (length (MetricsTracker.predictions self')) -
                          MetricsTracker.count_outcome MetricsTracker.TRUE_POSITIVE self' -
                          MetricsTracker.count_outcome MetricsTracker.FALSE_POSITIVE self'))
                0 Hfp (Z.le_max_l _ _) H00) as Hfar.
  pose proof (f1_unit _ _ Hprec Hrec) as Hf1.
  split; [apply percent_between, Hprec |].
  split; [apply percent_between, Hrec |].
  split; [apply percent_between, Hf1 |].
  split; [apply percent_between, Hfar |].
  intros Hp Hf. subst self'.
  unfold MetricsTracker.count_outcome, MetricsTracker.false_negatives,
    MetricsTracker.expire_pending_predictions, MetricsTracker.with_predictions.
  cbn [MetricsTracker.predictions MetricsTracker.failures].
  rewrite Hp, Hf. cbn [List.map List.filter length].
  repeat split; reflexivity.
Qed.

Section Expiry.

Import MetricsTracker Matching.

Local Open Scope Q_scope.

Lemma seconds_mono (a b : Z) : (a <= b)%Z -> Num.total_seconds a <= Num.total_seconds b.
Proof.
  intros H. unfold Num.total_seconds.
  apply Qmult_le_compat_r; [now rewrite <- Zle_Qle | discriminate].
Qed.

Lemma time_diff_mono now now' p : (now <= now')%Z -> time_diff now p <= time_diff now' p.
Proof.
  intros H. unfold time_diff.
  apply Qmult_le_compat_r; [apply seconds_mono; lia | discriminate].
Qed.

(** An expired prediction is one the matching loop skips, before and after. *)
Lemma expire_step_skipped now now' machine window max_age acc k p :
  (now <= now')%Z -> window <= max_age ->
  match_step now' machine window acc (k, MetricsTracker.expire_step now max_age p) =
  match_step now' machine window acc (k, p).
Proof.
  intros Hnow Hw. unfold MetricsTracker.expire_step.
  destruct (negb (outcome_eqb (outcome p) PENDING)) eqn:Ep; [reflexivity |].
  destruct (Num.Qltb max_age _) eqn:Eage; [| reflexivity].
  apply Qltb_true in Eage. fold (time_diff now p) in Eage.
  pose proof (time_diff_mono now now' p Hnow) as Hm.
  rewrite (match_step_skip now' machine window acc (k, p)).
  - apply match_step_skip. unfold eligible. cbn.
    now rewrite andb_false_r.
  - unfold eligible. cbn [snd].
    assert (E : Num.Qleb (time_diff now' p) window = false)
      by (apply Qleb_false; lra).
    rewrite E. now rewrite !andb_false_r.
Qed.

Lemma find_match_expired now now' machine max_age self :
  (now <= now')%Z -> prediction_window_hours self <= max_age ->
  find_match now' machine (MetricsTracker.expire_pending_predictions now max_age self) =
  find_match now' machine self.
Proof.
  intros Hnow Hw. unfold find_match.
  cbn [MetricsTracker.expire_pending_predictions MetricsTracker.with_predictions predictions
       prediction_window_hours].
  generalize (@None (string * PredictionRecord * Q)).
  induction (predictions self) as [| [k p] l IH]; intros acc; [reflexivity |].
  cbn [List.map fold_left fst snd].
  rewrite (expire_step_skipped now now' machine _ max_age acc k p Hnow Hw).
  apply IH.
Qed.

End Expiry.

(** X19: expiring does not take a match away.  If the age limit of
    [expire_pending_predictions] is at least the matching window (as it is
    when [calculate_metrics] expires with its default of 48 hours), then a
    failure recorded at the same or a later clock reading is matched with
    the same prediction, at the same lead time, as if nothing had been
    expired, and the failure event stored for it is the same. *)
Theorem expiry_keeps_matching (now now' : Z) (max_age : Q)
    (machine kind : string) (self : MetricsTracker.t) :
  now <= now' ->
  (MetricsTracker.prediction_window_hours self <= max_age)%Q ->
  let expired := MetricsTracker.expire_pending_predictions now max_age self in
  MetricsTracker.find_match now' machine expired =
    MetricsTracker.find_match now' machine self /\
  snd (MetricsTracker.record_failure now' machine kind expired) =
    snd (MetricsTracker.record_failure now' machine kind self) /\
  MetricsTracker.failures
    (fst (MetricsTracker.record_failure now' machine kind expired)) =
  MetricsTracker.failures
    (fst (MetricsTracker.record_failure now' machine kind self)).
Proof.
  intros Hnow Hw expired. subst expired.
  pose proof (find_match_expired now now' machine max_age self Hnow Hw) as E.
  split; [exact E |].
  unfold MetricsTracker.record_failure. rewrite E. split; reflexivity.
Qed.

Lemma expiry_keeps_matching_witness :
  let self := Tracking.run (List.firstn 3 Tracking.example_calls)
                MetricsTracker.__init__ in
  let expired :=
    MetricsTracker.expire_pending_predictions (MetricsTracker.hours 50) 48 self in
  MetricsTracker.find_match (MetricsTracker.hours 52) "M-1" expired =
    MetricsTracker.find_match (MetricsTracker.hours 52) "M-1" self /\
  snd (MetricsTracker.record_failure (MetricsTracker.hours 52) "M-1" "failure"
         expired) =
    snd (MetricsTracker.record_failure (MetricsTracker.hours 52) "M-1" "failure"
           self) /\
  MetricsTracker.failures
    (fst (MetricsTracker.record_failure (MetricsTracker.hours 52) "M-1" "failure"
            expired)) =
  MetricsTracker.failures
    (fst (MetricsTracker.record_failure (MetricsTracker.hours 52) "M-1" "failure"
            self)).
Proof.
  apply (expiry_keeps_matching (MetricsTracker.hours 50) (MetricsTracker.hours 52)
           48 "M-1" "failure"
           (Tracking.run (List.firstn 3 Tracking.example_calls)
              MetricsTracker.__init__)).
  - vm_compute. discriminate.
  - vm_compute. discriminate.
Defined.

(** ** The risk score follows its inputs *)

Section RiskOrder.

Local Open Scope Q_scope.

Lemma pymin_mono a b b' : b <= b' -> Num.pymin a b <= Num.pymin a b'.
Proof.
  intros H. apply pymin_glb; [apply pymin_le_l |].
  eapply Qle_trans; [apply pymin_le_r | exact H].
Qed.

Lemma pymax_mono a b b' : b <= b' -> Num.pymax a b <= Num.pymax a b'.
Proof.
  intros H. apply pymax_lub; [apply pymax_ge_l |].
  eapply Qle_trans; [exact H | apply pymax_ge_r].
Qed.

End RiskOrder.

(** X20: the risk score follows its inputs.  A sample with no more RUL,
    no more health and no less anomaly score than another has a risk score
    that is not smaller; the score is 0 for a RUL of at least
    [MAX_RUL_HOURS], a health of at least 100 and no anomaly, and 1 for a RUL
    and a health of 0 or less with an anomaly score of 10 or more. *)
Theorem risk_score_monotone (rul rul' health health' anomaly anomaly' : Q) :
  (rul' <= rul)%Q -> (health' <= health)%Q -> (anomaly <= anomaly')%Q ->
  (calculate_risk_score rul health anomaly <=
   calculate_risk_score rul' health' anomaly')%Q /\
  ((Config.MAX_RUL_HOURS <= rul)%Q -> (100 <= health)%Q -> (anomaly <= 0)%Q ->
   (calculate_risk_score rul health anomaly == 0)%Q) /\
  ((rul' <= 0)%Q -> (health' <= 0)%Q -> (10 <= anomaly')%Q ->
   (calculate_risk_score rul' health' anomaly' == 1)%Q).
Proof.
  intros Hr Hh Ha. unfold calculate_risk_score, Config.MAX_RUL_HOURS.
  assert (Er : forall x, (x / 144 == x * (1 # 144))%Q) by (intros; field).
  assert (Eh : forall x, (x / 100 == x * (1 # 100))%Q) by (intros; field).
  assert (Ea : forall x, (x / 10 == x * (1 # 10))%Q) by (intros; field).
  split; [| split].
  - apply round_mono, pymin_mono, pymax_mono.
    assert (H1 : (Num.pymax 0 (Num.pymin 1 (1 - rul / 144)) <=
                  Num.pymax 0 (Num.pymin 1 (1 - rul' / 144)))%Q)
      by (apply pymax_mono, pymin_mono; rewrite !Er; lra).
    assert (H2 : (Num.pymax 0 (Num.pymin 1 (1 - health / 100)) <=
                  Num.pymax 0 (Num.pymin 1 (1 - health' / 100)))%Q)
      by (apply pymax_mono, pymin_mono; rewrite !Eh; lra).
    assert (H3 : (Num.pymin 1 (anomaly / 10) <= Num.pymin 1 (anomaly' / 10))%Q)
      by (apply pymin_mono; rewrite !Ea; lra).
    lra.
  - intros Hr0 Hh0 Ha0.
    assert (H1 : (Num.pymax 0 (Num.pymin 1 (1 - rul / 144)) <= 0)%Q).
    { apply pymax_lub; [lra |].
      eapply Qle_trans; [apply pymin_le_r |]. rewrite Er. lra. }
    assert (H2 : (Num.pymax 0 (Num.pymin 1 (1 - health / 100)) <= 0)%Q).
    { apply pymax_lub; [lra |].
      eapply Qle_trans; [apply pymin_le_r |]. rewrite Eh. lra. }
    assert (H3 : (Num.pymin 1 (anomaly / 10) <= 0)%Q).
    { eapply Qle_trans; [apply pymin_le_r |]. rewrite Ea. lra. }
    apply Qle_antisym.
    + apply Qle_trans with (Num.round 0 3); [| vm_compute; discriminate].
      apply round_mono.
      eapply Qle_trans; [apply pymin_le_r |]. apply pymax_lub; lra.
    + apply round_nonneg. apply clamp_unit_interval.
  - intros Hr0 Hh0 Ha0.
    assert (H1 : (1 <= Num.pymax 0 (Num.pymin 1 (1 - rul' / 144)))%Q).
    { eapply Qle_trans; [| apply pymax_ge_r].
      apply pymin_glb; [lra |]. rewrite Er. lra. }
    assert (H2 : (1 <= Num.pymax 0 (Num.pymin 1 (1 - health' / 100)))%Q).
    { eapply Qle_trans; [| apply pymax_ge_r].
      apply pymin_glb; [lra |]. rewrite Eh. lra. }
    assert (H3 : (1 <= Num.pymin 1 (anomaly' / 10))%Q).
    { apply pymin_glb; [lra |]. rewrite Ea. lra. }
    apply Qle_antisym.
    + apply round_unit_interval, clamp_unit_interval.
    + apply Qle_trans with (Num.round 1 3); [vm_compute; discriminate |].
      apply round_mono. apply pymin_glb; [lra |].
      eapply Qle_trans; [| apply pymax_ge_r]. lra.
Qed.

Lemma risk_score_monotone_witness :
  (calculate_risk_score 30 40 0 <= calculate_risk_score 20 25 3)%Q /\
  ((Config.MAX_RUL_HOURS <= 30)%Q -> (100 <= 40)%Q -> (0 <= 0)%Q ->
   (calculate_risk_score 30 40 0 == 0)%Q) /\
  ((20 <= 0)%Q -> (25 <= 0)%Q -> (10 <= 3)%Q ->
   (calculate_risk_score 20 25 3 == 1)%Q).
Proof.
  apply (risk_score_monotone 30 20 40 25 0 3); discriminate.
Defined.

(** ** The store: insert, look up, delete, sweep *)

Section StoreRoundTrips.

Import Database.

Lemma find_none_existsb {A} (p : A -> bool) (l : list A) :
  existsb p l = false <-> List.find p l = None.
Proof.
  induction l as [| a l IH]; cbn; [tauto |].
  destruct (p a); cbn; [split; discriminate | exact IH].
Qed.

Lemma find_app_fresh {A} (p : A -> bool) (l : list A) (x : A) :
  List.find p (l ++ [x]) =
  match List.find p l with
  | Some a => Some a
  | None => if p x then Some x else None
  end.
Proof.
  induction l as [| a l IH]; cbn; [reflexivity |].
  destruct (p a); [reflexivity | exact IH].
Qed.

Lemma filter_negb_all {A} (p : A -> bool) (l : list A) :
  existsb p l = false -> List.filter (fun a => negb (p a)) l = l.
Proof.
  induction l as [| a l IH]; cbn; [reflexivity |].
  destruct (p a); cbn; [discriminate | intros H; now rewrite IH].
Qed.

Lemma filter_none {A} (p : A -> bool) (l : list A) :
  existsb p l = false -> List.filter p l = [].
Proof.
  induction l as [| a l IH]; cbn; [reflexivity |].
  destruct (p a); cbn; [discriminate | exact IH].
Qed.

End StoreRoundTrips.

(** X21: [create_alert] and [get_alert] round-trip.  When no row has the
    id, [create_alert] returns the id, [get_alert] of it then returns the
    row just written: ACTIVE, with the given machine, type, severity,
    message, creation time and metadata and no acknowledgement or resolution
    columns; [get_alert] of every other id answers as before and the logs
    are untouched.  When a row has the id already, the insert raises the
    integrity error and the store is unchanged. *)
Theorem create_alert_then_get (data : Database.alert_data) (db : Database.t) :
  match Database.get_alert (Database.d_id data) db with
  | None =>
      exists db',
        Database.create_alert data db = (db', Database.Return (Database.d_id data)) /\
        (exists row,
           Database.get_alert (Database.d_id data) db' = Some row /\
           Database.state row = Database.ACTIVE /\
           Database.machine_id row = Database.d_machine_id data /\
           Database.alert_type row = Database.d_alert_type data /\
           Database.severity row = Database.d_severity data /\
           Database.message row = Database.d_message data /\
           Database.created_at row = Database.d_created_at data /\
           Database.metadata row = Database.d_metadata data /\
           Database.acknowledged_by row = None /\
           Database.resolved_by row = None) /\
        (forall other, other <> Database.d_id data ->
           Database.get_alert other db' = Database.get_alert other db) /\
        Database.maintenance_logs db' = Database.maintenance_logs db
  | Some _ =>
      Database.create_alert data db = (db, Database.Raise Database.IntegrityError)
  end.
Proof.
  unfold Database.create_alert, Database.get_alert.
  destruct (List.find _ (Database.alerts db)) as [a |] eqn:Hfind.
  - assert (E : existsb (fun r => String.eqb (Database.id r) (Database.d_id data))
                        (Database.alerts db) = true).
    { apply not_false_iff_true. intros E. apply find_none_existsb in E.
      rewrite E in Hfind. discriminate Hfind. }
    now rewrite E.
  - rewrite (proj2 (find_none_existsb _ _) Hfind).
    eexists. split; [reflexivity |]. cbn [Database.alerts Database.maintenance_logs].
    split; [| split; [| reflexivity]].
    + eexists. split.
      * rewrite find_app_fresh, Hfind. cbn [Database.id].
        now rewrite String.eqb_refl.
      * cbn. repeat split; reflexivity.
    + intros other Hne. rewrite find_app_fresh. cbn [Database.id].
      destruct (List.find (fun r => String.eqb (Database.id r) other)
                          (Database.alerts db)); [reflexivity |].
      destruct (String.eqb_spec (Database.d_id data) other) as [E | _];
        [now contradiction Hne | reflexivity].
Qed.


Section Sweep.

Import Database Retention.

Lemma sweep_rows now (db : t) :
  alerts (fst (cleanup_old_data now db)) =
  List.map (fun r => if due now r then set_logged r else r) (alerts db).
Proof. reflexivity. Qed.

Lemma filter_map_same {A} (p : A -> bool) (g : A -> A) (l : list A) :
  (forall a, p (g a) = true -> g a = a) ->
  (forall a, p a = true -> g a = a) ->
  List.filter p (List.map g l) = List.filter p l.
Proof.
  intros H1 H2. induction l as [| a l IH]; cbn; [reflexivity |].
  destruct (p (g a)) eqn:E1.
  - pose proof (H1 a E1) as Eg. rewrite Eg in *. rewrite E1. now rewrite IH.
  - destruct (p a) eqn:E2; [| exact IH].
    rewrite (H2 a E2) in E1. congruence.
Qed.

Lemma update_where_idle cond f (rows : list alert_row) :
  existsb cond rows = false -> update_where cond f rows = (rows, 0%nat).
Proof.
  intros H. unfold update_where. rewrite (filter_none _ _ H). f_equal.
  induction rows as [| r rows IH]; [reflexivity |]. cbn in *.
  destruct (cond r); [discriminate |]. now rewrite IH.
Qed.

(** A store with nothing due and no log past its retention is left as it
    is. *)
Lemma cleanup_idle now (db : t) :
  existsb (due now) (alerts db) = false ->
  existsb (fun l => log_resolved_at l <? now - days Config.LOG_RETENTION_DAYS)
          (maintenance_logs db) = false ->
  cleanup_old_data now db = (db, (0%nat, 0%nat)).
Proof.
  intros Ha Hl.
  change (cleanup_old_data now db) with
    (let '(rows, archived_count) :=
       update_where (due now) set_logged (alerts db) in
     let old := fun l => log_resolved_at l <? now - days Config.LOG_RETENTION_DAYS in
     ({| alerts := rows;
         maintenance_logs := List.filter (fun l => negb (old l)) (maintenance_logs db) |},
      (archived_count, length (List.filter old (maintenance_logs db))))).
  rewrite (update_where_idle _ _ _ Ha). cbv beta iota zeta.
  rewrite (filter_negb_all _ _ Hl), (filter_none _ _ Hl).
  destruct db. reflexivity.
Qed.

Lemma existsb_filter_negb {A} (p : A -> bool) (l : list A) :
  existsb p (List.filter (fun a => negb (p a)) l) = false.
Proof.
  induction l as [| a l IH]; [reflexivity |]. cbn.
  destruct (p a) eqn:E; cbn; [exact IH | now rewrite E].
Qed.

End Sweep.

(** X23: the retention sweep touches nothing that is still open, and
    settles at once.  [cleanup_old_data] turns into LOGGED exactly the
    RESOLVED rows resolved more than [ALERT_RETENTION_DAYS] before the clock
    reading and returns their number; the open rows (ACTIVE, ACKNOWLEDGED,
    IN_PROGRESS) are row for row what they were; and a second sweep at the
    same clock reading archives 0 alerts, deletes 0 logs and changes
    nothing. *)
Theorem cleanup_old_data_settles (now : Z) (db : Database.t) :
  let db' := fst (Database.cleanup_old_data now db) in
  Database.alerts db' =
    List.map (fun r => if Retention.due now r then Database.set_logged r else r)
             (Database.alerts db) /\
  fst (snd (Database.cleanup_old_data now db)) =
    length (List.filter (Retention.due now) (Database.alerts db)) /\
  Retention.open_rows db' = Retention.open_rows db /\
  Database.cleanup_old_data now db' = (db', (0%nat, 0%nat)).
Proof.
  intros db'. subst db'. split; [reflexivity |]. split; [reflexivity |]. split.
  - unfold Retention.open_rows. rewrite sweep_rows.
    apply filter_map_same.
    + intros r. unfold Retention.due.
      destruct (Database.state r) eqn:Es; try reflexivity.
      destruct (Database.resolved_at r) as [at_ |]; [| reflexivity].
      destruct (at_ <? _); [cbn; discriminate | reflexivity].
    + intros r. unfold Retention.due.
      destruct (Database.state r); try reflexivity; discriminate.
  - apply cleanup_idle.
    + rewrite sweep_rows.
      induction (Database.alerts db) as [| r l IH]; [reflexivity |].
      cbn [List.map existsb]. rewrite IH, orb_false_r.
      destruct (Retention.due now r) eqn:E; [reflexivity | exact E].
    + apply (existsb_filter_negb
               (fun l => Database.log_resolved_at l <?
                         now - Database.days Config.LOG_RETENTION_DAYS)).
Qed.

(** ** Statistics of the store *)

Section Statistics.

Import Database.

Lemma by_state_table (c1 c2 c3 c4 c5 : nat) st :
  default 0%nat
    (list_to_map (M := gmap string nat)
       (List.filter (fun kv : string * nat => (0 <? snd kv)%nat)
          [(state_name ACTIVE, c1); (state_name ACKNOWLEDGED, c2);
           (state_name IN_PROGRESS, c3); (state_name RESOLVED, c4);
           (state_name LOGGED, c5)]) !! state_name st) =
  match st with
  | ACTIVE => c1 | ACKNOWLEDGED => c2 | IN_PROGRESS => c3
  | RESOLVED => c4 | LOGGED => c5
  end.
Proof.
  destruct c1, c2, c3, c4, c5, st; vm_compute; reflexivity.
Qed.

Lemma by_state_lookup n (db : t) st :
  default 0%nat (Database.alerts_by_state (Database.get_statistics n db) !! state_name st) =
  Database.count_state st db.
Proof.
  unfold Database.get_statistics. cbn [Database.alerts_by_state List.map].
  rewrite by_state_table. now destruct st.
Qed.

Lemma count_states (db : t) :
  (Database.count_state ACTIVE db + Database.count_state ACKNOWLEDGED db +
   Database.count_state IN_PROGRESS db + Database.count_state RESOLVED db +
   Database.count_state LOGGED db = length (alerts db))%nat /\
  (Database.count_state ACTIVE db + Database.count_state ACKNOWLEDGED db +
   Database.count_state IN_PROGRESS db = length (Retention.open_rows db))%nat.
Proof.
  unfold Database.count_state, Retention.open_rows.
  induction (alerts db) as [| r l [IH1 IH2]]; [split; reflexivity |].
  cbn [List.filter length].
  destruct (state r); cbn in *; lia.
Qed.

Lemma no_row_in_progress (db : t) :
  Lifecycle.all_audited db -> Database.count_state IN_PROGRESS db = 0%nat.
Proof.
  unfold Lifecycle.all_audited, Database.count_state. intros H.
  induction H as [| r l Hr _ IH]; [reflexivity |].
  cbn [List.filter]. unfold Lifecycle.audited in Hr.
  destruct (state r); cbn; try exact IH. destruct Hr.
Qed.

End Statistics.

(** X24: the statistics count what the store holds.  In every state the
    manager can reach, [get_alert_statistics] (which never fails and changes
    nothing) reports as [requires_attention] exactly the number of open
    alerts, because no alert is ever IN_PROGRESS; the counts of ACTIVE,
    ACKNOWLEDGED, RESOLVED and LOGGED alerts add up to the size of the table
    [alerts]; and [total_logs] is the size of the table
    [maintenance_logs]. *)
Theorem statistics_count_open_alerts (n : nat) (s : AlertManager.t) :
  Reach.reachable s ->
  exists st,
    AlertManager.get_alert_statistics n s = AlertManager.Val st s /\
    AlertManager.requires_attention st = length (Retention.open_rows (AlertManager.db s)) /\
    (AlertManager.active_alerts st + AlertManager.acknowledged_alerts st + AlertManager.resolved_alerts st +
     default 0 (AlertManager.st_alerts_by_state st !! "LOGGED"%string) =
     length (Database.alerts (AlertManager.db s)))%nat /\
    AlertManager.st_total_logs st = length (Database.maintenance_logs (AlertManager.db s)).
Proof.
  intros Hr.
  assert (Ha : Lifecycle.all_audited (AlertManager.db s)).
  { apply (reachable_keeps Lifecycle.all_audited); try assumption.
    - apply audited_create.
    - apply audited_acknowledge.
    - apply audited_resolve.
    - apply audited_cleanup.
    - intros logs d Hd. exact Hd.
    - constructor. }
  pose proof (no_row_in_progress _ Ha) as Hip.
  pose proof (count_states (AlertManager.db s)) as [Hall Hopen].
  eexists. split; [reflexivity |].
  cbn [AlertManager.requires_attention AlertManager.active_alerts AlertManager.acknowledged_alerts
       AlertManager.resolved_alerts AlertManager.st_alerts_by_state AlertManager.st_total_logs].
  change "ACTIVE"%string with (Database.state_name Database.ACTIVE).
  change "ACKNOWLEDGED"%string with (Database.state_name Database.ACKNOWLEDGED).
  change "RESOLVED"%string with (Database.state_name Database.RESOLVED).
  change "LOGGED"%string with (Database.state_name Database.LOGGED).
  rewrite !by_state_lookup. repeat split; lia.
Qed.

Lemma statistics_count_open_alerts_witness :
  exists st,
    AlertManager.get_alert_statistics 0 LifecycleExamples.archived =
      AlertManager.Val st LifecycleExamples.archived /\
    AlertManager.requires_attention st =
      length (Retention.open_rows (AlertManager.db LifecycleExamples.archived)) /\
    (AlertManager.active_alerts st + AlertManager.acknowledged_alerts st + AlertManager.resolved_alerts st +
     default 0 (AlertManager.st_alerts_by_state st !! "LOGGED"%string) =
     length (Database.alerts (AlertManager.db LifecycleExamples.archived)))%nat /\
    AlertManager.st_total_logs st =
      length (Database.maintenance_logs (AlertManager.db LifecycleExamples.archived)).
Proof.
  apply (statistics_count_open_alerts 0 LifecycleExamples.archived).
  unfold LifecycleExamples.archived, LifecycleExamples.resolved,
    ManagerExamples.acknowledged, ManagerExamples.after_warning.
  apply run_reachable, Reach.reach_resolve, Reach.reach_tick,
    Reach.reach_acknowledge, Reach.reach_tick, submit_all_reachable,
    Reach.reach_init.
Defined.

Section Creation.

Import AlertManager.

(** [_create_alert_if_new] when nothing stands in its way. *)
Lemma create_fresh m ty sev msg meta s :
  Database.check_duplicate_alert m ty (db s) = false ->
  Database.get_alert ("ALERT-" ++ uuid4_hex8 s (uuid4_calls s)) (db s) = None ->
  exists row s',
    _create_alert_if_new m ty sev msg meta s =
      Val (Some ("ALERT-" ++ uuid4_hex8 s (uuid4_calls s))%string) s' /\
    Database.alerts (db s') = Database.alerts (db s) ++ [row] /\
    Database.id row = ("ALERT-" ++ uuid4_hex8 s (uuid4_calls s))%string /\
    Database.state row = Database.ACTIVE /\
    Database.machine_id row = m /\ Database.alert_type row = ty /\
    Database.severity row = sev /\ Database.created_at row = clock s /\
    pending_alerts s' = pending_alerts s /\
    recent_alerts s' !! m = Some (default [] (recent_alerts s !! m) ++ [clock s]).
Proof.
  intros Hdup Hfresh. destruct s as [d w p r c u n].
  cbn [db uuid4_hex8 uuid4_calls] in Hdup, Hfresh.
  unfold _create_alert_if_new, bind, db_query, now, gets, uuid4, db_transaction,
    modify, ret, set_uuid4_calls.
  cbn [db uuid4_hex8 uuid4_calls clock].
  rewrite Hdup. unfold Database.create_alert.
  cbn [db uuid4_hex8 uuid4_calls clock Database.d_id].
  rewrite (proj2 (find_none_existsb _ _) Hfresh).
  eexists. eexists. split; [reflexivity |].
  cbn. rewrite lookup_insert_eq. repeat split; reflexivity.
Qed.

End Creation.

(** X25: a condition that persists does raise its alert.  If
    [_process_alert_with_persistence] is called for a pair without a pending
    timer, it starts one and returns [None]; if it is called again once the
    persistence window of the type has passed on the clock, no open alert of
    the pair is in the store and the next generated id is not taken, then it
    returns that id, the table [alerts] gains exactly one row, ACTIVE, of the
    machine, type and severity of the second call and stamped with its clock
    reading; the timer is gone, and the emission is on the rate-limit
    record of the machine. *)
Theorem persistent_condition_creates_alert (m ty sev sev2 : string)
    (msg msg2 : Database.message_t) (meta meta2 : Database.metadata_t)
    (s : AlertManager.t) (c : Z) :
  AlertManager.pending_alerts s !! (m, ty) = None ->
  (inject_Z (Spec.persistence_seconds ty) <=
   Num.total_seconds (c - AlertManager.clock s))%Q ->
  Database.check_duplicate_alert m ty (AlertManager.db s) = false ->
  Database.get_alert
    ("ALERT-" ++ AlertManager.uuid4_hex8 s (AlertManager.uuid4_calls s))
    (AlertManager.db s) = None ->
  let first := AlertManager._process_alert_with_persistence m ty sev msg meta s in
  let second :=
    AlertManager._process_alert_with_persistence m ty sev2 msg2 meta2
      (AlertManager.set_clock c (AlertManager.state_of first)) in
  AlertManager.value_of first = Some None /\
  exists row,
    AlertManager.value_of second = Some (Some (Database.id row)) /\
    Database.id row =
      ("ALERT-" ++ AlertManager.uuid4_hex8 s (AlertManager.uuid4_calls s))%string /\
    Database.alerts (AlertManager.db (AlertManager.state_of second)) =
      Database.alerts (AlertManager.db s) ++ [row] /\
    Database.state row = Database.ACTIVE /\
    Database.machine_id row = m /\ Database.alert_type row = ty /\
    Database.severity row = sev2 /\ Database.created_at row = c /\
    AlertManager.pending_alerts (AlertManager.state_of second) !! (m, ty) = None /\
    AlertManager.recent_alerts (AlertManager.state_of second) !! m =
      Some (default [] (AlertManager.recent_alerts s !! m) ++ [c]).
Proof.
  intros Hp Hlong Hdup Hfresh first second. subst first second.
  rewrite (process_absent _ _ _ _ _ _ Hp). cbn [AlertManager.state_of
    AlertManager.value_of]. split; [reflexivity |].
  set (s1 := AlertManager.set_clock c _).
  assert (Hp1 : AlertManager.pending_alerts s1 !! (m, ty) =
                Some (PendingAlert.__init__ ty sev (AlertManager.clock s)))
    by (unfold s1; cbn; apply lookup_insert_eq).
  assert (Hpers : PendingAlert.is_persistent
                    (PendingAlert.update (AlertManager.clock s1)
                       (PendingAlert.__init__ ty sev (AlertManager.clock s)))
                    (Spec.persistence_seconds ty) = true).
  { unfold PendingAlert.is_persistent. cbn. apply Qleb_true. exact Hlong. }
  rewrite (process_persistent _ _ _ _ _ _ _ Hp1 Hpers).
  set (s2 := AlertManager.set_pending_alerts _ s1).
  destruct (create_fresh m ty sev2 msg2 meta2 s2 Hdup Hfresh)
    as (row & s' & -> & Hrows & Hid & Hst & Hm & Hty & Hsev & Hat & Hpend & Hrec).
  exists row. cbn [AlertManager.value_of AlertManager.state_of].
  rewrite Hid. repeat split; try assumption.
  rewrite Hpend. unfold s2. cbn. apply lookup_delete_eq.
Qed.

Lemma persistent_condition_creates_alert_witness :
  let first :=
    AlertManager._process_alert_with_persistence "M-C" "warning_rul" "warning"
      (Database.Msg_warning_rul 40) [] Scenario.initial in
  let second :=
    AlertManager._process_alert_with_persistence "M-C" "warning_rul" "warning"
      (Database.Msg_warning_rul 39) []
      (AlertManager.set_clock (Num.seconds 60) (AlertManager.state_of first)) in
  AlertManager.value_of first = Some None /\
  exists row,
    AlertManager.value_of second = Some (Some (Database.id row)) /\
    Database.id row =
      ("ALERT-" ++ AlertManager.uuid4_hex8 Scenario.initial
                     (AlertManager.uuid4_calls Scenario.initial))%string /\
    Database.alerts (AlertManager.db (AlertManager.state_of second)) =
      Database.alerts (AlertManager.db Scenario.initial) ++ [row] /\
    Database.state row = Database.ACTIVE /\
    Database.machine_id row = "M-C"%string /\
    Database.alert_type row = "warning_rul"%string /\
    Database.severity row = "warning"%string /\
    Database.created_at row = Num.seconds 60 /\
    AlertManager.pending_alerts (AlertManager.state_of second)
      !! ("M-C", "warning_rul")%string = None /\
    AlertManager.recent_alerts (AlertManager.state_of second) !! "M-C"%string =
      Some (default [] (AlertManager.recent_alerts Scenario.initial !! "M-C"%string)
            ++ [Num.seconds 60]).
Proof.
  apply (persistent_condition_creates_alert "M-C" "warning_rul" "warning" "warning"
           (Database.Msg_warning_rul 40) (Database.Msg_warning_rul 39) [] []
           Scenario.initial (Num.seconds 60)).
  - vm_compute. reflexivity.
  - vm_compute. discriminate.
  - vm_compute. reflexivity.
  - vm_compute. reflexivity.
Defined.

(** ** The histories of the stabilizer only fall *)

Section FallingHistories.

Import StabilizedRULPredictor History Histories.

Local Open Scope Q_scope.

Lemma falling_app h e :
  falling h ->
  (forall a, In a h -> rul_of_entry e <= rul_of_entry a) ->
  falling (h ++ [e]).
Proof.
  intros Hs He. induction h as [| a l IH]; [cbn; auto |].
  destruct Hs as [Ha Hl]. cbn. split.
  - apply Forall_app. split; [exact Ha |].
    constructor; [apply He; now left | constructor].
  - apply IH; [exact Hl |]. intros b Hb. apply He. now right.
Qed.

Lemma falling_tl h : falling h -> falling (List.tl h).
Proof. destruct h; [auto |]. intros [_ H]. exact H. Qed.

Lemma falling_filter (p : Z * Q * Q -> bool) h : falling h -> falling (List.filter p h).
Proof.
  induction h as [| a l IH]; [auto |]. intros [Ha Hl]. cbn.
  destruct (p a); [| now apply IH]. split; [| now apply IH].
  apply List.Forall_forall. intros b Hb. apply filter_In in Hb as [Hb _].
  rewrite List.Forall_forall in Ha. now apply Ha.
Qed.

(** In a falling history the last entry is the lowest. *)
Lemma falling_last h d a :
  falling h -> In a h -> rul_of_entry (List.last h d) <= rul_of_entry a.
Proof.
  revert a. induction h as [| b l IH]; intros a H Hin; [destruct Hin |].
  destruct H as [Hb Hl]. destruct l as [| c l'].
  - destruct Hin as [<- | []]. cbn. lra.
  - change (List.last (b :: c :: l') d) with (List.last (c :: l') d).
    destruct Hin as [<- | Hin]; [| now apply IH].
    apply Qle_trans with (rul_of_entry c).
    + apply IH; [exact Hl | now left].
    + rewrite List.Forall_forall in Hb. apply Hb. now left.
Qed.

Lemma stabilize_falling m raw_rul raw_health ts self :
  kept self ->
  forall m', falling (history_of
                        (fst (_stabilize_prediction m raw_rul raw_health ts self)) m').
Proof.
  intros [Hk Hf] m'. unfold _stabilize_prediction.
  pose proof (Hf m) as Hm. pose proof (proj2 (proj2 Hk m)) as Hrange.
  unfold history_of in Hm, Hrange.
  set (history := default [] (prediction_history self !! m)) in *.
  assert (Hset : forall h, falling h ->
            falling (history_of (set_history self m h) m')).
  { intros h Hh. unfold history_of, set_history. cbn [prediction_history].
    destruct (decide (m' = m)) as [-> | Hne].
    - now rewrite lookup_insert_eq.
    - rewrite lookup_insert_ne by congruence. apply Hf. }
  destruct (length history =? 0)%nat eqn:E.
  - cbn [fst]. apply Hset. apply Nat.eqb_eq in E.
    destruct history; [| discriminate E]. cbn. auto.
  - destruct (List.last history (0%Z, 0, 0)) as [[t0 prev_rul] prev_health] eqn:El.
    cbv zeta. cbn [fst]. apply Hset.
    match goal with
    | |- context [(ts, ?r, ?h)] => set (stable_rul := r); set (stable_health := h)
    end.
    assert (Hne : history <> []) by (intros ->; discriminate E).
    assert (Hprev : 0 <= prev_rul).
    { assert (Hin : In (t0, prev_rul, prev_health) history).
      { rewrite <- El. destruct history as [| a l]; [congruence |].
        rewrite (last_cons_default a l _ a).
        destruct (exists_last (l := a :: l) ltac:(discriminate)) as (l0 & x & Ex).
        rewrite Ex, last_last. apply in_or_app. right. now left. }
      rewrite List.Forall_forall in Hrange.
      apply (Hrange _ Hin). }
    assert (Hle : stable_rul <= prev_rul).
    { unfold stable_rul. apply pymax_lub; [exact Hprev |].
      eapply Qle_trans; [apply pymin_le_l |]. apply pymin_le_r. }
    assert (Happ : falling (history ++ [(ts, stable_rul, stable_health)])).
    { apply falling_app; [exact Hm |]. intros a Ha.
      apply Qle_trans with prev_rul; [exact Hle |].
      change prev_rul with (rul_of_entry (t0, prev_rul, prev_health)).
      rewrite <- El. now apply falling_last. }
    destruct (50 <? _)%nat; [now apply falling_tl | exact Happ].
Qed.

Lemma falling_init : kept __init__.
Proof.
  split; [apply kept_init |].
  intros m. unfold history_of. cbn. rewrite lookup_empty. exact I.
Qed.

Lemma falling_predict now sd m b self :
  kept self -> kept (fst (predict_rul now sd m b self)).
Proof.
  intros Hk. split; [apply kept_predict, Hk |].
  pose proof (stabilize_falling m) as Hstab.
  destruct Hk as [Hr Hf]. unfold predict_rul. destruct b.
  - cbn [fst]. intros m'. unfold history_of. cbn [prediction_history].
    destruct (decide (m' = m)) as [-> | Hne].
    + rewrite lookup_delete_eq. exact I.
    + rewrite lookup_delete_ne by congruence. apply Hf.
  - cbv zeta.
    match goal with
    | |- context [match ?c with Some pred => _ | None => _ end] =>
        destruct c as [pred |]
    end; [exact Hf |].
    destruct (RULPredictor.predict_rul sd m) as [raw_rul raw_health].
    specialize (Hstab raw_rul raw_health now self (conj Hr Hf)).
    destruct (_stabilize_prediction m raw_rul raw_health now self)
      as [self1 [stable_rul stable_health]].
    cbn [fst] in *. exact Hstab.
Qed.

Lemma falling_reset m self : kept self -> kept (reset_machine m self).
Proof.
  intros [Hr Hf]. split; [apply kept_reset, Hr |].
  intros m'. unfold history_of, reset_machine. cbn [prediction_history].
  destruct (prediction_history self !! m) eqn:E; [| apply Hf].
  destruct (decide (m' = m)) as [-> | Hne].
  - rewrite lookup_insert_eq. exact I.
  - rewrite lookup_insert_ne by congruence. apply Hf.
Qed.

Lemma falling_run cs : forall self, kept self -> kept (fst (run cs self)).
Proof.
  induction cs as [| c cs IH]; intros self Hk; [exact Hk |].
  rewrite run_cons. apply IH.
  destruct c as [now sd m b | m]; cbn [step].
  - pose proof (falling_predict now sd m b self Hk) as H.
    now destruct (predict_rul now sd m b self).
  - cbn [fst]. now apply falling_reset.
Qed.

End FallingHistories.

(** X26: the trend of a stabilized history never rises.  After any
    sequence of predictions and resets from the initial state, a successful
    [get_prediction_trend] reports at most 50 data points, the entries it
    lists have a RUL that never increases from one to the next, the reported
    [rul_change] is 0 or negative, and the trend is ["degrading"] only with a
    reported [rul_change] of -5 or less, and ["stable"] otherwise. *)
Theorem prediction_trend_never_rises (cs : list StabilizedRULPredictor.call)
    (now : Z) (m : string) (hours : Z) :
  let self := fst (StabilizedRULPredictor.run cs StabilizedRULPredictor.__init__) in
  match StabilizedRULPredictor.get_prediction_trend now m hours self with
  | StabilizedRULPredictor.Success n rul_change health_change trend history =>
      (n <= 50)%nat /\ n = length history /\
      Histories.falling history /\
      (rul_change <= 0)%Q /\
      (trend = "degrading"%string \/ trend = "stable"%string) /\
      (trend = "degrading"%string -> (rul_change <= -5)%Q)
  | _ => True
  end.
Proof.
  intros self.
  assert (Hk : Histories.kept self) by apply falling_run, falling_init.
  destruct Hk as [[_ Hr] Hf].
  unfold StabilizedRULPredictor.get_prediction_trend.
  destruct (StabilizedRULPredictor.prediction_history self !! m) as [history |]
    eqn:Eh; [| exact I].
  specialize (Hr m). specialize (Hf m). unfold History.history_of in Hr, Hf.
  rewrite Eh in Hr, Hf. cbn [default] in Hr, Hf. destruct Hr as [Hlen _].
  set (recent := List.filter _ history).
  assert (Hfall : Histories.falling recent) by now apply falling_filter.
  assert (Hrlen : (length recent <= 50)%nat).
  { eapply Nat.le_trans; [apply List.filter_length_le | exact Hlen]. }
  destruct recent as [| first rest] eqn:Er; [exact I |]. rewrite <- Er in *.
  cbv zeta.
  set (change := if (2 <=? length recent)%nat then _ else 0%Q).
  assert (Hchange : (change <= 0)%Q).
  { unfold change. destruct (2 <=? length recent)%nat; [| discriminate].
    assert (Hl : (Histories.rul_of_entry (List.last recent first) <=
                  Histories.rul_of_entry first)%Q).
    { apply falling_last; [exact Hfall |]. rewrite Er. now left. }
    unfold Histories.rul_of_entry in Hl. lra. }
  split; [exact Hrlen |]. split; [reflexivity |]. split; [exact Hfall |].
  split; [| split].
  - apply Qle_trans with (Num.round 0 1); [| vm_compute; discriminate].
    apply round_mono. exact Hchange.
  - destruct (Num.Qltb change (-5)); auto.
  - destruct (Num.Qltb change (-5)) eqn:E; [| discriminate].
    intros _. apply Qltb_true in E.
    apply Qle_trans with (Num.round (-5) 1); [| vm_compute; discriminate].
    apply round_mono. lra.
Qed.

(** ** The history listings *)

Section Listings.

Import MetricsTracker Ordered.

Lemma insert_newest_perm {A} (key : A -> Z) x (l : list A) :
  Permutation (MetricsTracker.insert_newest key x l) (x :: l).
Proof.
  induction l as [| y l IH]; cbn; [reflexivity |].
  destruct (key x <? key y); [| reflexivity].
  rewrite IH. apply perm_swap.
Qed.

Lemma sort_newest_first_perm {A} (key : A -> Z) (l : list A) :
  Permutation (MetricsTracker.sort_newest_first key l) l.
Proof.
  induction l as [| x l IH]; cbn; [reflexivity |].
  now rewrite insert_newest_perm, IH.
Qed.

Lemma insert_newest_sorted {A} (key : A -> Z) x (l : list A) :
  newest_first key l -> newest_first key (MetricsTracker.insert_newest key x l).
Proof.
  induction l as [| y l IH]; intros H; [cbn; auto |].
  destruct H as [Hy Hl]. cbn [MetricsTracker.insert_newest].
  destruct (key x <? key y) eqn:E.
  - apply Z.ltb_lt in E. split; [| now apply IH].
    rewrite (insert_newest_perm key x l). constructor; [lia | exact Hy].
  - apply Z.ltb_ge in E. split; [| split; assumption].
    constructor; [exact E |].
    eapply Forall_impl; [exact Hy |]. intros b Hb. cbn in Hb. lia.
Qed.

Lemma sort_newest_first_sorted {A} (key : A -> Z) (l : list A) :
  newest_first key (MetricsTracker.sort_newest_first key l).
Proof.
  induction l as [| x l IH]; cbn; [auto |]. now apply insert_newest_sorted.
Qed.

(** Equal keys keep the order of the list. *)
Lemma insert_newest_tie {A} (key : A -> Z) x (l : list A) :
  Forall (fun y => key y <= key x) l -> MetricsTracker.insert_newest key x l = x :: l.
Proof.
  intros H. destruct H as [| y l Hy _]; [reflexivity |]. cbn.
  destruct (key x <? key y) eqn:E; [apply Z.ltb_lt in E; lia | reflexivity].
Qed.

Lemma newest_first_firstn {A} (key : A -> Z) n (l : list A) :
  newest_first key l -> newest_first key (List.firstn n l).
Proof.
  revert n. induction l as [| a l IH]; intros n H; [now destruct n |].
  destruct n as [| n]; [exact I |]. destruct H as [Ha Hl]. cbn. split.
  - apply List.Forall_forall. intros b Hb.
    rewrite List.Forall_forall in Ha. apply Ha.
    rewrite <- (firstn_skipn n l). apply in_or_app. now left.
  - now apply IH.
Qed.

Lemma slice_to_spec {A} (limit : Z) (l : list A) :
  exists n, MetricsTracker.slice_to limit l = List.firstn n l /\
            (0 <= limit -> n = Z.to_nat limit).
Proof.
  unfold MetricsTracker.slice_to. destruct (limit <? 0) eqn:E.
  - eexists. split; [reflexivity |]. apply Z.ltb_lt in E. lia.
  - eexists. split; [reflexivity | reflexivity].
Qed.

Lemma newest_first_map {A B} (f : A -> B) (key : B -> Z) (l : list A) :
  newest_first (fun a => key (f a)) l -> newest_first key (List.map f l).
Proof.
  induction l as [| a l IH]; [auto |]. intros [Ha Hl]. cbn. split.
  - apply Forall_map. exact Ha.
  - now apply IH.
Qed.

End Listings.

(** X27: [get_prediction_history] and [get_failure_history] list the
    newest records first.  The result for the predictions is the first [limit] entries of a list that holds exactly the
    predictions on record for the machine asked for (all of them when no
    machine, or the empty string, is given), each once, ordered so that no
    entry is newer than an earlier one; so the result is itself ordered
    newest first, has at most [limit] entries when [limit] is not negative,
    and every entry is a prediction on record, of that machine.  The
    failures listed are likewise ordered newest first and are failures on
    record, of that machine. *)
Theorem prediction_history_newest_first (machine : option string) (limit : Z)
    (self : MetricsTracker.t) :
  let shown := MetricsTracker.get_prediction_history machine limit self in
  let matching :=
    MetricsTracker.for_machine MetricsTracker.machine_id machine
      (List.map snd (MetricsTracker.predictions self)) in
  (exists sorted n,
     Permutation sorted matching /\
     Ordered.newest_first MetricsTracker.predicted_at sorted /\
     shown = List.map MetricsTracker.view_prediction (List.firstn n sorted) /\
     (0 <= limit -> n = Z.to_nat limit)) /\
  Ordered.newest_first MetricsTracker.v_predicted_at shown /\
  (0 <= limit -> (length shown <= Z.to_nat limit)%nat) /\
  (forall v, In v shown ->
     exists p, In p (List.map snd (MetricsTracker.predictions self)) /\
               v = MetricsTracker.view_prediction p /\
               forall m, machine = Some m -> m <> ""%string ->
                         MetricsTracker.v_machine_id v = m) /\
  Ordered.newest_first MetricsTracker.occurred_at
    (MetricsTracker.get_failure_history machine limit self) /\
  (forall f, In f (MetricsTracker.get_failure_history machine limit self) ->
     In f (List.map snd (MetricsTracker.failures self)) /\
     forall m, machine = Some m -> m <> ""%string ->
               MetricsTracker.f_machine_id f = m).
Proof.
  intros shown matching. subst shown. unfold MetricsTracker.get_prediction_history.
  fold matching.
  set (sorted := MetricsTracker.sort_newest_first MetricsTracker.predicted_at matching).
  pose proof (sort_newest_first_perm MetricsTracker.predicted_at matching) as Hperm.
  pose proof (sort_newest_first_sorted MetricsTracker.predicted_at matching) as Hsort.
  fold sorted in Hperm, Hsort.
  destruct (slice_to_spec limit sorted) as (n & Hn & Hlim). rewrite Hn.
  split; [| split; [| split; [| split; [| split]]]].
  - exists sorted, n. auto.
  - apply newest_first_map. now apply newest_first_firstn.
  - intros Hl. rewrite length_map, List.length_firstn, (Hlim Hl). lia.
  - intros v Hv. apply in_map_iff in Hv as (p & <- & Hp).
    assert (Hin : In p matching).
    { apply (Permutation_in _ Hperm).
      rewrite <- (firstn_skipn n sorted). apply in_or_app. now left. }
    exists p. unfold matching, MetricsTracker.for_machine in Hin. split; [| split].
    + destruct machine as [m |]; [| exact Hin].
      destruct (String.eqb m ""); [exact Hin |].
      now apply filter_In in Hin as [Hin _].
    + reflexivity.
    + intros m -> Hne. cbn [MetricsTracker.view_prediction MetricsTracker.v_machine_id].
      destruct (String.eqb_spec m "") as [E | _]; [now contradiction Hne |].
      apply filter_In in Hin as [_ Hm]. now apply String.eqb_eq.
  - unfold MetricsTracker.get_failure_history.
    destruct (slice_to_spec limit
                (MetricsTracker.sort_newest_first MetricsTracker.occurred_at
                   (MetricsTracker.for_machine MetricsTracker.f_machine_id machine
                      (List.map snd (MetricsTracker.failures self)))))
      as (k & -> & _).
    apply newest_first_firstn, sort_newest_first_sorted.
  - intros f Hf. unfold MetricsTracker.get_failure_history in Hf.
    destruct (slice_to_spec limit
                (MetricsTracker.sort_newest_first MetricsTracker.occurred_at
                   (MetricsTracker.for_machine MetricsTracker.f_machine_id machine
                      (List.map snd (MetricsTracker.failures self)))))
      as (k & Hk & _).
    rewrite Hk in Hf.
    assert (Hin : In f (MetricsTracker.for_machine MetricsTracker.f_machine_id machine
                          (List.map snd (MetricsTracker.failures self)))).
    { apply (Permutation_in _ (sort_newest_first_perm MetricsTracker.occurred_at _)).
      rewrite <- (firstn_skipn k (MetricsTracker.sort_newest_first _ _)).
      apply in_or_app. now left. }
    unfold MetricsTracker.for_machine in Hin. split.
    + destruct machine as [m |]; [| exact Hin].
      destruct (String.eqb m ""); [exact Hin |].
      now apply filter_In in Hin as [Hin _].
    + intros m -> Hne.
      destruct (String.eqb_spec m "") as [E | _]; [now contradiction Hne |].
      apply filter_In in Hin as [_ Hm]. now apply String.eqb_eq.
Qed.
